(** * PennyLane: operator equality, parameter batching and numpy conversion

    A shallow embedding of
      - [pennylane/ops/functions/equal.py]                   ([equal]),
      - [pennylane/transforms/batch_params.py]               ([batch_params]),
      - [pennylane/transforms/convert_to_numpy_parameters.py]
        ([convert_to_numpy_parameters] and its post-processing function).

    Python objects that are compared by identity or assigned to (operators,
    measurement processes) live in a store and are named by references;
    immutable data (numbers, arrays, tuples of results) are plain values. *)

From Stdlib Require Import QArith Qabs.
From stdpp Require Import base option list strings gmap.

#[local] Set Warnings "-register-all".
Local Open Scope string_scope.
Local Open Scope list_scope.

(* ===================================================================== *)
(** ** Python values *)

(** A numeric array: a scalar (shape [()]), a sequence of sub-arrays, or an
    entry of an object-typed array holding a counts mapping. *)
Inductive ndarray : Type :=
| Scalar (x : Q)
| Array (items : list ndarray)
| Object (d : list (string * nat)).

(** An array together with the tags the numeric layer keeps on it: the
    interface that owns it (["numpy"], ["autograd"], ["jax"], ["torch"],
    ["tensorflow"]) and its trainability flag. *)
Record tensor : Type := mkTensor {
  t_interface : string;
  t_requires_grad : bool;
  t_value : ndarray
}.

Inductive pyval : Type :=
| VArray (t : tensor)
| VDict (d : list (string * nat))
| VList (l : list pyval)
| VTuple (l : list pyval).

(** Exceptions raised by the modelled code.  [Stuck] is not a Python
    exception: it marks a store lookup through a reference that names no
    object, which no Python program can perform. *)
Inductive exn : Type :=
| ValueError
| IndexError
| NotImplementedError
| AttributeError
| Stuck.

Inductive result (A : Type) : Type :=
| Ok (a : A)
| Raise (e : exn).
Arguments Ok {A} a.
Arguments Raise {A} e.

Definition result_bind {A B} (r : result A) (k : A → result B) : result B :=
  match r with
  | Ok a => k a
  | Raise e => Raise e
  end.

(** [qml.math.shape]: the dimensions of an array, read along first items. *)
Fixpoint array_shape (a : ndarray) : list nat :=
  match a with
  | Scalar _ => []
  | Object _ => []
  | Array items =>
      length items :: match items with
                      | [] => []
                      | x :: _ => array_shape x
                      end
  end.

Fixpoint shape (v : pyval) : list nat :=
  match v with
  | VArray t => array_shape (t_value t)
  | VDict _ => []
  | VList l | VTuple l =>
      length l :: match l with
                  | [] => []
                  | x :: _ => shape x
                  end
  end.

(** [p[b]]: indexing along the leading dimension.  A slice of an array
    keeps the interface and the trainability of the array it is taken
    from.  [None] stands for the [IndexError] Python raises. *)
Definition getitem (v : pyval) (b : nat) : option pyval :=
  match v with
  | VArray t =>
      match t_value t with
      | Array items =>
          x ← items !! b;
          Some (VArray (mkTensor (t_interface t) (t_requires_grad t) x))
      | _ => None
      end
  | VList l | VTuple l => l !! b
  | VDict _ => None
  end.

(** The functions of [pennylane.math] the three modules call.  They are
    defined outside the files modelled here, so the development is
    parametric in them. *)
Class Math : Type := {
  get_interface : list pyval → string;
  requires_grad : pyval → bool;
  allclose : pyval → pyval → Q → Q → bool;
  allequal : option pyval → option pyval → bool;
  unwrap : list pyval → list pyval;
  asarray : pyval → string → pyval
}.

(* ===================================================================== *)
(** ** Operators and measurement processes *)

(** A reference is the position of an object in the store. *)
Abbreviation ref := nat (only parsing).

(** The attributes of an [Operator] instance the modelled code reads or
    writes.  [op_class] is the name of its class; [inverse] is [None]
    when the instance has no such attribute; [tensor_obs] is [Some] of
    the factors' references exactly when the operator is a [Tensor]. *)
Record Operator : Type := mkOperator {
  op_class : string;
  data : list pyval;
  wires : list nat;
  hyperparameters : gmap string Z;
  arithmetic_depth : nat;
  inverse : option bool;
  tensor_obs : option (list ref)
}.

Definition set_data (o : Operator) (d : list pyval) : Operator :=
  mkOperator (op_class o) d (wires o) (hyperparameters o)
             (arithmetic_depth o) (inverse o) (tensor_obs o).

Inductive ObservableReturnTypes : Type :=
| Sample | Counts | AllCounts | Variance | Expectation | Probability
| State | MidMeasure | VnEntropy | MutualInfo | Shadow | ShadowExpval.

#[global] Instance ObservableReturnTypes_eq_dec : EqDecision ObservableReturnTypes.
Proof. solve_decision. Defined.

(** The measurement classes [equal] distinguishes. *)
Inductive measurement_class : Type :=
| MeasurementProcess_cls
| _VnEntropy_cls
| _MutualInfo_cls
| _ShadowExpval_cls.

#[global] Instance measurement_class_eq_dec : EqDecision measurement_class.
Proof. solve_decision. Defined.

(** A measurement process.  [O] is how the observable is held: by value
    where the code only reads it ([equal]), by reference where the code
    copies and assigns ([convert_to_numpy_parameters]).  [eigvals] is the
    value of the [eigvals()] method; [log_base] belongs to the entropy
    classes, [shadow_H] (an identifier of the operand compared with [==])
    and [shadow_k] to [_ShadowExpval]. *)
Record MeasurementProcess (O : Type) : Type := mkMeasurementProcess {
  m_class : measurement_class;
  return_type : ObservableReturnTypes;
  obs : option O;
  m_wires : list nat;
  eigvals : option pyval;
  log_base : option Q;
  shadow_H : nat;
  shadow_k : nat
}.
Arguments mkMeasurementProcess {O}.
Arguments m_class {O}.
Arguments return_type {O}.
Arguments obs {O}.
Arguments m_wires {O}.
Arguments eigvals {O}.
Arguments log_base {O}.
Arguments shadow_H {O}.
Arguments shadow_k {O}.

(* ===================================================================== *)
(** ** [pennylane/ops/functions/equal.py] *)

(** The two kinds of argument [equal] accepts. *)
Inductive qobject : Type :=
| QOperator (o : Operator)
| QMeasurement (m : MeasurementProcess Operator).

Inductive pyclass : Type :=
| OperatorClass (name : string)
| MeasurementClass (c : measurement_class).

#[global] Instance pyclass_eq_dec : EqDecision pyclass.
Proof. solve_decision. Defined.

Definition type (x : qobject) : pyclass :=
  match x with
  | QOperator o => OperatorClass (op_class o)
  | QMeasurement m => MeasurementClass (m_class m)
  end.

(** Modelled from the spec: the class hierarchy, declared in
    [pennylane.operation] and [pennylane.measurements].  Operator classes
    are named by strings.  Which operator class derives from which is
    declared outside the modelled files, and user code adds subclasses
    (the tests derive [U3] from [qml.U3] and [Template] from
    [StronglyEntanglingLayers]), so the development is parametric in
    that relation: [operator_subclass c d] says that [c] is [d] or
    derives from it.  The entropy, mutual-information and
    shadow-expectation classes are sub-variants of [MeasurementProcess]. *)
Class Hierarchy : Type := {
  operator_subclass : string → string → bool;
  operator_subclass_refl : ∀ c, operator_subclass c c = true
}.

Definition issubclass `{HI : Hierarchy} (c d : pyclass) : bool :=
  match c, d with
  | OperatorClass n, OperatorClass n' => operator_subclass n n'
  | MeasurementClass _, MeasurementClass MeasurementProcess_cls => true
  | MeasurementClass a, MeasurementClass b => bool_decide (a = b)
  | _, _ => false
  end.

Definition isinstance `{HI : Hierarchy} (x : qobject) (c : pyclass) : bool :=
  issubclass (type x) c.

Definition default_rtol : Q := 1 # 100000.
Definition default_atol : Q := 1 # 1000000000.

Definition option_Q_eqb (a b : option Q) : bool :=
  match a, b with
  | None, None => true
  | Some x, Some y => Qeq_bool x y
  | _, _ => false
  end.

Section Equal.
Context `{MI : Math} `{HI : Hierarchy}.

Definition _equal_operator (op1 op2 : Operator)
    (check_interface check_trainability : bool) (rtol atol : Q) : result bool :=
  if negb (arithmetic_depth op1 =? arithmetic_depth op2)%nat then Ok false
  else if (0 <? arithmetic_depth op1)%nat then Raise NotImplementedError
  else if negb (forallb (λ d, allclose d.1 d.2 rtol atol) (zip (data op1) (data op2)))
    then Ok false
  else if negb (bool_decide (wires op1 = wires op2)) then Ok false
  else if negb (bool_decide (hyperparameters op1 = hyperparameters op2)) then Ok false
  else if check_trainability
            && existsb (λ p, negb (eqb (requires_grad p.1) (requires_grad p.2)))
                       (zip (data op1) (data op2))
    then Ok false
  else if check_interface
            && existsb (λ p, negb (String.eqb (get_interface [p.1]) (get_interface [p.2])))
                       (zip (data op1) (data op2))
    then Ok false
  else Ok (eqb (default false (inverse op1)) (default false (inverse op2))).

(** [equal] on two observables, as [_equal_measurements] calls it (with
    the default keyword arguments). *)
Definition equal_obs (o1 o2 : Operator) : result bool :=
  if negb (isinstance (QOperator o2) (type (QOperator o1))) then Ok false
  else _equal_operator o1 o2 true true default_rtol default_atol.

Definition _equal_measurements (op1 op2 : MeasurementProcess Operator) : result bool :=
  let return_types_match := bool_decide (return_type op1 = return_type op2) in
  result_bind
    (match obs op1, obs op2 with
     | Some o1, Some o2 => equal_obs o1 o2
     | None, None => Ok true
     | _, _ => Ok false
     end)
    (λ observables_match,
      let wires_match := bool_decide (m_wires op1 = m_wires op2) in
      let eigvals_match := allequal (eigvals op1) (eigvals op2) in
      Ok (return_types_match && observables_match && wires_match && eigvals_match)).

(** The handler registered for [_VnEntropy]. *)
Definition _equal_VnEntropy (op1 op2 : MeasurementProcess Operator) : result bool :=
  result_bind (_equal_measurements op1 op2)
    (λ eq_m,
      let log_base_match := option_Q_eqb (log_base op1) (log_base op2) in
      Ok (eq_m && log_base_match)).

(** The handler registered for [_MutualInfo]. *)
Definition _equal_MutualInfo (op1 op2 : MeasurementProcess Operator) : result bool :=
  result_bind (_equal_measurements op1 op2)
    (λ eq_m,
      let log_base_match := option_Q_eqb (log_base op1) (log_base op2) in
      Ok (eq_m && log_base_match)).

Definition _equal_shadow_measurements (op1 op2 : MeasurementProcess Operator) : result bool :=
  let return_types_match := bool_decide (return_type op1 = return_type op2) in
  let wires_match := bool_decide (m_wires op1 = m_wires op2) in
  let H_match := bool_decide (shadow_H op1 = shadow_H op2) in
  let k_match := bool_decide (shadow_k op1 = shadow_k op2) in
  Ok (return_types_match && wires_match && H_match && k_match).

(** The single dispatch of [_equal] on the class of its first argument.
    A handler that reads an attribute its second argument lacks raises
    [AttributeError]. *)
Definition _equal (op1 op2 : qobject)
    (check_interface check_trainability : bool) (rtol atol : Q) : result bool :=
  match op1 with
  | QOperator o1 =>
      match op2 with
      | QOperator o2 => _equal_operator o1 o2 check_interface check_trainability rtol atol
      | QMeasurement _ => Raise AttributeError
      end
  | QMeasurement m1 =>
      match op2 with
      | QOperator _ => Raise AttributeError
      | QMeasurement m2 =>
          match m_class m1 with
          | MeasurementProcess_cls => _equal_measurements m1 m2
          | _VnEntropy_cls => _equal_VnEntropy m1 m2
          | _MutualInfo_cls => _equal_MutualInfo m1 m2
          | _ShadowExpval_cls => _equal_shadow_measurements m1 m2
          end
      end
  end.

Definition equal (op1 op2 : qobject)
    (check_interface check_trainability : bool) (rtol atol : Q) : result bool :=
  if negb (isinstance op2 (type op1)) then Ok false
  else _equal op1 op2 check_interface check_trainability rtol atol.

End Equal.

(* ===================================================================== *)
(** ** The object store *)

Inductive object : Type :=
| ObjOperator (o : Operator)
| ObjMeasurement (m : MeasurementProcess ref).

(** The store holds every live object; a reference is a position in it.
    Objects are never freed, and a new object takes the next position. *)
Abbreviation store := (list object) (only parsing).

(** Computations that read and write the store and may raise. *)
Definition M (A : Type) : Type := store → result (A * store).

Definition ret {A} (a : A) : M A := λ s, Ok (a, s).

Definition bind {A B} (c : M A) (k : A → M B) : M B :=
  λ s, match c s with
       | Ok (a, s') => k a s'
       | Raise e => Raise e
       end.

Definition raise {A} (e : exn) : M A := λ _, Raise e.

Notation "x <- c ;; k" := (bind c (λ x, k))
  (at level 100, c at next level, right associativity).

Fixpoint mapM {A B} (f : A → M B) (l : list A) : M (list B) :=
  match l with
  | [] => ret []
  | x :: l' => y <- f x ;; ys <- mapM f l' ;; ret (y :: ys)
  end.

Fixpoint foldM {A S} (f : S → A → M S) (acc : S) (l : list A) : M S :=
  match l with
  | [] => ret acc
  | x :: l' => acc' <- f acc x ;; foldM f acc' l'
  end.

(** Reading the attributes of the operator behind a reference. *)
Definition load_op (r : ref) : M Operator :=
  λ s, match s !! r with
       | Some (ObjOperator o) => Ok (o, s)
       | Some (ObjMeasurement _) => Raise AttributeError
       | None => Raise Stuck
       end.

Definition load_meas (r : ref) : M (MeasurementProcess ref) :=
  λ s, match s !! r with
       | Some (ObjMeasurement m) => Ok (m, s)
       | Some (ObjOperator _) => Raise AttributeError
       | None => Raise Stuck
       end.

Definition alloc (x : object) : M ref :=
  λ s, Ok (length s, s ++ [x]).

(** [r.data = d]: assignment to the [data] attribute of the object behind
    [r]; every holder of [r] sees the new value. *)
Definition setattr_data (r : ref) (d : list pyval) : M unit :=
  λ s, match s !! r with
       | Some (ObjOperator o) => Ok (tt, <[r := ObjOperator (set_data o d)]> s)
       | Some (ObjMeasurement _) => Raise AttributeError
       | None => Raise Stuck
       end.

(** A measurement process with another observable. *)
Definition with_obs (m : MeasurementProcess ref) (m_obs : option ref)
    : MeasurementProcess ref :=
  mkMeasurementProcess (m_class m) (return_type m) m_obs (m_wires m) (eigvals m)
                       (log_base m) (shadow_H m) (shadow_k m).

(** Modelled from the spec: [copy.copy] on an operator or a measurement
    process (their [__copy__] is defined in [pennylane.operation] and
    [pennylane.measurements]).  The copy of an operator is the shallow
    copy the spec names: a new object whose attributes hold the same
    values and the same references as the original's, so that the copy
    of a [Tensor] names the factors of the original.  The copy of a
    measurement process is a new measurement process that holds such a
    copy of the observable: the spec has the observable itself copied
    where its data is unwrapped. *)
Definition copy (r : ref) : M ref :=
  λ s, match s !! r with
       | Some (ObjOperator o) => alloc (ObjOperator o) s
       | Some (ObjMeasurement m) =>
           match obs m with
           | None => alloc (ObjMeasurement m) s
           | Some m_obs =>
               (o <- load_op m_obs ;;
                copied_obs <- alloc (ObjOperator o) ;;
                alloc (ObjMeasurement (with_obs m (Some copied_obs)))) s
           end
       | None => Raise Stuck
       end.

(** Modelled from the spec: [qml.ops.functions.bind_new_parameters]
    constructs a new operation instance with the same wires and
    hyperparameters and the new data. *)
Definition bind_new_parameters (op : ref) (new_params : list pyval) : M ref :=
  o <- load_op op ;; alloc (ObjOperator (set_data o new_params)).

(* ===================================================================== *)
(** ** Quantum scripts (tapes) *)

Inductive Shots : Type :=
| ShotsNone
| ShotsInt (n : nat)
| ShotsVector (l : list nat).

Record QuantumScript : Type := mkQuantumScript {
  _ops : list ref;
  measurements : list ref;
  _prep : list ref;
  shots : Shots;
  trainable_params : list nat;
  _qfunc_output : option nat
}.

(** Modelled from the spec: the properties [prep] and [operations] of a
    tape, defined in [pennylane.tape]: the state-preparation prefix, and
    the state preparations followed by the gate operations. *)
Definition prep (tape : QuantumScript) : list ref := _prep tape.

Definition operations (tape : QuantumScript) : list ref := _prep tape ++ _ops tape.

(** Modelled from the spec: [get_parameters], defined in [pennylane.tape].
    The flattened parameter list concatenates, in order, the data of the
    state preparations and of the gate operations; with [trainable_only]
    it keeps the entries at the trainable indices. *)
Definition get_parameters (tape : QuantumScript) (trainable_only : bool) : M (list pyval) :=
  ds <- mapM (λ r, o <- load_op r ;; ret (data o)) (operations tape) ;;
  let params := concat ds in
  if trainable_only then
    mapM (λ i, match params !! i with
               | Some p => ret p
               | None => raise IndexError
               end) (trainable_params tape)
  else ret params.

(* ===================================================================== *)
(** ** [pennylane/transforms/convert_to_numpy_parameters.py] *)

Definition is_dict (v : pyval) : bool :=
  match v with
  | VDict _ => true
  | _ => false
  end.

Definition _is_count_result (r : pyval) : bool :=
  match r with
  | VDict _ => true
  | VList l => forallb is_dict l
  | _ => false
  end.

Section ConvertToNumpy.
Context `{MI : Math}.

(** One turn of the loop of [_recursive_asarray]: the entry appended to
    [res_] for the per-tape result [r]. *)
Definition _recursive_asarray_entry (r : pyval) (like : string) : pyval :=
  if _is_count_result r then r
  else match r with
       | VTuple items =>
           VTuple (map (λ r_i, if _is_count_result r_i then r_i
                               else asarray r_i like) items)
       | _ => asarray r like
       end.

Definition _recursive_asarray (res : list pyval) (like : string) : result pyval :=
  let res_ := map (λ r, _recursive_asarray_entry r like) res in
  if (1 <? length res_)%nat then Ok (VTuple res_)
  else match res_ with
       | x :: _ => Ok x
       | [] => Raise IndexError
       end.

Definition _convert_op_to_numpy_data (op : ref) : M ref :=
  o <- load_op op ;;
  if String.eqb (get_interface (data o)) "numpy" then ret op
  else
    copied_op <- copy op ;;
    _ <- setattr_data copied_op (unwrap (data o)) ;;
    ret copied_op.

(** In the [Tensor] branch the value assigned holds one entry per
    factor of the observable.  The class [Tensor] is declared outside the
    modelled files and the spec does not describe it: as in the other
    branch, the assignment is taken as one to the attribute [data] of the
    copied observable. *)
Definition _convert_measurement_to_numpy_data (m : ref) : M ref :=
  mp <- load_meas m ;;
  match obs mp with
  | None => ret m
  | Some m_obs =>
      o <- load_op m_obs ;;
      if String.eqb (get_interface (data o)) "numpy" then ret m
      else
        copied_m <- copy m ;;
        cmp <- load_meas copied_m ;;
        match obs cmp with
        | None => raise AttributeError
        | Some copied_m_obs =>
            co <- load_op copied_m_obs ;;
            _ <- match tensor_obs co with
                 | Some _ =>
                     mo <- load_op m_obs ;;
                     match tensor_obs mo with
                     | Some factors =>
                         ds <- mapM (λ f, fo <- load_op f ;; ret (VList (data fo))) factors ;;
                         setattr_data copied_m_obs (unwrap ds)
                     | None => raise AttributeError
                     end
                 | None =>
                     mo <- load_op m_obs ;;
                     setattr_data copied_m_obs (unwrap (data mo))
                 end ;;
            ret copied_m
        end
  end.

Definition cast_result_back_to_initial_interface
    (initial_interface : string) (results : list pyval) : result pyval :=
  _recursive_asarray results initial_interface.

(** The three generators are consumed by the constructor of the new
    circuit in the order preparations, operations, measurements; the
    assignments to [trainable_params] and [_qfunc_output] that follow
    give the record its final fields. *)
Definition convert_to_numpy_parameters (circuit : QuantumScript)
    : M (QuantumScript * (list pyval → result pyval)) :=
  all_parameters <- get_parameters circuit true ;;
  let initial_interface := get_interface all_parameters in
  new_prep <- mapM _convert_op_to_numpy_data (_prep circuit) ;;
  new_ops <- mapM _convert_op_to_numpy_data (_ops circuit) ;;
  new_measurements <- mapM _convert_measurement_to_numpy_data (measurements circuit) ;;
  let new_circuit :=
    mkQuantumScript new_ops new_measurements new_prep (shots circuit)
                    (trainable_params circuit) (_qfunc_output circuit) in
  ret (new_circuit, cast_result_back_to_initial_interface initial_interface).

End ConvertToNumpy.

(* ===================================================================== *)
(** ** [pennylane/transforms/batch_params.py] *)

(** [i in indices]. *)
Definition in_indices (i : nat) (indices : list nat) : bool :=
  existsb (Nat.eqb i) indices.

(** [params[i][b] if i in indices else params[i]]. *)
Definition sliced_param (params : list pyval) (indices : list nat) (b i : nat) : M pyval :=
  match params !! i with
  | None => raise IndexError
  | Some p =>
      if in_indices i indices then
        match getitem p b with
        | Some x => ret x
        | None => raise IndexError
        end
      else ret p
  end.

(** One turn of the loops over [tape.prep] and over [ops]: [acc] carries
    the running offset [idx] and the lists built so far, one per batch
    index. *)
Definition batch_step (params : list pyval) (indices : list nat) (batch_dim : nat)
    (acc : nat * list (list ref)) (op : ref) : M (nat * list (list ref)) :=
  let '(idx, new_ops) := acc in
  o <- load_op op ;;
  let rng := seq idx (length (data o)) in
  if existsb (λ i, in_indices i indices) rng then
    created <- mapM (λ b,
                 new_params <- mapM (sliced_param params indices b) rng ;;
                 bind_new_parameters op new_params) (seq 0 batch_dim) ;;
    ret (idx + length (data o), zip_with (λ l new_op, l ++ [new_op]) new_ops created)
  else
    ret (idx + length (data o), map (λ l, l ++ [op]) new_ops).

(** The check of one selected parameter against the batch dimension. *)
Definition check_batch_dim (params : list pyval) (batch_dim : nat) (i : nat) : M unit :=
  match params !! i with
  | None => raise IndexError
  | Some p =>
      match shape p with
      | [] => raise ValueError
      | d :: _ => if (d =? batch_dim)%nat then ret tt else raise ValueError
      end
  end.

(** The output tapes of [batch_params]; the function that stacks the
    numeric results of the tapes is left out.  Membership
    [op not in tape.prep] compares references. *)
Definition batch_params (tape : QuantumScript) (all_operations : bool) : M (list QuantumScript) :=
  params <- get_parameters tape false ;;
  let indices := if all_operations then seq 0 (length params) else trainable_params tape in
  match indices with
  | [] => raise ValueError
  | i0 :: _ =>
      batch_dim <- match params !! i0 with
                   | None => match params with
                             | [] => raise IndexError
                             | _ :: _ => raise ValueError
                             end
                   | Some p => match shape p with
                               | [] => raise ValueError
                               | d :: _ => ret d
                               end
                   end ;;
      _ <- mapM (check_batch_dim params batch_dim) indices ;;
      acc <- foldM (batch_step params indices batch_dim) (0, replicate batch_dim []) (prep tape) ;;
      let '(idx, new_preps) := acc in
      let ops := List.filter (λ op, negb (existsb (Nat.eqb op) (prep tape))) (operations tape) in
      acc' <- foldM (batch_step params indices batch_dim) (idx, replicate batch_dim []) ops ;;
      let '(_, new_ops) := acc' in
      ret (zip_with (λ prep ops,
                       mkQuantumScript ops (measurements tape) prep (shots tape)
                                       (trainable_params tape) None)
                    new_preps new_ops)
  end.

(* ===================================================================== *)
(** ** A model of [pennylane.math] *)

(** Modelled from the spec: the numeric interface of a value is the
    identifier of the backend that owns it; a container has the interface
    of its first item, and mappings and empty containers are plain
    numeric. *)
Fixpoint interface_of (v : pyval) : string :=
  match v with
  | VArray t => t_interface t
  | VDict _ => "numpy"
  | VList l | VTuple l =>
      match l with
      | [] => "numpy"
      | x :: _ => interface_of x
      end
  end.

(** Modelled from the spec: of several values, the interface of the first
    inspected one is canonical; no value at all is plain numeric. *)
Definition get_interface_model (values : list pyval) : string :=
  match values with
  | [] => "numpy"
  | v :: _ => interface_of v
  end.

Definition requires_grad_model (v : pyval) : bool :=
  match v with
  | VArray t => t_requires_grad t
  | _ => false
  end.

(** Modelled from the spec: two entries are close when they differ by at
    most [atol + rtol * |b|], entry by entry on arrays of one shape. *)
Fixpoint array_allclose (a b : ndarray) (rtol atol : Q) : bool :=
  match a, b with
  | Scalar x, Scalar y => Qle_bool (Qabs (x - y)) (atol + rtol * Qabs y)
  | Array xs, Array ys =>
      (fix go (xs ys : list ndarray) : bool :=
         match xs, ys with
         | [], [] => true
         | x :: xs', y :: ys' => array_allclose x y rtol atol && go xs' ys'
         | _, _ => false
         end) xs ys
  | _, _ => false
  end.

Definition allclose_model (a b : pyval) (rtol atol : Q) : bool :=
  match a, b with
  | VArray s, VArray t => array_allclose (t_value s) (t_value t) rtol atol
  | _, _ => false
  end.

Definition allequal_model (a b : option pyval) : bool :=
  match a, b with
  | None, None => true
  | Some x, Some y => allclose_model x y 0 0
  | _, _ => false
  end.

(** Modelled from the spec: unwrapping turns a value into plain numeric
    arrays, which are not trainable. *)
Fixpoint to_numpy (v : pyval) : pyval :=
  match v with
  | VArray t => VArray (mkTensor "numpy" false (t_value t))
  | VDict d => VDict d
  | VList l => VList (map to_numpy l)
  | VTuple l => VTuple (map to_numpy l)
  end.

Definition unwrap_model (values : list pyval) : list pyval := map to_numpy values.

(** Modelled from the spec: [asarray] wraps a value into one array of the
    requested interface; a mapping inside it becomes an entry of an
    object array. *)
Fixpoint to_ndarray (v : pyval) : ndarray :=
  match v with
  | VArray t => t_value t
  | VDict d => Object d
  | VList l => Array (map to_ndarray l)
  | VTuple l => Array (map to_ndarray l)
  end.

Definition asarray_model (v : pyval) (like : string) : pyval :=
  VArray (mkTensor like false (to_ndarray v)).

(** The hierarchy in which no operator class derives from another. *)
Definition flat_hierarchy : Hierarchy :=
  {| operator_subclass := λ c d, bool_decide (c = d);
     operator_subclass_refl := λ c, bool_decide_eq_true_2 (c = c) eq_refl |}.

(** The hierarchy of the tests: the class [Template] derives from
    [StronglyEntanglingLayers], and no other class derives from
    another. *)
Definition tests_hierarchy : Hierarchy :=
  {| operator_subclass := λ c d,
       bool_decide (c = d)
       || bool_decide (c = "Template" ∧ d = "StronglyEntanglingLayers");
     operator_subclass_refl := λ c,
       orb_true_intro _ _ (or_introl (bool_decide_eq_true_2 (c = c) eq_refl)) |}.

Definition math_model : Math :=
  {| get_interface := get_interface_model;
     requires_grad := requires_grad_model;
     allclose := allclose_model;
     allequal := allequal_model;
     unwrap := unwrap_model;
     asarray := asarray_model |}.


(* ===================================================================== *)
(** ** Predicates used in the statements *)

(** The value reached from [v] by indexing tuples along [path]. *)
Fixpoint subvalue_at (path : list nat) (v : pyval) : option pyval :=
  match path with
  | [] => Some v
  | i :: path' =>
      match v with
      | VTuple l =>
          match l !! i with
          | Some x => subvalue_at path' x
          | None => None
          end
      | _ => None
      end
  end.

Definition is_op (s : store) (r : ref) : bool :=
  match s !! r with
  | Some (ObjOperator _) => true
  | _ => false
  end.

(** An observable is an operator; the factors of a [Tensor] are operators. *)
Definition obs_ok (s : store) (r : ref) : bool :=
  match s !! r with
  | Some (ObjOperator o) =>
      match tensor_obs o with
      | Some factors => forallb (is_op s) factors
      | None => true
      end
  | _ => false
  end.

Definition is_meas (s : store) (r : ref) : bool :=
  match s !! r with
  | Some (ObjMeasurement m) =>
      match obs m with
      | Some m_obs => obs_ok s m_obs
      | None => true
      end
  | _ => false
  end.

(** The [data] attribute of the operator behind [r]. *)
Definition data_at (s : store) (r : ref) : list pyval :=
  match s !! r with
  | Some (ObjOperator o) => data o
  | _ => []
  end.

(** The flattened parameter list of a tape in a store. *)
Definition all_params (s : store) (tape : QuantumScript) : list pyval :=
  concat (map (data_at s) (operations tape)).

(** The references of a tape name objects of the right kind, and, as the
    setter of [trainable_params] enforces, every trainable index is a
    position of the flattened parameter list. *)
Definition operations_ok (s : store) (tape : QuantumScript) : bool :=
  forallb (is_op s) (operations tape).

Definition measurements_ok (s : store) (tape : QuantumScript) : bool :=
  forallb (is_meas s) (measurements tape).

Definition trainable_ok (s : store) (tape : QuantumScript) : bool :=
  forallb (λ i, i <? length (all_params s tape))%nat (trainable_params tape).

Definition well_formed (s : store) (tape : QuantumScript) : bool :=
  operations_ok s tape && measurements_ok s tape && trainable_ok s tape.

(** The indices [batch_params] selects. *)
Definition selected_indices (s : store) (tape : QuantumScript) (all_operations : bool)
    : list nat :=
  if all_operations then seq 0 (length (all_params s tape)) else trainable_params tape.

(** The data of the observable of the measurement behind [m], if any. *)
Definition obs_data_at (s : store) (m : ref) : option (list pyval) :=
  match s !! m with
  | Some (ObjMeasurement mp) =>
      match obs mp with
      | Some m_obs => Some (data_at s m_obs)
      | None => None
      end
  | _ => None
  end.

Section StorePredicates.
Context `{MI : Math}.

(** The operator behind [r] has plain numpy data. *)
Definition numpy_op (s : store) (r : ref) : Prop :=
  ∃ o, s !! r = Some (ObjOperator o) ∧ get_interface (data o) = "numpy".

(** The measurement behind [r] has no observable, or one with plain numpy
    data. *)
Definition numpy_meas (s : store) (r : ref) : Prop :=
  ∃ m, s !! r = Some (ObjMeasurement m)
       ∧ match obs m with
         | None => True
         | Some m_obs => numpy_op s m_obs
         end.

(** How a store changes while [convert_to_numpy_parameters] runs: the
    objects present stay as they are, and objects are added. *)
Definition evolves (s s' : store) : Prop :=
  ∀ r x, s !! r = Some x → s' !! r = Some x.

End StorePredicates.

(** The leading dimension of a parameter, if it has any dimension. *)
Definition leading_dim (p : pyval) : option nat := head (shape p).

(** What every output tape of [batch_params] shares with the input. *)
Definition keeps_metadata (tape t : QuantumScript) : Prop :=
  trainable_params t = trainable_params tape
  ∧ shots t = shots tape
  ∧ measurements t = measurements tape.

(* ===================================================================== *)
(** ** Predicates on the tapes of [batch_params] *)

(** The operations of a tape in the order [batch_params] walks them: the
    state preparations, then the operations that are not among them. *)
Definition batch_walk (tape : QuantumScript) : list ref :=
  prep tape
  ++ List.filter (λ op, negb (existsb (Nat.eqb op) (prep tape))) (operations tape).

(** The position, in the flattened parameter list, of the first parameter
    of the [j]-th operation of the walk [l]. *)
Definition offset_in (s : store) (l : list ref) (j : nat) : nat :=
  length (concat (take j (map (data_at s) l))).

(** What the entry [e] of the output tape for the batch index [b] is, for
    the operation [r] of the input tape with attributes [o] whose
    parameters start at [start]: the reference [r] itself when none of its
    parameters is selected; otherwise a reference to an object added to
    the store, equal to [o] but for its data, in which a selected
    parameter is replaced by its [b]-th slice. *)
Definition batch_entry (params : list pyval) (indices : list nat) (s s' : store)
    (b start : nat) (r : ref) (o : Operator) (e : option ref) : Prop :=
  if existsb (λ i, in_indices i indices) (seq start (length (data o))) then
    ∃ r' xs,
      e = Some r'
      ∧ (length s ≤ r')%nat
      ∧ s' !! r' = Some (ObjOperator (set_data o xs))
      ∧ length xs = length (data o)
      ∧ ∀ k, (k < length (data o))%nat →
          ∃ p, params !! (start + k)%nat = Some p
               ∧ xs !! k = (if in_indices (start + k) indices then getitem p b else Some p)
  else e = Some r.

(** A computation that only adds objects at the end of the store. *)
Definition grows {A} (c : M A) : Prop :=
  ∀ s a s', c s = Ok (a, s') → s `prefix_of` s'.

(* ===================================================================== *)
(** ** Predicates on the arguments of [equal] *)



(* ===================================================================== *)
(** ** The post-processing of [batch_params]: [_nested_stack] *)

(** Exceptions of the post-processing function: those of [exn], and the
    [KeyError] of indexing a counts dictionary by a position. *)
Inductive post_exn : Type :=
| PostExn (e : exn)
| KeyError.

Inductive outcome (A : Type) : Type :=
| Returns (a : A)
| Throws (e : post_exn).
Arguments Returns {A} a.
Arguments Throws {A} e.

Definition outcome_bind {A B} (r : outcome A) (k : A → outcome B) : outcome B :=
  match r with
  | Returns a => k a
  | Throws e => Throws e
  end.

(** [[f(x) for x in l]], stopping at the first exception. *)
Fixpoint outcome_map {A B} (f : A → outcome B) (l : list A) : outcome (list B) :=
  match l with
  | [] => Returns []
  | x :: rest =>
      outcome_bind (f x) (λ y,
      outcome_bind (outcome_map f rest) (λ ys, Returns (y :: ys)))
  end.

(** [r[i]] on one result of a batch: the item of a tuple or list, the
    slice of an array, and [KeyError] on a counts dictionary (whose keys
    are strings). *)
Definition item (r : pyval) (i : nat) : outcome pyval :=
  match r with
  | VDict _ => Throws KeyError
  | _ => match getitem r i with
         | Some x => Returns x
         | None => Throws (PostExn IndexError)
         end
  end.

(** [isinstance(v, tuple)].  The boxes of autograd, which the source
    admits beside tuples, are not values of the model. *)
Definition is_tuple (v : pyval) : bool :=
  match v with
  | VTuple _ => true
  | _ => false
  end.

Section NestedStack.

(** [qml.math.stack], defined outside the modelled files. *)
Variable stack : list pyval → outcome pyval.

(** [[r[i] for r in res]]. *)
Definition column (res : list pyval) (i : nat) : outcome (list pyval) :=
  outcome_map (λ r, item r i) res.

(** The body of [_nested_stack] once [res[0]] has been read: [first] is
    [res[0]].  The recursive call on the [i]-th column has as its own
    [res[0]] the [i]-th item of [first], which makes the recursion
    structural in [first]; [_nested_stack_unfold] below recovers the
    recursion of the source. *)
Fixpoint _nested_stack_from (first : pyval) (res : list pyval) : outcome pyval :=
  match first with
  | VTuple items =>
      outcome_bind
        ((fix loop (items : list pyval) (i : nat) : outcome (list pyval) :=
            match items with
            | [] => Returns []
            | x :: rest =>
                outcome_bind (column res i) (λ col,
                outcome_bind (_nested_stack_from x col) (λ y,
                outcome_bind (loop rest (S i)) (λ ys, Returns (y :: ys))))
            end) items 0%nat)
        (λ stacked_results, Returns (VTuple stacked_results))
  | _ => stack res
  end.

Definition _nested_stack (res : list pyval) : outcome pyval :=
  match res with
  | [] => Throws (PostExn IndexError)
  | first :: _ => _nested_stack_from first res
  end.

(** The function [batch_params] returns beside the tapes;
    [active_return] is the value [qml.active_return()] has when the
    function is called, and [squeeze] is [qml.math.squeeze]. *)
Definition processing_fn (squeeze : pyval → outcome pyval) (active_return : bool)
    (res : list pyval) : outcome pyval :=
  if active_return then _nested_stack res
  else outcome_bind (stack res) squeeze.

End NestedStack.

(** The value at a position of a nested result, following [r[i]]. *)
Fixpoint at_path (v : pyval) (p : list nat) : option pyval :=
  match p with
  | [] => Some v
  | i :: p' =>
      match item v i with
      | Returns x => at_path x p'
      | Throws _ => None
      end
  end.

(** The same, through tuples only: the positions [_nested_stack] visits
    in [res[0]]. *)
Fixpoint tuple_path (v : pyval) (p : list nat) : option pyval :=
  match p with
  | [] => Some v
  | i :: p' =>
      match v with
      | VTuple items => x ← items !! i; tuple_path x p'
      | _ => None
      end
  end.

(** A result cut to its first [n] items, if it is a tuple. *)
Definition truncate (n : nat) (r : pyval) : pyval :=
  match r with
  | VTuple items => VTuple (take n items)
  | _ => r
  end.

(* ===================================================================== *)
(** ** The transform program
    ([pennylane/transforms/experimental/transforms.py]) *)

Section TransformProgram.

(** The kinds of values a [Transform] stores; the program never looks
    into them. *)
Variables Fn Args Kwargs ExpandFn Processing : Type.

Record Transform : Type := mkTransform {
  transform_fn : Fn;
  targs : Args;
  tkwargs : Kwargs;
  expand_fn : ExpandFn;
  qnode_processing : Processing
}.

(** A [TransformProgram] is its list [_transform_program]; [__init__]
    starts from the empty list. *)
Definition TransformProgram : Type := list Transform.

Definition TransformProgram_init : TransformProgram := [].

(** [push]: [self._transform_program.append(transform)]. *)
Definition push (program : TransformProgram) (transform : Transform) : TransformProgram :=
  program ++ [transform].

(** [pop]: [self._transform_program.pop(0)], which raises [IndexError] on
    an empty list, and the five attributes of the transform taken out. *)
Definition pop (program : TransformProgram)
    : result ((Fn * Args * Kwargs * ExpandFn * Processing) * TransformProgram) :=
  match program with
  | [] => Raise IndexError
  | transform :: rest =>
      Ok ((transform_fn transform, targs transform, tkwargs transform,
           expand_fn transform, qnode_processing transform), rest)
  end.

(** [n] calls of [pop] in a row, collecting what they return. *)
Fixpoint pop_many (n : nat) (program : TransformProgram)
    : result (list (Fn * Args * Kwargs * ExpandFn * Processing) * TransformProgram) :=
  match n with
  | O => Ok ([], program)
  | S n' =>
      result_bind (pop program) (λ '(x, program'),
      result_bind (pop_many n' program') (λ '(xs, program''),
      Ok (x :: xs, program'')))
  end.

(** The tuple [pop] returns for a transform. *)
Definition as_tuple (t : Transform) : Fn * Args * Kwargs * ExpandFn * Processing :=
  (transform_fn t, targs t, tkwargs t, expand_fn t, qnode_processing t).

End TransformProgram.

Arguments mkTransform {Fn Args Kwargs ExpandFn Processing}.
Arguments transform_fn {Fn Args Kwargs ExpandFn Processing}.
Arguments targs {Fn Args Kwargs ExpandFn Processing}.
Arguments tkwargs {Fn Args Kwargs ExpandFn Processing}.
Arguments expand_fn {Fn Args Kwargs ExpandFn Processing}.
Arguments qnode_processing {Fn Args Kwargs ExpandFn Processing}.
Arguments TransformProgram_init {Fn Args Kwargs ExpandFn Processing}.
Arguments push {Fn Args Kwargs ExpandFn Processing}.
Arguments pop {Fn Args Kwargs ExpandFn Processing}.
Arguments pop_many {Fn Args Kwargs ExpandFn Processing}.
Arguments as_tuple {Fn Args Kwargs ExpandFn Processing}.

(* ===================================================================== *)
(** ** The decomposition of [QSVT]
    ([pennylane/templates/subroutines/qsvt.py]) *)

Module QSVT.
Section Decomposition.

(** Operators, and [adjoint] from [pennylane.ops.op_math]. *)
Variable Op : Type.
Variable adjoint : Op → Op.

(** The loop of both branches,
    [for idx, op in enumerate(projectors)], from the index [idx] on. *)
Fixpoint enumerate_loop (U_A : Op) (idx : nat) (projectors : list Op) : list Op :=
  match projectors with
  | [] => []
  | op :: rest =>
      (if (idx mod 2 =? 0)%nat then U_A else adjoint U_A)
        :: op :: enumerate_loop U_A (S idx) rest
  end.

(** [compute_decomposition]; [self] and [wires] are not read.
    [lst_projectors[-1]] raises [IndexError] on an empty list. *)
Definition compute_decomposition (U_A : Op) (lst_projectors : list Op)
    : result (list Op) :=
  if (length lst_projectors mod 2 =? 0)%nat then
    Ok (enumerate_loop U_A 0 lst_projectors)
  else
    match last lst_projectors with
    | Some final =>
        Ok (enumerate_loop U_A 0 (take (length lst_projectors - 1) lst_projectors)
            ++ [U_A; final])
    | None => Raise IndexError
    end.

End Decomposition.
End QSVT.

(* ===================================================================== *)
(** ** [BasisStatePreparation]
    ([pennylane/templates/state_preparations/basis.py]) *)

Module BasisStatePreparation.

(** The operators the decomposition builds; angles are in units of pi. *)
Inductive gate : Type :=
| PauliX (wire : nat)
| PhaseShift (phi : Q) (wire : nat)
| RX (phi : Q) (wire : nat).

(** [bit not in [0, 1]] on an entry of a state. *)
Definition not_a_bit (bit : ndarray) : bool :=
  match bit with
  | Scalar x => negb (Qeq_bool x 0 || Qeq_bool x 1)
  | _ => true
  end.

(** The entries an iteration over an array yields. *)
Definition entries (a : ndarray) : list ndarray :=
  match a with
  | Array items => items
  | _ => []
  end.

(** The body of the loop of [__init__] for one state of the batch. *)
Definition check_state (is_abstract : bool) (n_wires : nat) (state : ndarray)
    : result unit :=
  let shape := array_shape state in
  if negb (length shape =? 1)%nat then Raise ValueError
  else
    let n_bits := hd 0%nat shape in
    if negb (n_bits =? n_wires)%nat then Raise ValueError
    else if negb is_abstract && existsb not_a_bit (entries state) then Raise ValueError
    else Ok tt.

Fixpoint check_states (is_abstract : bool) (n_wires : nat) (state_batch : list ndarray)
    : result unit :=
  match state_batch with
  | [] => Ok tt
  | state :: rest =>
      result_bind (check_state is_abstract n_wires state)
        (λ _, check_states is_abstract n_wires rest)
  end.

(** The checks of [__init__], on the stacked [basis_state], up to the
    call of the constructor of [Operation]; [is_abstract] is the answer
    of [qml.math.is_abstract] on the states. *)
Definition __init__ (is_abstract : bool) (basis_state : ndarray) (wires : list nat)
    : result unit :=
  let batched := (1 <? length (array_shape basis_state))%nat in
  let state_batch := if batched then entries basis_state else [basis_state] in
  check_states is_abstract (length wires) state_batch.

(** [compute_decomposition] on a one-dimensional [basis_state]. *)
Definition compute_decomposition (is_abstract : bool) (basis_state : list Q)
    (wires : list nat) : list gate :=
  if negb is_abstract then
    flat_map (λ '(wire, state), if Qeq_bool state 1 then [PauliX wire] else [])
      (zip wires basis_state)
  else
    flat_map (λ '(wire, state),
                [PhaseShift (state * (1 # 2)) wire; RX state wire;
                 PhaseShift (state * (1 # 2)) wire])
      (zip wires basis_state).

(** How many [PauliX] gates a list of gates has on a wire. *)
Definition count_PauliX (w : nat) (gates : list gate) : nat :=
  length (List.filter (λ g, match g with
                            | PauliX w' => (w' =? w)%nat
                            | _ => false
                            end) gates).

End BasisStatePreparation.

(* ===================================================================== *)
(** ** The derivative methods of the device interface
    ([pennylane/devices/experimental/device_api.py]) *)

Module DeviceApi.

(** Modelled from the spec: the two fields of an execution configuration
    that [supports_derivatives] reads. *)
Record ExecutionConfig : Type := mkExecutionConfig {
  gradient_method : string;
  derivative_order : Z
}.

Section Device.
Variables Circuits Results Derivatives : Type.

(** A device class that inherits [supports_derivatives] and
    [execute_and_compute_derivatives] from [Device]: its [execute], which
    every device defines, and its own [compute_derivatives], if it
    overrides the one of [Device]. *)
Record Device : Type := mkDevice {
  execute : Circuits → ExecutionConfig → result Results;
  own_compute_derivatives : option (Circuits → ExecutionConfig → result Derivatives)
}.

(** [type(self).compute_derivatives != Device.compute_derivatives]. *)
Definition overrides_compute_derivatives (self : Device) : bool :=
  match own_compute_derivatives self with
  | Some _ => true
  | None => false
  end.

Definition compute_derivatives (self : Device) (circuits : Circuits)
    (execution_config : ExecutionConfig) : result Derivatives :=
  match own_compute_derivatives self with
  | Some f => f circuits execution_config
  | None => Raise NotImplementedError
  end.

Definition supports_derivatives (self : Device)
    (execution_config : option ExecutionConfig) : bool :=
  match execution_config with
  | None => overrides_compute_derivatives self
  | Some config =>
      if negb (String.eqb (gradient_method config) "device")
         || negb (derivative_order config =? 1)%Z
      then false
      else overrides_compute_derivatives self
  end.

(** The tuple is built left to right: [execute] runs first. *)
Definition execute_and_compute_derivatives (self : Device) (circuits : Circuits)
    (execution_config : ExecutionConfig) : result (Results * Derivatives) :=
  result_bind (execute self circuits execution_config) (λ res,
  result_bind (compute_derivatives self circuits execution_config) (λ jac,
  Ok (res, jac))).

End Device.

Arguments mkDevice {Circuits Results Derivatives}.
Arguments execute {Circuits Results Derivatives}.
Arguments own_compute_derivatives {Circuits Results Derivatives}.
Arguments overrides_compute_derivatives {Circuits Results Derivatives}.
Arguments compute_derivatives {Circuits Results Derivatives}.
Arguments supports_derivatives {Circuits Results Derivatives}.
Arguments execute_and_compute_derivatives {Circuits Results Derivatives}.

End DeviceApi.
(* ===================================================================== *)
(** ** Concrete operators and measurements used in the examples *)

Definition np_scalar (x : Q) : pyval := VArray (mkTensor "numpy" false (Scalar x)).

Definition torch_scalar (x : Q) : pyval := VArray (mkTensor "torch" true (Scalar x)).

Definition leaf_op (name : string) (d : list pyval) (w : list nat) : Operator :=
  mkOperator name d w ∅ 0 None None.

Definition composite_op (name : string) (depth : nat) (w : list nat) : Operator :=
  mkOperator name [] w ∅ depth None None.

(** [MeasurementProcess(VnEntropy, wires=[0])] and [_VnEntropy(wires=[0])]. *)
Definition plain_entropy_measurement : MeasurementProcess Operator :=
  mkMeasurementProcess MeasurementProcess_cls VnEntropy None [0%nat] None None 0 0.

Definition vn_entropy_measurement : MeasurementProcess Operator :=
  mkMeasurementProcess _VnEntropy_cls VnEntropy None [0%nat] None None 0 0.

Definition torch_array (a : ndarray) : pyval := VArray (mkTensor "torch" true a).

Definition np_array (a : ndarray) : pyval := VArray (mkTensor "numpy" false a).

Definition eye2 : ndarray :=
  Array [Array [Scalar 1; Scalar 0]; Array [Scalar 0; Scalar 1]].

Definition measurement_of (rt : ObservableReturnTypes) (o : option nat) (w : list nat)
    : MeasurementProcess nat :=
  mkMeasurementProcess MeasurementProcess_cls rt o w None None 0 0.

(** The circuit of the unit test of [convert_to_numpy_parameters]:
    [prep = [QubitStateVector(state, 0)]],
    [ops = [RX(x, 0), RY(y, 1), CNOT((0, 1)), RZ(0.62, 0)]] and
    [m = [state(), expval(Hermitian(M, 0))]], with [x], [y], [M] and
    [state] torch tensors.  The store holds, in this order, the five
    operators, the observable and the two measurements. *)
Definition torch_store : list object :=
  [ ObjOperator (leaf_op "QubitStateVector" [torch_array (Array [Scalar 1; Scalar 0])] [0%nat]);
    ObjOperator (leaf_op "RX" [torch_scalar (617 # 500)] [0%nat]);
    ObjOperator (leaf_op "RY" [torch_scalar (163 # 250)] [1%nat]);
    ObjOperator (leaf_op "CNOT" [] [0%nat; 1%nat]);
    ObjOperator (leaf_op "RZ" [np_scalar (31 # 50)] [0%nat]);
    ObjOperator (leaf_op "Hermitian" [torch_array eye2] [0%nat]);
    ObjMeasurement (measurement_of State None []);
    ObjMeasurement (measurement_of Expectation (Some 5%nat) [0%nat]) ].

Definition torch_circuit : QuantumScript :=
  mkQuantumScript [1; 2; 3; 4]%nat [6; 7]%nat [0%nat] ShotsNone [1; 2]%nat None.

(** The result of one tape run with a shot vector of two entries that
    measures counts and an expectation value: a tuple, one entry per shot
    setting, of tuples, one entry per measurement. *)
Definition shot_vector_result : pyval :=
  VTuple [ VTuple [VDict [("0", 4%nat); ("1", 6%nat)]; np_scalar (1 # 5)];
           VTuple [VDict [("0", 9%nat); ("1", 11%nat)]; np_scalar (1 # 10)] ].

(** The result of one tape that measures counts and an expectation value. *)
Definition counts_and_expval_result : pyval :=
  VTuple [VDict [("0", 4%nat); ("1", 6%nat)]; np_scalar (1 # 5)].

(** The tape of the scenario: two gate operations, the first with a
    scalar parameter [p1], the second with a parameter [p2] of shape
    [(3,)], and one expectation-value measurement.  The store holds the
    two gates, the observable and the measurement. *)
Definition scalar_param (i : string) (g : bool) (x : Q) : pyval :=
  VArray (mkTensor i g (Scalar x)).

Definition vector3_param (i : string) (g : bool) (y0 y1 y2 : Q) : pyval :=
  VArray (mkTensor i g (Array [Scalar y0; Scalar y1; Scalar y2])).

Definition scenario_store (op1 op2 observable : Operator) (w : list nat)
    (p1 p2 : pyval) : list object :=
  [ ObjOperator (set_data op1 [p1]);
    ObjOperator (set_data op2 [p2]);
    ObjOperator observable;
    ObjMeasurement (measurement_of Expectation (Some 2%nat) w) ].

Definition scenario_tape (sh : Shots) (trainable : list nat) : QuantumScript :=
  mkQuantumScript [0; 1]%nat [3%nat] [] sh trainable None.

(** [RX(0.1, 0)], [RY([0.2, 0.3, 0.4], 1)] and [expval(PauliZ(0))]. *)
Definition rx_ry_store : list object :=
  scenario_store (leaf_op "RX" [] [0%nat]) (leaf_op "RY" [] [1%nat])
                 (leaf_op "PauliZ" [] [0%nat]) [0%nat]
                 (scalar_param "numpy" false (1 # 10))
                 (vector3_param "numpy" false (1 # 5) (3 # 10) (2 # 5)).

(** A circuit that is in the plain numpy interface already:
    [ops = [RZ(0.62, 0), CNOT((0, 1))]] and [m = [expval(PauliZ(0))]]. *)
Definition numpy_store : list object :=
  [ ObjOperator (leaf_op "RZ" [np_scalar (31 # 50)] [0%nat]);
    ObjOperator (leaf_op "CNOT" [] [0%nat; 1%nat]);
    ObjOperator (leaf_op "PauliZ" [] [0%nat]);
    ObjMeasurement (measurement_of Expectation (Some 2%nat) [0%nat]) ].

Definition numpy_circuit : QuantumScript :=
  mkQuantumScript [0; 1]%nat [3%nat] [] (ShotsInt 100) [0%nat] None.


(** Modelled from the spec: stacking a batch of results gives one array
    with a leading batch dimension; there is nothing to stack in an empty
    batch. *)
Definition stack_model (l : list pyval) : outcome pyval :=
  match l with
  | [] => Throws (PostExn ValueError)
  | _ => Returns (np_array (Array (map to_ndarray l)))
  end.

(** The results of a batch of two tapes, each measuring an expectation
    value and the probabilities of one wire. *)
Definition expval_and_probs_batch : list pyval :=
  [ VTuple [np_scalar (1 # 2); np_array (Array [Scalar (3 # 4); Scalar (1 # 4)])];
    VTuple [np_scalar (1 # 3); np_array (Array [Scalar (2 # 3); Scalar (1 # 3)])] ].
(* ===================================================================== *)
(** ** Properties of [equal] *)


Section EqualFacts.
Context `{MI : Math} `{HI : Hierarchy}.

Lemma isinstance_same_operator_class (o1 o2 : Operator) :
  op_class o1 = op_class o2 →
  isinstance (QOperator o2) (type (QOperator o1)) = true.
Proof.
  intros Hc. unfold isinstance, type, issubclass.
  rewrite Hc. apply operator_subclass_refl.
Qed.

Lemma equal_same_operator_class (o1 o2 : Operator) ci ct rtol atol :
  op_class o1 = op_class o2 →
  equal (QOperator o1) (QOperator o2) ci ct rtol atol
  = _equal_operator o1 o2 ci ct rtol atol.
Proof.
  intros Hc. unfold equal.
  rewrite (isinstance_same_operator_class _ _ Hc). reflexivity.
Qed.


Lemma isinstance_measurement_variants (m1 m2 : MeasurementProcess Operator) :
  isinstance (QMeasurement m2) (type (QMeasurement m1)) = false
  ↔ m_class m1 ≠ MeasurementProcess_cls ∧ m_class m2 ≠ m_class m1.
Proof.
  unfold isinstance, type, issubclass.
  destruct (m_class m1), (m_class m2); simpl; split;
    try discriminate; try (intros [? ?]; congruence); try (intros _; split; congruence).
Qed.

End EqualFacts.

(** C2, as stated, fails: a plain [MeasurementProcess] as first argument
    and a [_VnEntropy] with the same return type, wires, observable and
    eigenvalues as second argument are of different classes, yet [equal]
    answers [True]. *)
Lemma equal_distinct_variants_counterexample :
  type (QMeasurement plain_entropy_measurement) ≠ type (QMeasurement vn_entropy_measurement)
  ∧ equal (MI := math_model) (HI := flat_hierarchy) (QMeasurement plain_entropy_measurement)
          (QMeasurement vn_entropy_measurement) true true default_rtol default_atol
    = Ok true.
Proof. split; [discriminate | reflexivity]. Qed.

(** C2, amended: whenever the second argument is not an instance of the
    class of the first (its class is neither that class nor one of its
    sub-variants), [equal] answers [False], whatever the tolerances, the
    flags, the data of the two arguments and the numeric functions are. *)
Theorem equal_rejects_non_instances `{MI : Math} `{HI : Hierarchy} (a b : qobject)
    (check_interface check_trainability : bool) (rtol atol : Q) :
  isinstance b (type a) = false →
  equal a b check_interface check_trainability rtol atol = Ok false.
Proof.
  intros Hi. unfold equal. rewrite Hi. reflexivity.
Qed.

(** An operator as second argument after a [_VnEntropy] measurement. *)
Lemma equal_rejects_non_instances_witness :
  isinstance (HI := flat_hierarchy) (QOperator (leaf_op "RX" [np_scalar 1] [0%nat]))
             (type (QMeasurement vn_entropy_measurement)) = false
  ∧ equal (MI := math_model) (HI := flat_hierarchy) (QMeasurement vn_entropy_measurement)
          (QOperator (leaf_op "RX" [np_scalar 1] [0%nat])) true true default_rtol default_atol
    = Ok false.
Proof.
  split; [reflexivity |].
  apply (equal_rejects_non_instances (MI := math_model) (HI := flat_hierarchy)). reflexivity.
Defined.




(** C9, as stated, fails: two [Sum] operators of depths 1 and 2 both have
    an arithmetic depth greater than zero, yet [equal] raises nothing: it
    answers [False], because the depths are compared first. *)
Lemma equal_arithmetic_depth_counterexample :
  op_class (composite_op "Sum" 1 [0%nat]) = op_class (composite_op "Sum" 2 [0%nat])
  ∧ (0 < arithmetic_depth (composite_op "Sum" 1 [0%nat]))%nat
  ∧ (0 < arithmetic_depth (composite_op "Sum" 2 [0%nat]))%nat
  ∧ equal (MI := math_model) (HI := flat_hierarchy)
      (QOperator (composite_op "Sum" 1 [0%nat]))
      (QOperator (composite_op "Sum" 2 [0%nat])) true true default_rtol default_atol
    ≠ Raise NotImplementedError.
Proof.
  split; [reflexivity |]. split; [simpl; lia |]. split; [simpl; lia |].
  vm_compute. discriminate.
Qed.

(** C9, amended: for two operators of the same class, [equal] answers
    [False] when their arithmetic depths differ, also when both are
    greater than zero; when the depths agree and are greater than zero it
    raises [NotImplementedError] and returns no boolean. *)
Theorem equal_arithmetic_depth `{MI : Math} `{HI : Hierarchy} (o1 o2 : Operator)
    (check_interface check_trainability : bool) (rtol atol : Q) :
  op_class o1 = op_class o2 →
  (arithmetic_depth o1 ≠ arithmetic_depth o2 →
   equal (QOperator o1) (QOperator o2) check_interface check_trainability rtol atol
   = Ok false)
  ∧ (arithmetic_depth o1 = arithmetic_depth o2 →
     (0 < arithmetic_depth o1)%nat →
     equal (QOperator o1) (QOperator o2) check_interface check_trainability rtol atol
     = Raise NotImplementedError).
Proof.
  intros Hc. rewrite (equal_same_operator_class _ _ _ _ _ _ Hc).
  unfold _equal_operator. split.
  - intros Hne. apply Nat.eqb_neq in Hne. rewrite Hne. reflexivity.
  - intros Heq Hpos. apply Nat.eqb_eq in Heq. rewrite Heq. simpl.
    apply Nat.ltb_lt in Hpos. rewrite Hpos. reflexivity.
Qed.

(** Two [Sum] operators of depths 1 and 2, and two of depth 1. *)
Lemma equal_arithmetic_depth_witness :
  equal (MI := math_model) (HI := flat_hierarchy) (QOperator (composite_op "Sum" 1 [0%nat]))
        (QOperator (composite_op "Sum" 2 [0%nat])) true true default_rtol default_atol
  = Ok false
  ∧ equal (MI := math_model) (HI := flat_hierarchy) (QOperator (composite_op "Sum" 1 [0%nat]))
          (QOperator (composite_op "Sum" 1 [0%nat])) true true default_rtol default_atol
    = Raise NotImplementedError.
Proof.
  split.
  - apply (equal_arithmetic_depth (MI := math_model) (HI := flat_hierarchy)
             (composite_op "Sum" 1 [0%nat]) (composite_op "Sum" 2 [0%nat])
             true true default_rtol default_atol eq_refl).
    simpl. lia.
  - apply (equal_arithmetic_depth (MI := math_model) (HI := flat_hierarchy)
             (composite_op "Sum" 1 [0%nat]) (composite_op "Sum" 1 [0%nat])
             true true default_rtol default_atol eq_refl).
    + reflexivity.
    + simpl. lia.
Defined.

(* ===================================================================== *)
(** ** Running computations on the store *)

Lemma bind_ok {A B} (c : M A) (k : A → M B) (s s1 : store) (a : A) :
  c s = Ok (a, s1) → bind c k s = k a s1.
Proof. intros H. unfold bind. rewrite H. reflexivity. Qed.

Lemma load_op_ok (s : store) (r : ref) (o : Operator) :
  s !! r = Some (ObjOperator o) → load_op r s = Ok (o, s).
Proof. intros H. unfold load_op. rewrite H. reflexivity. Qed.

Lemma load_meas_ok (s : store) (r : ref) (m : MeasurementProcess ref) :
  s !! r = Some (ObjMeasurement m) → load_meas r s = Ok (m, s).
Proof. intros H. unfold load_meas. rewrite H. reflexivity. Qed.

Lemma is_op_lookup (s : store) (r : ref) :
  is_op s r = true → ∃ o, s !! r = Some (ObjOperator o).
Proof.
  unfold is_op. destruct (s !! r) as [[o|m]|]; try discriminate. eauto.
Qed.

Lemma data_at_lookup (s : store) (r : ref) (o : Operator) :
  s !! r = Some (ObjOperator o) → data_at s r = data o.
Proof. intros H. unfold data_at. rewrite H. reflexivity. Qed.

Lemma setattr_data_ok (s : store) (r : ref) (o : Operator) (d : list pyval) :
  s !! r = Some (ObjOperator o) →
  setattr_data r d s = Ok (tt, <[r := ObjOperator (set_data o d)]> s).
Proof. intros H. unfold setattr_data. rewrite H. reflexivity. Qed.

Lemma copy_ok (s : store) (r : ref) (o : Operator) :
  s !! r = Some (ObjOperator o) → copy r s = Ok (length s, s ++ [ObjOperator o]).
Proof. intros H. unfold copy. rewrite H. reflexivity. Qed.

(** The copy of a measurement with an observable adds the copy of the
    observable and then the new measurement that holds it. *)
Lemma copy_measurement_ok (s : store) (r m_obs : ref) (mp : MeasurementProcess ref)
    (o : Operator) :
  s !! r = Some (ObjMeasurement mp) →
  obs mp = Some m_obs →
  s !! m_obs = Some (ObjOperator o) →
  copy r s
  = Ok (S (length s),
        s ++ [ObjOperator o; ObjMeasurement (with_obs mp (Some (length s)))]).
Proof.
  intros Hr Hobs Ho. unfold copy. rewrite Hr, Hobs.
  rewrite (bind_ok _ _ _ _ _ (load_op_ok _ _ _ Ho)).
  unfold bind, alloc. rewrite length_app. simpl.
  rewrite Nat.add_1_r, <- app_assoc. reflexivity.
Qed.

Lemma lookup_snoc_old {A} (s : list A) (x y : A) (r : nat) :
  s !! r = Some y → (s ++ [x]) !! r = Some y.
Proof. intros H. by apply lookup_app_l_Some. Qed.

Lemma lookup_snoc_new {A} (s : list A) (x : A) :
  (s ++ [x]) !! length s = Some x.
Proof. by rewrite list_lookup_middle. Qed.

Lemma lookup_app_first {A} (s : list A) (x y : A) :
  (s ++ [x; y]) !! length s = Some x.
Proof. by rewrite list_lookup_middle. Qed.

Lemma lookup_app_second {A} (s : list A) (x y : A) :
  (s ++ [x; y]) !! S (length s) = Some y.
Proof.
  rewrite lookup_app_r by lia. by replace (S (length s) - length s) with 1 by lia.
Qed.

(** Reading the data of a list of operators leaves the store as it is. *)
Lemma mapM_load_data {B} (g : list pyval → B) (l : list ref) (s : store) :
  forallb (is_op s) l = true →
  mapM (λ r, o <- load_op r ;; ret (g (data o))) l s
  = Ok (map (λ r, g (data_at s r)) l, s).
Proof.
  induction l as [|r l IH]; simpl; intros H; [reflexivity |].
  apply andb_prop in H as [Hr Hl].
  destruct (is_op_lookup _ _ Hr) as [o Ho].
  unfold bind at 1. unfold bind at 1. rewrite (load_op_ok _ _ _ Ho).
  unfold ret at 1. unfold bind at 1. rewrite (IH Hl).
  unfold ret. rewrite (data_at_lookup _ _ _ Ho). reflexivity.
Qed.

Lemma get_parameters_all (tape : QuantumScript) (s : store) :
  operations_ok s tape = true →
  get_parameters tape false s = Ok (all_params s tape, s).
Proof.
  intros H. unfold get_parameters.
  erewrite bind_ok by (apply (mapM_load_data (λ d, d)); exact H).
  reflexivity.
Qed.

Lemma mapM_lookup_params (params : list pyval) (l : list nat) (s : store) :
  forallb (λ i, i <? length params)%nat l = true →
  ∃ ps, mapM (λ i, match params !! i with
                   | Some p => ret p
                   | None => raise IndexError
                   end) l s = Ok (ps, s).
Proof.
  induction l as [|i l IH]; simpl; intros H; [by eexists |].
  apply andb_prop in H as [Hi Hl]. apply Nat.ltb_lt in Hi.
  destruct (lookup_lt_is_Some_2 params i Hi) as [p Hp].
  destruct (IH Hl) as [ps Hps].
  exists (p :: ps). unfold bind at 1. rewrite Hp. unfold ret at 1.
  unfold bind. rewrite Hps. reflexivity.
Qed.

Lemma get_parameters_trainable (tape : QuantumScript) (s : store) :
  operations_ok s tape = true →
  trainable_ok s tape = true →
  ∃ ps, get_parameters tape true s = Ok (ps, s).
Proof.
  intros Ho Ht. unfold get_parameters.
  erewrite bind_ok by (apply (mapM_load_data (λ d, d)); exact Ho).
  apply mapM_lookup_params. exact Ht.
Qed.

(* ===================================================================== *)
(** ** Properties of [convert_to_numpy_parameters] *)

Section ConvertFacts.
Context `{MI : Math}.

Lemma evolves_refl (s : store) : evolves s s.
Proof. by intros r x H. Qed.

Lemma evolves_trans (s1 s2 s3 : store) :
  evolves s1 s2 → evolves s2 s3 → evolves s1 s3.
Proof. intros H12 H23 r x H. exact (H23 _ _ (H12 _ _ H)). Qed.

Lemma evolves_app (s added : store) : evolves s (s ++ added).
Proof. intros r x H. by apply lookup_app_l_Some. Qed.

Lemma evolves_snoc (s : store) (x : object) : evolves s (s ++ [x]).
Proof. apply evolves_app. Qed.

Lemma evolves_is_op (s s' : store) (r : ref) :
  evolves s s' → is_op s r = true → is_op s' r = true.
Proof.
  intros He H. destruct (is_op_lookup _ _ H) as [o Ho].
  unfold is_op. by rewrite (He _ _ Ho).
Qed.

Lemma evolves_forallb_is_op (s s' : store) (l : list ref) :
  evolves s s' → forallb (is_op s) l = true → forallb (is_op s') l = true.
Proof.
  intros He. rewrite !forallb_forall. intros H r Hr.
  eapply evolves_is_op; eauto.
Qed.

Lemma evolves_obs_ok (s s' : store) (r : ref) :
  evolves s s' → obs_ok s r = true → obs_ok s' r = true.
Proof.
  intros He. unfold obs_ok.
  destruct (s !! r) as [[o|m]|] eqn:Hr; try discriminate.
  rewrite (He _ _ Hr). intros H.
  destruct (tensor_obs o); [by eapply evolves_forallb_is_op | done].
Qed.

Lemma evolves_is_meas (s s' : store) (r : ref) :
  evolves s s' → is_meas s r = true → is_meas s' r = true.
Proof.
  intros He. unfold is_meas.
  destruct (s !! r) as [[o|m]|] eqn:Hr; try discriminate.
  rewrite (He _ _ Hr). destruct (obs m); [by apply evolves_obs_ok | done].
Qed.

Lemma evolves_numpy_op (s s' : store) (r : ref) :
  evolves s s' → numpy_op s r → numpy_op s' r.
Proof.
  intros He (o & Ho & Hn). exists o. split; [exact (He _ _ Ho) | exact Hn].
Qed.

Lemma evolves_numpy_meas (s s' : store) (r : ref) :
  evolves s s' → numpy_meas s r → numpy_meas s' r.
Proof.
  intros He (m & Hm & Hobs). exists m. split; [exact (He _ _ Hm) |].
  destruct (obs m); [by eapply evolves_numpy_op | done].
Qed.

(** What [_convert_op_to_numpy_data] does to an operator of the store. *)
Lemma _convert_op_to_numpy_data_run (s : store) (r : ref) (o : Operator) :
  s !! r = Some (ObjOperator o) →
  _convert_op_to_numpy_data r s
  = if String.eqb (get_interface (data o)) "numpy" then Ok (r, s)
    else Ok (length s, s ++ [ObjOperator (set_data o (unwrap (data o)))]).
Proof.
  intros Hr. unfold _convert_op_to_numpy_data.
  rewrite (bind_ok _ _ _ _ _ (load_op_ok _ _ _ Hr)).
  destruct (String.eqb _ _); [reflexivity |].
  rewrite (bind_ok _ _ _ _ _ (copy_ok _ _ _ Hr)).
  rewrite (bind_ok _ _ _ _ _ (setattr_data_ok _ _ _ _ (lookup_snoc_new _ _))).
  unfold ret. do 2 f_equal.
  rewrite insert_app_r_alt by lia. by rewrite Nat.sub_diag.
Qed.

Lemma _convert_op_to_numpy_data_ok (s : store) (r : ref) :
  is_op s r = true →
  ∃ y s', _convert_op_to_numpy_data r s = Ok (y, s')
          ∧ evolves s s'
          ∧ (numpy_op s r → y = r).
Proof.
  intros H. destruct (is_op_lookup _ _ H) as [o Ho].
  rewrite (_convert_op_to_numpy_data_run _ _ _ Ho).
  destruct (String.eqb _ _) eqn:Hi.
  - exists r, s. split; [done |]. split; [apply evolves_refl | done].
  - do 2 eexists. split; [done |]. split; [apply evolves_snoc |].
    intros (o' & Ho' & Hn). rewrite Ho in Ho'. injection Ho' as <-.
    apply String.eqb_neq in Hi. contradiction.
Qed.

(** What [_convert_measurement_to_numpy_data] does to a measurement whose
    observable needs unwrapping: the copy of the observable and the copy
    of the measurement that holds it are added, and the [data] of the
    copied observable is assigned. *)
Lemma _convert_measurement_to_numpy_data_run (s : store) (r m_obs : ref)
    (mp : MeasurementProcess ref) (o : Operator) :
  s !! r = Some (ObjMeasurement mp) →
  obs mp = Some m_obs →
  s !! m_obs = Some (ObjOperator o) →
  obs_ok s m_obs = true →
  String.eqb (get_interface (data o)) "numpy" = false →
  _convert_measurement_to_numpy_data r s
  = Ok (S (length s),
        s ++ [ObjOperator
                (set_data o
                   (unwrap
                      match tensor_obs o with
                      | Some factors => map (λ f, VList (data_at s f)) factors
                      | None => data o
                      end));
              ObjMeasurement (with_obs mp (Some (length s)))]).
Proof.
  intros Hr Hobs Ho Hok Hi. unfold _convert_measurement_to_numpy_data.
  rewrite (bind_ok _ _ _ _ _ (load_meas_ok _ _ _ Hr)). rewrite Hobs.
  rewrite (bind_ok _ _ _ _ _ (load_op_ok _ _ _ Ho)). rewrite Hi.
  rewrite (bind_ok _ _ _ _ _ (copy_measurement_ok _ _ _ _ _ Hr Hobs Ho)).
  set (s1 := s ++ [ObjOperator o; ObjMeasurement (with_obs mp (Some (length s)))]).
  assert (Hnew : s1 !! length s = Some (ObjOperator o)) by apply lookup_app_first.
  assert (Ho' : s1 !! m_obs = Some (ObjOperator o)) by by apply lookup_app_l_Some.
  assert (Hm1 : s1 !! S (length s)
                = Some (ObjMeasurement (with_obs mp (Some (length s)))))
    by apply lookup_app_second.
  rewrite (bind_ok _ _ _ _ _ (load_meas_ok _ _ _ Hm1)).
  change (obs (with_obs mp (Some (length s)))) with (Some (length s)). cbv iota.
  rewrite (bind_ok _ _ _ _ _ (load_op_ok _ _ _ Hnew)).
  assert (Hset : ∀ d, setattr_data (length s) d s1
                      = Ok (tt, s ++ [ObjOperator (set_data o d);
                                      ObjMeasurement (with_obs mp (Some (length s)))])).
  { intros d. rewrite (setattr_data_ok _ _ _ _ Hnew). do 2 f_equal.
    subst s1. rewrite insert_app_r_alt by lia. by rewrite Nat.sub_diag. }
  unfold obs_ok in Hok. rewrite Ho in Hok.
  destruct (tensor_obs o) as [factors|] eqn:Ht.
  - erewrite bind_ok; [reflexivity |].
    rewrite (bind_ok _ _ _ _ _ (load_op_ok _ _ _ Ho')). rewrite Ht.
    assert (Hfs : forallb (is_op s1) factors = true).
    { rewrite forallb_forall in Hok |- *. intros f Hf. specialize (Hok f Hf).
      destruct (is_op_lookup _ _ Hok) as [fo Hfo]. unfold is_op, s1.
      by rewrite (lookup_app_l_Some _ _ _ _ Hfo). }
    rewrite (bind_ok _ _ _ _ _ (mapM_load_data VList _ _ Hfs)).
    rewrite Hset. do 7 f_equal.
    apply map_ext_in. intros f Hf. f_equal. rewrite forallb_forall in Hok.
    destruct (is_op_lookup _ _ (Hok f Hf)) as [fo Hfo].
    rewrite (data_at_lookup _ _ _ Hfo).
    apply data_at_lookup. by apply lookup_app_l_Some.
  - erewrite bind_ok; [reflexivity |].
    rewrite (bind_ok _ _ _ _ _ (load_op_ok _ _ _ Ho')). apply Hset.
Qed.

Lemma _convert_measurement_to_numpy_data_ok (s : store) (r : ref) :
  is_meas s r = true →
  ∃ y s', _convert_measurement_to_numpy_data r s = Ok (y, s')
          ∧ evolves s s'
          ∧ (numpy_meas s r → y = r).
Proof.
  intros H. unfold is_meas in H.
  destruct (s !! r) as [[o|mp]|] eqn:Hr; try discriminate.
  destruct (obs mp) as [m_obs|] eqn:Hobs.
  - pose proof H as Hok. unfold obs_ok in H.
    destruct (s !! m_obs) as [[o|m']|] eqn:Ho; try discriminate.
    destruct (String.eqb (get_interface (data o)) "numpy") eqn:Hi.
    + exists r, s. split; [| split; [apply evolves_refl | done]].
      unfold _convert_measurement_to_numpy_data.
      rewrite (bind_ok _ _ _ _ _ (load_meas_ok _ _ _ Hr)). rewrite Hobs.
      rewrite (bind_ok _ _ _ _ _ (load_op_ok _ _ _ Ho)). rewrite Hi. reflexivity.
    + rewrite (_convert_measurement_to_numpy_data_run _ _ _ _ _ Hr Hobs Ho Hok Hi).
      do 2 eexists. split; [reflexivity |]. split.
      * apply evolves_app.
      * intros (m & Hm & Hnum). rewrite Hr in Hm. injection Hm as <-.
        rewrite Hobs in Hnum. destruct Hnum as (o' & Ho' & Hn).
        rewrite Ho in Ho'. injection Ho' as <-.
        apply String.eqb_neq in Hi. contradiction.
  - exists r, s. split; [| split; [apply evolves_refl | done]].
    unfold _convert_measurement_to_numpy_data.
    rewrite (bind_ok _ _ _ _ _ (load_meas_ok _ _ _ Hr)). rewrite Hobs. reflexivity.
Qed.

End ConvertFacts.

Section ConvertCircuit.
Context `{MI : Math}.

Lemma mapM_evolves (f : nat → M nat) (P : list object → nat → bool)
    (K : list object → nat → Prop) :
  (∀ s x, P s x = true →
     ∃ y s', f x s = Ok (y, s') ∧ evolves s s' ∧ (K s x → y = x)) →
  (∀ s s' x, evolves s s' → P s x = true → P s' x = true) →
  (∀ s s' x, evolves s s' → K s x → K s' x) →
  ∀ (l : list nat) (s : list object),
    forallb (P s) l = true →
    ∃ ys s', mapM f l s = Ok (ys, s')
             ∧ evolves s s'
             ∧ length ys = length l
             ∧ ∀ i x, l !! i = Some x → K s x → ys !! i = Some x.
Proof.
  intros Hf HP HK. induction l as [|x l IH]; intros s Hl; simpl.
  - exists [], s. split; [done |]. split; [apply evolves_refl |]. split; [done |].
    intros i x Hi. by rewrite lookup_nil in Hi.
  - simpl in Hl. apply andb_prop in Hl as [Hx Hl].
    destruct (Hf _ _ Hx) as (y & s1 & Hrun & He1 & Hkeep).
    assert (Hl1 : forallb (P s1) l = true).
    { rewrite forallb_forall in Hl |- *. intros z Hz. eapply HP; eauto. }
    destruct (IH _ Hl1) as (ys & s2 & Hrun2 & He2 & Hlen & Hkeep2).
    exists (y :: ys), s2.
    split; [| split; [by eapply evolves_trans | split; [simpl; by rewrite Hlen |]]].
    + rewrite (bind_ok _ _ _ _ _ Hrun). rewrite (bind_ok _ _ _ _ _ Hrun2). reflexivity.
    + intros [|i] z Hi Hz; simpl in *.
      * injection Hi as <-. by rewrite (Hkeep Hz).
      * apply (Hkeep2 _ _ Hi). eapply HK; eauto.
Qed.

Lemma convert_post (circuit : QuantumScript) (s s' : list object)
    (new_circuit : QuantumScript) (post : list pyval → result pyval) :
  convert_to_numpy_parameters circuit s = Ok ((new_circuit, post), s') →
  ∃ like, post = cast_result_back_to_initial_interface like.
Proof.
  unfold convert_to_numpy_parameters, bind, ret.
  destruct (get_parameters circuit true s) as [[ps s0]|]; [| discriminate].
  destruct (mapM _ (_prep circuit) s0) as [[a s1]|]; [| discriminate].
  destruct (mapM _ (_ops circuit) s1) as [[b s2]|]; [| discriminate].
  destruct (mapM _ (measurements circuit) s2) as [[c s3]|]; [| discriminate].
  intros [= _ <- _]. by eexists.
Qed.

End ConvertCircuit.

(** C6: on a circuit whose references name operators and measurements,
    [convert_to_numpy_parameters] returns a new circuit in which every
    state preparation and operation whose data is in the plain numpy
    interface, and every measurement that has no observable or whose
    observable's data is in the plain numpy interface, is the same
    reference as in the input at the same position, and whose
    [trainable_params] are those of the input. *)
Theorem convert_reuses_numpy_instances `{MI : Math}
    (circuit : QuantumScript) (s : list object) :
  well_formed s circuit = true →
  ∃ new_circuit post s',
    convert_to_numpy_parameters circuit s = Ok ((new_circuit, post), s')
    ∧ length (_prep new_circuit) = length (_prep circuit)
    ∧ length (_ops new_circuit) = length (_ops circuit)
    ∧ length (measurements new_circuit) = length (measurements circuit)
    ∧ (∀ i r, _prep circuit !! i = Some r → numpy_op s r →
              _prep new_circuit !! i = Some r)
    ∧ (∀ i r, _ops circuit !! i = Some r → numpy_op s r →
              _ops new_circuit !! i = Some r)
    ∧ (∀ i r, measurements circuit !! i = Some r → numpy_meas s r →
              measurements new_circuit !! i = Some r)
    ∧ trainable_params new_circuit = trainable_params circuit.
Proof.
  intros Hwf. unfold well_formed in Hwf.
  apply andb_prop in Hwf as [Hwf Htr]. apply andb_prop in Hwf as [Hops Hms].
  destruct (get_parameters_trainable _ _ Hops Htr) as [ps Hps].
  unfold operations_ok, operations in Hops. rewrite forallb_app in Hops.
  apply andb_prop in Hops as [Hprep Hops].
  destruct (mapM_evolves _convert_op_to_numpy_data is_op numpy_op
              _convert_op_to_numpy_data_ok
              (λ a b x He, evolves_is_op a b x He)
              (λ a b x He, evolves_numpy_op a b x He)
              _ _ Hprep) as (new_prep & s1 & Hrun1 & He1 & Hlen1 & Hkeep1).
  pose proof (evolves_forallb_is_op _ _ _ He1 Hops) as Hops1.
  destruct (mapM_evolves _convert_op_to_numpy_data is_op numpy_op
              _convert_op_to_numpy_data_ok
              (λ a b x He, evolves_is_op a b x He)
              (λ a b x He, evolves_numpy_op a b x He)
              _ _ Hops1) as (new_ops & s2 & Hrun2 & He2 & Hlen2 & Hkeep2).
  assert (Hms2 : forallb (is_meas s2) (measurements circuit) = true).
  { unfold measurements_ok in Hms. rewrite forallb_forall in Hms |- *.
    intros z Hz. eapply evolves_is_meas; [| by apply Hms].
    by eapply evolves_trans. }
  destruct (mapM_evolves _convert_measurement_to_numpy_data is_meas numpy_meas
              _convert_measurement_to_numpy_data_ok
              (λ a b x He, evolves_is_meas a b x He)
              (λ a b x He, evolves_numpy_meas a b x He)
              _ _ Hms2) as (new_ms & s3 & Hrun3 & He3 & Hlen3 & Hkeep3).
  eexists _, _, s3. split.
  { unfold convert_to_numpy_parameters.
    rewrite (bind_ok _ _ _ _ _ Hps). rewrite (bind_ok _ _ _ _ _ Hrun1).
    rewrite (bind_ok _ _ _ _ _ Hrun2). rewrite (bind_ok _ _ _ _ _ Hrun3).
    reflexivity. }
  simpl. repeat split; try assumption.
  - intros i r Hi Hn. apply (Hkeep2 _ _ Hi). by eapply evolves_numpy_op.
  - intros i r Hi Hn. apply (Hkeep3 _ _ Hi).
    eapply evolves_numpy_meas; [| exact Hn]. by eapply evolves_trans.
Qed.

(** The circuit of the unit test is well formed in its store. *)
Lemma convert_reuses_numpy_instances_witness :
  well_formed torch_store torch_circuit = true
  ∧ ∃ new_circuit post s',
    convert_to_numpy_parameters (MI := math_model) torch_circuit torch_store
    = Ok ((new_circuit, post), s')
    ∧ length (_prep new_circuit) = length (_prep torch_circuit)
    ∧ length (_ops new_circuit) = length (_ops torch_circuit)
    ∧ length (measurements new_circuit) = length (measurements torch_circuit)
    ∧ (∀ i r, _prep torch_circuit !! i = Some r → numpy_op (MI := math_model) torch_store r →
              _prep new_circuit !! i = Some r)
    ∧ (∀ i r, _ops torch_circuit !! i = Some r → numpy_op (MI := math_model) torch_store r →
              _ops new_circuit !! i = Some r)
    ∧ (∀ i r, measurements torch_circuit !! i = Some r →
              numpy_meas (MI := math_model) torch_store r →
              measurements new_circuit !! i = Some r)
    ∧ trainable_params new_circuit = trainable_params torch_circuit.
Proof.
  split; [reflexivity |].
  apply (convert_reuses_numpy_instances (MI := math_model) torch_circuit torch_store).
  reflexivity.
Defined.

(* ===================================================================== *)
(** ** Properties of the post-processing function *)

Section PostProcessing.
Context `{MI : Math}.

Lemma _recursive_asarray_entry_keeps_counts (like : string) (r c : pyval)
    (path : list nat) :
  (length path ≤ 1)%nat →
  subvalue_at path r = Some c →
  _is_count_result c = true →
  subvalue_at path (_recursive_asarray_entry r like) = Some c.
Proof.
  intros Hlen Hsub Hc. destruct path as [|j [|k path]]; simpl in *; [| | lia].
  - injection Hsub as ->. unfold _recursive_asarray_entry. by rewrite Hc.
  - destruct r as [t|d|l|l]; try discriminate.
    destruct (l !! j) as [x|] eqn:Hj; [| discriminate].
    injection Hsub as ->. unfold _recursive_asarray_entry. simpl.
    rewrite list_lookup_fmap, Hj. simpl. by rewrite Hc.
Qed.

Lemma _recursive_asarray_single (like : string) (r : pyval) :
  _recursive_asarray [r] like = Ok (_recursive_asarray_entry r like).
Proof. reflexivity. Qed.

Lemma _recursive_asarray_several (like : string) (r1 r2 : pyval) (rest : list pyval) :
  _recursive_asarray (r1 :: r2 :: rest) like
  = Ok (VTuple (map (λ r, _recursive_asarray_entry r like) (r1 :: r2 :: rest))).
Proof. reflexivity. Qed.

End PostProcessing.

(** C8, as stated, fails: in the result of a tape run with a shot vector
    the counts mapping sits two tuples deep; the post-processing function
    returned for the torch circuit hands the inner tuple that holds it to
    [asarray], and the mapping is no longer found at its position. *)
Lemma postprocessing_counts_counterexample :
  ∃ new_circuit post s' out,
    convert_to_numpy_parameters (MI := math_model) torch_circuit torch_store
    = Ok ((new_circuit, post), s')
    ∧ subvalue_at [0; 0]%nat shot_vector_result = Some (VDict [("0", 4%nat); ("1", 6%nat)])
    ∧ _is_count_result (VDict [("0", 4%nat); ("1", 6%nat)]) = true
    ∧ post [shot_vector_result] = Ok out
    ∧ subvalue_at [0; 0]%nat out = None
    ∧ subvalue_at [0]%nat out
      = Some (VArray (mkTensor "torch" false
                        (Array [Object [("0", 4%nat); ("1", 6%nat)]; Scalar (1 # 5)]))).
Proof.
  eexists _, _, _, _. split; [vm_compute; reflexivity |].
  repeat split; vm_compute; reflexivity.
Qed.

(** C8, amended: the post-processing function returned by
    [convert_to_numpy_parameters] returns a result for every batch that
    holds a per-tape result, and in it every count-shaped value (a
    mapping, or a list of mappings) that is a per-tape result or an item
    of a tuple-valued per-tape result is unchanged at its position; values
    nested deeper are handed to [asarray]. *)
Theorem postprocessing_keeps_counts `{MI : Math}
    (circuit : QuantumScript) (s s' : list object) (new_circuit : QuantumScript)
    (post : list pyval → result pyval)
    (results : list pyval) (i : nat) (r c : pyval) (path : list nat) :
  convert_to_numpy_parameters circuit s = Ok ((new_circuit, post), s') →
  results !! i = Some r →
  (length path ≤ 1)%nat →
  subvalue_at path r = Some c →
  _is_count_result c = true →
  ∃ out, post results = Ok out
         ∧ subvalue_at ((if (1 <? length results)%nat then [i] else []) ++ path) out
           = Some c.
Proof.
  intros Hconv Hi Hlen Hsub Hc.
  destruct (convert_post _ _ _ _ _ Hconv) as [like ->].
  unfold cast_result_back_to_initial_interface.
  destruct results as [|r1 [|r2 rest]].
  - by rewrite lookup_nil in Hi.
  - destruct i as [|i]; [| by rewrite lookup_cons, lookup_nil in Hi].
    injection Hi as ->. rewrite _recursive_asarray_single.
    eexists. split; [reflexivity |]. simpl.
    by apply _recursive_asarray_entry_keeps_counts.
  - rewrite _recursive_asarray_several. eexists. split; [reflexivity |].
    change ((if (1 <? length (r1 :: r2 :: rest))%nat then [i] else []) ++ path)
      with (i :: path).
    cbn [subvalue_at]. rewrite list_lookup_fmap, Hi. simpl.
    by apply _recursive_asarray_entry_keeps_counts.
Qed.

(** The counts of a tape that measures counts and an expectation value. *)
Lemma postprocessing_keeps_counts_witness :
  ∃ new_circuit post s',
    convert_to_numpy_parameters (MI := math_model) torch_circuit torch_store
    = Ok ((new_circuit, post), s')
    ∧ ∃ out, post [counts_and_expval_result] = Ok out
             ∧ subvalue_at [0%nat] out = Some (VDict [("0", 4%nat); ("1", 6%nat)]).
Proof.
  eexists _, _, _. split; [vm_compute; reflexivity |].
  eapply (postprocessing_keeps_counts (MI := math_model) torch_circuit torch_store _ _ _
            [counts_and_expval_result] 0 counts_and_expval_result
            (VDict [("0", 4%nat); ("1", 6%nat)]) [0%nat]).
  - vm_compute. reflexivity.
  - reflexivity.
  - simpl. lia.
  - reflexivity.
  - reflexivity.
Defined.

(** C10: the post-processing function returned by
    [convert_to_numpy_parameters] collapses a batch of one per-tape result
    to that (processed) result, not wrapped in a sequence; for a batch of
    two or more results it returns a tuple with as many items as the
    batch. *)
Theorem postprocessing_collapses_single_result `{MI : Math}
    (circuit : QuantumScript) (s s' : list object) (new_circuit : QuantumScript)
    (post : list pyval → result pyval) :
  convert_to_numpy_parameters circuit s = Ok ((new_circuit, post), s') →
  ∃ like,
    (∀ r, post [r] = Ok (_recursive_asarray_entry r like))
    ∧ (∀ results, (2 ≤ length results)%nat →
         ∃ items, post results = Ok (VTuple items)
                  ∧ items = map (λ r, _recursive_asarray_entry r like) results
                  ∧ length items = length results).
Proof.
  intros Hconv. destruct (convert_post _ _ _ _ _ Hconv) as [like ->].
  exists like. split.
  - intros r. apply _recursive_asarray_single.
  - intros [|r1 [|r2 rest]] Hlen; simpl in Hlen; try lia.
    eexists. split; [apply _recursive_asarray_several |].
    split; [reflexivity | by rewrite length_map].
Qed.

(** The post-processing function returned for the circuit of the unit test. *)
Lemma postprocessing_collapses_single_result_witness :
  ∃ new_circuit post s',
    convert_to_numpy_parameters (MI := math_model) torch_circuit torch_store
    = Ok ((new_circuit, post), s')
    ∧ ∃ like,
        (∀ r, post [r] = Ok (_recursive_asarray_entry (MI := math_model) r like))
        ∧ (∀ results, (2 ≤ length results)%nat →
             ∃ items, post results = Ok (VTuple items)
                      ∧ items = map (λ r, _recursive_asarray_entry (MI := math_model) r like)
                                    results
                      ∧ length items = length results).
Proof.
  eexists _, _, _. split; [vm_compute; reflexivity |].
  eapply (postprocessing_collapses_single_result (MI := math_model) torch_circuit torch_store).
  vm_compute. reflexivity.
Defined.

(* ===================================================================== *)
(** ** Properties of [batch_params] *)

Local Open Scope nat_scope.

Lemma getitem_leading_dim (p : pyval) (d b : nat) :
  leading_dim p = Some d → b < d → ∃ x, getitem p b = Some x.
Proof.
  unfold leading_dim. intros Hd Hb. destruct p as [[i g v]|dd|l|l]; simpl in *.
  - destruct v as [x|items|o]; simpl in *; try discriminate.
    injection Hd as <-. destruct (lookup_lt_is_Some_2 items b Hb) as [y Hy].
    rewrite Hy. simpl. eauto.
  - discriminate.
  - injection Hd as <-. apply (lookup_lt_is_Some_2 l b Hb).
  - injection Hd as <-. apply (lookup_lt_is_Some_2 l b Hb).
Qed.

Lemma in_indices_elem_of (i : nat) (indices : list nat) :
  in_indices i indices = true ↔ i ∈ indices.
Proof.
  unfold in_indices. rewrite existsb_exists. split.
  - intros (x & Hx & Heq). apply Nat.eqb_eq in Heq. subst x.
    by apply list_elem_of_In.
  - intros H. exists i. split; [by apply list_elem_of_In | apply Nat.eqb_refl].
Qed.

(** A computation that succeeds on every item without touching the store. *)
Lemma mapM_pure {A B} (f : A → M B) (l : list A) (s : list object) :
  (∀ x, x ∈ l → ∃ y, f x s = Ok (y, s)) →
  ∃ ys, mapM f l s = Ok (ys, s) ∧ length ys = length l.
Proof.
  induction l as [|x l IH]; intros H; simpl.
  - by exists [].
  - destruct (H x) as [y Hy]; [left |].
    destruct IH as (ys & Hys & Hlen); [intros z Hz; apply H; by right |].
    exists (y :: ys). rewrite (bind_ok _ _ _ _ _ Hy), (bind_ok _ _ _ _ _ Hys).
    split; [reflexivity | simpl; by rewrite Hlen].
Qed.

Section BatchFacts.
Variables (params : list pyval) (indices : list nat) (batch_dim : nat).
Hypothesis selected_ok :
  ∀ i, i ∈ indices → ∃ p, params !! i = Some p ∧ leading_dim p = Some batch_dim.

Lemma sliced_param_ok (b i : nat) (s : list object) :
  b < batch_dim → i < length params →
  ∃ x, sliced_param params indices b i s = Ok (x, s).
Proof.
  intros Hb Hi. unfold sliced_param.
  destruct (lookup_lt_is_Some_2 params i Hi) as [p Hp]. rewrite Hp.
  destruct (in_indices i indices) eqn:Hin; [| by eexists].
  apply in_indices_elem_of in Hin.
  destruct (selected_ok _ Hin) as (p' & Hp' & Hd).
  rewrite Hp in Hp'. injection Hp' as <-.
  destruct (getitem_leading_dim _ _ _ Hd Hb) as [x Hx]. rewrite Hx. by eexists.
Qed.

(** The copies of one operator made for the batch indices [bs]: one new
    object per index, added at the end of the store. *)
Lemma created_ok (op : nat) (o : Operator) (idx : nat) (bs : list nat) (s : list object) :
  s !! op = Some (ObjOperator o) →
  idx + length (data o) ≤ length params →
  Forall (λ b, b < batch_dim) bs →
  ∃ created s',
    mapM (λ b, new_params <- mapM (sliced_param params indices b)
                                   (seq idx (length (data o))) ;;
               bind_new_parameters op new_params) bs s
    = Ok (created, s')
    ∧ length created = length bs
    ∧ s `prefix_of` s'.
Proof.
  intros Hop Hrange. revert s Hop.
  induction bs as [|b bs IH]; intros s Hop Hbs; simpl.
  - exists [], s. by repeat split.
  - apply Forall_cons in Hbs as [Hb Hbs].
    destruct (mapM_pure (sliced_param params indices b) (seq idx (length (data o))) s)
      as (new_params & Hnp & _).
    { intros i Hi. apply elem_of_seq in Hi. apply sliced_param_ok; [done | lia]. }
    assert (Hbind : bind_new_parameters op new_params s
                    = Ok (length s, s ++ [ObjOperator (set_data o new_params)])).
    { unfold bind_new_parameters. by rewrite (bind_ok _ _ _ _ _ (load_op_ok _ _ _ Hop)). }
    destruct (IH (s ++ [ObjOperator (set_data o new_params)])) as (cs & s' & Hcs & Hlen & Hpre).
    { by apply lookup_snoc_old. }
    { exact Hbs. }
    exists (length s :: cs), s'. split; [| split].
    + unfold bind at 1. unfold bind at 1. rewrite Hnp, Hbind.
      rewrite (bind_ok _ _ _ _ _ Hcs). reflexivity.
    + simpl. by rewrite Hlen.
    + etrans; [| exact Hpre]. by apply prefix_app_r.
Qed.

Lemma batch_step_ok (idx : nat) (rows : list (list nat)) (op : nat) (s : list object) :
  is_op s op = true →
  idx + length (data_at s op) ≤ length params →
  length rows = batch_dim →
  ∃ rows' s',
    batch_step params indices batch_dim (idx, rows) op s
    = Ok ((idx + length (data_at s op), rows'), s')
    ∧ length rows' = batch_dim
    ∧ s `prefix_of` s'.
Proof.
  intros Hop Hrange Hrows. destruct (is_op_lookup _ _ Hop) as [o Ho].
  rewrite (data_at_lookup _ _ _ Ho) in *.
  unfold batch_step. rewrite (bind_ok _ _ _ _ _ (load_op_ok _ _ _ Ho)).
  destruct (existsb _ _).
  - destruct (created_ok op o idx (seq 0 batch_dim) s Ho Hrange)
      as (created & s' & Hc & Hlen & Hpre).
    { apply Forall_seq. intros j Hj. lia. }
    rewrite (bind_ok _ _ _ _ _ Hc). eexists _, s'. split; [reflexivity |].
    split; [| exact Hpre].
    rewrite length_zip_with, Hlen, length_seq, Hrows. lia.
  - eexists _, s. split; [reflexivity |]. split; [by rewrite length_map | done].
Qed.

Lemma prefix_is_op (s s' : list object) (r : nat) :
  s `prefix_of` s' → is_op s r = true → is_op s' r = true ∧ data_at s' r = data_at s r.
Proof.
  intros Hpre H. destruct (is_op_lookup _ _ H) as [o Ho].
  pose proof (prefix_lookup_Some _ _ _ _ Ho Hpre) as Ho'.
  unfold is_op, data_at. by rewrite Ho, Ho'.
Qed.

Lemma prefix_params (s s' : list object) (l : list nat) :
  s `prefix_of` s' → forallb (is_op s) l = true →
  forallb (is_op s') l = true ∧ map (data_at s') l = map (data_at s) l.
Proof.
  intros Hpre. induction l as [|r l IH]; simpl; [done |].
  intros H. apply andb_prop in H as [Hr Hl].
  destruct (prefix_is_op _ _ _ Hpre Hr) as [-> ->].
  destruct (IH Hl) as [-> ->]. done.
Qed.

Lemma foldM_batch_step_ok (l : list nat) (idx : nat) (rows : list (list nat))
    (s : list object) :
  forallb (is_op s) l = true →
  idx + length (concat (map (data_at s) l)) ≤ length params →
  length rows = batch_dim →
  ∃ rows' s',
    foldM (batch_step params indices batch_dim) (idx, rows) l s
    = Ok ((idx + length (concat (map (data_at s) l)), rows'), s')
    ∧ length rows' = batch_dim
    ∧ s `prefix_of` s'.
Proof.
  revert idx rows s. induction l as [|r l IH]; intros idx rows s Hl Hrange Hrows; simpl.
  - exists rows, s. rewrite Nat.add_0_r. by repeat split.
  - simpl in Hl, Hrange. apply andb_prop in Hl as [Hr Hl].
    rewrite length_app in Hrange.
    destruct (batch_step_ok idx rows r s Hr) as (rows1 & s1 & Hstep & Hlen1 & Hpre1);
      [lia | exact Hrows |].
    destruct (prefix_params _ _ _ Hpre1 Hl) as [Hl1 Hdata].
    destruct (IH (idx + length (data_at s r)) rows1 s1 Hl1) as (rows2 & s2 & Hrest & Hlen2 & Hpre2);
      [rewrite Hdata; lia | exact Hlen1 |].
    exists rows2, s2. split; [| split; [exact Hlen2 | by etrans]].
    rewrite (bind_ok _ _ _ _ _ Hstep), Hrest, Hdata, length_app.
    by rewrite Nat.add_assoc.
Qed.

End BatchFacts.

Lemma check_batch_dim_cons (params : list pyval) (B i : nat) (l : list nat)
    (s : list object) (p : pyval) :
  params !! i = Some p →
  mapM (check_batch_dim params B) (i :: l) s
  = match shape p with
    | [] => Raise ValueError
    | d :: _ =>
        if d =? B then
          match mapM (check_batch_dim params B) l s with
          | Ok (us, s') => Ok (tt :: us, s')
          | Raise e => Raise e
          end
        else Raise ValueError
    end.
Proof.
  intros Hp. simpl. unfold bind, check_batch_dim at 1. rewrite Hp.
  destruct (shape p) as [|d sh]; [reflexivity |].
  destruct (d =? B); [| reflexivity].
  unfold ret. destruct (mapM _ l s) as [[us s']|e]; reflexivity.
Qed.

Lemma check_batch_dim_phase (params : list pyval) (B : nat) (l : list nat) (s : list object) :
  Forall (λ i, i < length params) l →
  (Forall (λ i, ∃ p, params !! i = Some p ∧ leading_dim p = Some B) l
   ∧ ∃ us, mapM (check_batch_dim params B) l s = Ok (us, s))
  ∨ (Exists (λ i, ∃ p, params !! i = Some p ∧ leading_dim p ≠ Some B) l
     ∧ mapM (check_batch_dim params B) l s = Raise ValueError).
Proof.
  induction l as [|i l IH]; intros Hr.
  - left. split; [constructor | by eexists].
  - apply Forall_cons in Hr as [Hi Hr].
    destruct (lookup_lt_is_Some_2 params i Hi) as [p Hp].
    rewrite (check_batch_dim_cons _ _ _ _ _ _ Hp).
    destruct (shape p) as [|d sh] eqn:Hs.
    + right. split; [| reflexivity]. left. exists p. split; [exact Hp |].
      unfold leading_dim. by rewrite Hs.
    + destruct (Nat.eqb_spec d B) as [-> | Hne].
      * destruct (IH Hr) as [[Hgood [us Hus]] | [Hbad Hraise]].
        -- left. split.
           ++ constructor; [| exact Hgood]. exists p. split; [exact Hp |].
              unfold leading_dim. by rewrite Hs.
           ++ rewrite Hus. by eexists.
        -- right. split; [by right |]. by rewrite Hraise.
      * right. split; [| reflexivity]. left. exists p. split; [exact Hp |].
        unfold leading_dim. rewrite Hs. simpl. congruence.
Qed.

Lemma filter_not_in_prep (prep ops : list nat) :
  List.filter (λ op, negb (existsb (Nat.eqb op) prep)) (prep ++ ops)
  = List.filter (λ op, negb (existsb (Nat.eqb op) prep)) ops.
Proof.
  rewrite List.filter_app.
  assert (H : ∀ l, (∀ x, In x l → In x prep) →
              List.filter (λ op, negb (existsb (Nat.eqb op) prep)) l = []).
  { induction l as [|x l IH]; intros Hin; simpl; [done |].
    assert (Hx : existsb (Nat.eqb x) prep = true).
    { apply existsb_exists. exists x. split; [apply Hin; by left | apply Nat.eqb_refl]. }
    rewrite Hx. simpl. apply IH. intros y Hy. apply Hin. by right. }
  rewrite H; [reflexivity | auto].
Qed.

Lemma length_concat_filter {A} (d : nat → list A) (f : nat → bool) (l : list nat) :
  length (concat (map d (List.filter f l))) ≤ length (concat (map d l)).
Proof.
  induction l as [|x l IH]; simpl; [done |].
  destruct (f x); simpl; rewrite !length_app; lia.
Qed.

Lemma forallb_filter (P f : nat → bool) (l : list nat) :
  forallb P l = true → forallb P (List.filter f l) = true.
Proof.
  induction l as [|x l IH]; simpl; [done |].
  intros H. apply andb_prop in H as [Hx Hl].
  destruct (f x); simpl; [rewrite Hx |]; auto.
Qed.

Lemma Forall_zip_with_all {A B C} (P : C → Prop) (f : A → B → C) (l : list A) (k : list B) :
  (∀ x y, P (f x y)) → Forall P (zip_with f l k).
Proof.
  intros H. revert k. induction l as [|x l IH]; intros [|y k]; simpl; constructor; auto.
Qed.

(** The outcomes of [batch_params] on a tape whose operations are
    operators of the store and whose selected indices are positions of the
    parameter list. *)
Lemma batch_params_cases (tape : QuantumScript) (all_operations : bool) (s : list object) :
  operations_ok s tape = true →
  Forall (λ i, i < length (all_params s tape)) (selected_indices s tape all_operations) →
  (selected_indices s tape all_operations = []
   ∧ batch_params tape all_operations s = Raise ValueError)
  ∨ ∃ i0 rest p0,
      selected_indices s tape all_operations = i0 :: rest
      ∧ all_params s tape !! i0 = Some p0
      ∧ ((shape p0 = [] ∧ batch_params tape all_operations s = Raise ValueError)
         ∨ ∃ B, leading_dim p0 = Some B
             ∧ ((Exists (λ i, ∃ p, all_params s tape !! i = Some p ∧ leading_dim p ≠ Some B)
                        (selected_indices s tape all_operations)
                 ∧ batch_params tape all_operations s = Raise ValueError)
                ∨ (Forall (λ i, ∃ p, all_params s tape !! i = Some p ∧ leading_dim p = Some B)
                          (selected_indices s tape all_operations)
                   ∧ ∃ tapes s',
                       batch_params tape all_operations s = Ok (tapes, s')
                       ∧ length tapes = B
                       ∧ Forall (keeps_metadata tape) tapes))).
Proof.
  intros Hops Hrange. unfold batch_params.
  rewrite (bind_ok _ _ _ _ _ (get_parameters_all _ _ Hops)).
  change (if all_operations then seq 0 (length (all_params s tape)) else trainable_params tape)
    with (selected_indices s tape all_operations).
  destruct (selected_indices s tape all_operations) as [|i0 rest] eqn:Hind.
  { left. by split. }
  right. pose proof Hrange as Hrange0. apply Forall_cons in Hrange0 as [Hi0 _].
  destruct (lookup_lt_is_Some_2 _ _ Hi0) as [p0 Hp0].
  exists i0, rest, p0. split; [reflexivity |]. split; [exact Hp0 |].
  rewrite Hp0. destruct (shape p0) as [|B sh] eqn:Hs.
  { left. by split. }
  right. exists B. split; [unfold leading_dim; by rewrite Hs |].
  rewrite (bind_ok (ret B) _ s s B eq_refl).
  destruct (check_batch_dim_phase (all_params s tape) B (i0 :: rest) s Hrange)
    as [[Hgood [us Hus]] | [Hbad Hraise]].
  2: { left. split; [exact Hbad |]. unfold bind. by rewrite Hraise. }
  right. split; [exact Hgood |].
  rewrite (bind_ok _ _ _ _ _ Hus).
  assert (Hsel : ∀ i, i ∈ i0 :: rest →
            ∃ p, all_params s tape !! i = Some p ∧ leading_dim p = Some B).
  { by apply Forall_forall. }
  unfold operations_ok, operations in Hops. rewrite forallb_app in Hops.
  apply andb_prop in Hops as [Hprep Hgate].
  assert (Hlen : length (all_params s tape)
                 = length (concat (map (data_at s) (_prep tape)))
                   + length (concat (map (data_at s) (_ops tape)))).
  { unfold all_params, operations. by rewrite map_app, concat_app, length_app. }
  destruct (foldM_batch_step_ok (all_params s tape) (i0 :: rest) B Hsel
              (prep tape) 0 (replicate B []) s Hprep)
    as (new_preps & s1 & Hrun1 & Hlen1 & Hpre1).
  { unfold prep. lia. }
  { apply length_replicate. }
  rewrite (bind_ok _ _ _ _ _ Hrun1). cbn beta iota.
  unfold operations, prep. rewrite filter_not_in_prep.
  set (ops := List.filter _ (_ops tape)).
  assert (Hgate' : forallb (is_op s) ops = true) by by apply forallb_filter.
  destruct (prefix_params _ _ _ Hpre1 Hgate') as [Hgate1 Hdata1].
  destruct (foldM_batch_step_ok (all_params s tape) (i0 :: rest) B Hsel
              ops (0 + length (concat (map (data_at s) (_prep tape))))
              (replicate B []) s1 Hgate1)
    as (new_ops & s2 & Hrun2 & Hlen2 & Hpre2).
  { rewrite Hdata1.
    pose proof (length_concat_filter (data_at s)
                  (λ op, negb (existsb (Nat.eqb op) (_prep tape))) (_ops tape)).
    fold ops in H. lia. }
  { apply length_replicate. }
  rewrite (bind_ok _ _ _ _ _ Hrun2). cbn beta iota.
  eexists _, s2. split; [reflexivity |]. split.
  - rewrite length_zip_with, Hlen1, Hlen2. lia.
  - apply Forall_zip_with_all. intros x y. by repeat split.
Qed.

Lemma selected_indices_in_range (tape : QuantumScript) (all_operations : bool)
    (s : list object) :
  trainable_ok s tape = true →
  Forall (λ i, i < length (all_params s tape)) (selected_indices s tape all_operations).
Proof.
  intros Ht. unfold selected_indices. destruct all_operations.
  - apply Forall_seq. intros j Hj. lia.
  - apply Forall_forall. intros i Hi. unfold trainable_ok in Ht.
    rewrite forallb_forall in Ht. apply Nat.ltb_lt. apply Ht.
    by apply list_elem_of_In.
Qed.

(** C1, as stated, fails: with [all_operations=True] both parameters are
    selected, the first selected one is the scalar of operation 1, which
    has no dimension, and [batch_params] raises the usage error instead of
    returning tapes. *)
Lemma batch_params_scenario_counterexample :
  data_at rx_ry_store 0 = [scalar_param "numpy" false (1 # 10)]
  ∧ shape (scalar_param "numpy" false (1 # 10)) = []
  ∧ data_at rx_ry_store 1 = [vector3_param "numpy" false (1 # 5) (3 # 10) (2 # 5)]
  ∧ shape (vector3_param "numpy" false (1 # 5) (3 # 10) (2 # 5)) = [3]
  ∧ batch_params (scenario_tape ShotsNone [0; 1]) true rx_ry_store = Raise ValueError.
Proof. repeat split. Qed.

(** C1, amended: for the tape with two gate operations and one
    expectation-value measurement, where the parameter of operation 1 is a
    scalar and that of operation 2 has shape [(3,)], [batch_params] with
    operation 2's parameter as the only trainable one and
    [all_operations=False] returns exactly 3 tapes; in each of them
    operation 1 is the reference of the input tape (position 0 of the
    store), and operation 2 is a new operator holding [param[0]],
    [param[1]], [param[2]] respectively. *)
Theorem batch_params_scenario (op1 op2 observable : Operator) (w : list nat) (sh : Shots)
    (i1 i2 : string) (g1 g2 : bool) (x y0 y1 y2 : Q) :
  batch_params (scenario_tape sh [1]) false
    (scenario_store op1 op2 observable w
       (scalar_param i1 g1 x) (vector3_param i2 g2 y0 y1 y2))
  = Ok ([ mkQuantumScript [0; 4] [3] [] sh [1] None;
          mkQuantumScript [0; 5] [3] [] sh [1] None;
          mkQuantumScript [0; 6] [3] [] sh [1] None ],
        scenario_store op1 op2 observable w
          (scalar_param i1 g1 x) (vector3_param i2 g2 y0 y1 y2)
        ++ [ ObjOperator (set_data op2 [scalar_param i2 g2 y0]);
             ObjOperator (set_data op2 [scalar_param i2 g2 y1]);
             ObjOperator (set_data op2 [scalar_param i2 g2 y2]) ]).
Proof. reflexivity. Qed.

(** C7: on a tape whose selected parameters (the trainable ones, or all of
    them when [all_operations=True]) all have the leading dimension [B],
    [batch_params] returns exactly [B] tapes, each with the
    [trainable_params], the shots and the measurements of the input. *)
Theorem batch_params_one_tape_per_batch_index
    (tape : QuantumScript) (all_operations : bool) (s : list object) (B : nat) :
  operations_ok s tape = true →
  selected_indices s tape all_operations ≠ [] →
  (∀ i, i ∈ selected_indices s tape all_operations →
        ∃ p, all_params s tape !! i = Some p ∧ leading_dim p = Some B) →
  ∃ tapes s',
    batch_params tape all_operations s = Ok (tapes, s')
    ∧ length tapes = B
    ∧ Forall (keeps_metadata tape) tapes.
Proof.
  intros Hops Hne Hsel.
  assert (Hrange : Forall (λ i, i < length (all_params s tape))
                          (selected_indices s tape all_operations)).
  { apply Forall_forall. intros i Hi. destruct (Hsel _ Hi) as (p & Hp & _).
    by eapply lookup_lt_Some. }
  destruct (batch_params_cases tape all_operations s Hops Hrange)
    as [[Hnil _] | (i0 & rest & p0 & Hind & Hp0 & Hcase)]; [contradiction |].
  destruct (Hsel i0) as (p & Hp & Hd); [rewrite Hind; by left |].
  rewrite Hp0 in Hp. injection Hp as <-.
  destruct Hcase as [[Hs _] | (B' & Hd' & Hcase)].
  { unfold leading_dim in Hd. by rewrite Hs in Hd. }
  rewrite Hd in Hd'. injection Hd' as <-.
  destruct Hcase as [[Hbad _] | [_ Hok]]; [| exact Hok].
  apply Exists_exists in Hbad as (i & Hi & p & Hp & Hbad).
  destruct (Hsel _ Hi) as (p' & Hp' & Hd').
  rewrite Hp in Hp'. injection Hp' as <-. contradiction.
Qed.

(** [RY([0.2, 0.3, 0.4], 1)] trainable: three tapes. *)
Lemma batch_params_one_tape_per_batch_index_witness :
  operations_ok rx_ry_store (scenario_tape ShotsNone [1]) = true
  ∧ selected_indices rx_ry_store (scenario_tape ShotsNone [1]) false = [1]
  ∧ option_map leading_dim (all_params rx_ry_store (scenario_tape ShotsNone [1]) !! 1)
    = Some (Some 3)
  ∧ ∃ tapes s',
      batch_params (scenario_tape ShotsNone [1]) false rx_ry_store = Ok (tapes, s')
      ∧ length tapes = 3
      ∧ Forall (keeps_metadata (scenario_tape ShotsNone [1])) tapes.
Proof.
  split; [reflexivity |]. split; [reflexivity |]. split; [reflexivity |].
  apply (batch_params_one_tape_per_batch_index (scenario_tape ShotsNone [1]) false
           rx_ry_store 3).
  - reflexivity.
  - discriminate.
  - intros i Hi. apply list_elem_of_singleton in Hi. subst i.
    eexists. split; reflexivity.
Defined.

(** C4: on a tape whose operations are operators and whose trainable
    indices are positions of the parameter list, [batch_params] raises the
    usage error exactly when no index is selected, or the first selected
    parameter has no dimension, or some selected parameter has a leading
    dimension other than that of the first selected parameter (or none);
    in every other case it returns tapes.  No index is selected when
    [all_operations] is false and the tape has no trainable parameter, and
    when [all_operations] is true and the tape has no parameter at all. *)
Theorem batch_params_usage_errors
    (tape : QuantumScript) (all_operations : bool) (s : list object) :
  operations_ok s tape = true →
  trainable_ok s tape = true →
  (batch_params tape all_operations s = Raise ValueError
   ↔ selected_indices s tape all_operations = []
     ∨ (∃ i0 p0, head (selected_indices s tape all_operations) = Some i0
                 ∧ all_params s tape !! i0 = Some p0
                 ∧ shape p0 = [])
     ∨ (∃ i0 p0 B i p, head (selected_indices s tape all_operations) = Some i0
                       ∧ all_params s tape !! i0 = Some p0
                       ∧ leading_dim p0 = Some B
                       ∧ i ∈ selected_indices s tape all_operations
                       ∧ all_params s tape !! i = Some p
                       ∧ leading_dim p ≠ Some B))
  ∧ (batch_params tape all_operations s = Raise ValueError
     ∨ ∃ tapes s', batch_params tape all_operations s = Ok (tapes, s'))
  ∧ (selected_indices s tape all_operations = []
     ↔ if all_operations then all_params s tape = [] else trainable_params tape = []).
Proof.
  intros Hops Htr.
  rewrite (and_assoc _ _ (selected_indices s tape all_operations = [] ↔ _)).
  split.
  2: { unfold selected_indices. destruct all_operations; [| done].
       destruct (all_params s tape); simpl; split; (done || discriminate). }
  pose proof (selected_indices_in_range tape all_operations s Htr) as Hrange.
  destruct (batch_params_cases tape all_operations s Hops Hrange)
    as [[Hnil Hres] | (i0 & rest & p0 & Hind & Hp0 & Hcase)].
  { rewrite Hres. split; [| by left]. split; [by left | done]. }
  rewrite Hind in Hcase |- *.
  destruct Hcase as [[Hs Hres] | (B & Hd & Hcase)].
  { rewrite Hres. split; [| by left]. split; [| done].
    intros _. right. left. by exists i0, p0. }
  destruct Hcase as [[Hbad Hres] | [Hgood (tapes & s' & Hres & _)]].
  { rewrite Hres. split; [| by left]. split; [| done].
    intros _. right. right.
    apply Exists_exists in Hbad as (i & Hi & p & Hp & Hbad).
    by exists i0, p0, B, i, p. }
  rewrite Hres. split; [| right; by eexists _, _]. split; [discriminate |].
  intros [Hnil | [(j & q & Hj & Hq & Hs) | (j & q & B' & i & p & Hj & Hq & Hd' & Hi & Hp & Hbad)]].
  - discriminate.
  - simpl in Hj. injection Hj as <-. rewrite Hp0 in Hq. injection Hq as <-.
    unfold leading_dim in Hd. by rewrite Hs in Hd.
  - simpl in Hj. injection Hj as <-. rewrite Hp0 in Hq. injection Hq as <-.
    rewrite Hd in Hd'. injection Hd' as <-.
    rewrite Forall_forall in Hgood. destruct (Hgood _ Hi) as (p' & Hp' & Hd').
    rewrite Hp in Hp'. injection Hp' as <-. contradiction.
Qed.

(** No trainable parameter and [all_operations=False]: the usage error. *)
Lemma batch_params_usage_errors_witness :
  operations_ok rx_ry_store (scenario_tape ShotsNone []) = true
  ∧ trainable_ok rx_ry_store (scenario_tape ShotsNone []) = true
  ∧ selected_indices rx_ry_store (scenario_tape ShotsNone []) false = []
  ∧ batch_params (scenario_tape ShotsNone []) false rx_ry_store = Raise ValueError.
Proof.
  split; [reflexivity |]. split; [reflexivity |]. split; [reflexivity |].
  apply (proj1 (batch_params_usage_errors (scenario_tape ShotsNone []) false rx_ry_store
                  eq_refl eq_refl)).
  left. reflexivity.
Defined.

(* ===================================================================== *)
(** ** More on [convert_to_numpy_parameters] *)

Lemma pyval_nested_ind (P : pyval → Prop) :
  (∀ t, P (VArray t)) →
  (∀ d, P (VDict d)) →
  (∀ l, Forall P l → P (VList l)) →
  (∀ l, Forall P l → P (VTuple l)) →
  ∀ v, P v.
Proof.
  intros Ha Hd Hl Ht.
  fix IH 1. intros [t|d|l|l].
  - apply Ha.
  - apply Hd.
  - apply Hl. induction l as [|x l IHl]; constructor; [apply IH | exact IHl].
  - apply Ht. induction l as [|x l IHl]; constructor; [apply IH | exact IHl].
Qed.

Lemma interface_of_to_numpy (v : pyval) : interface_of (to_numpy v) = "numpy".
Proof.
  induction v as [t|d|l IH|l IH] using pyval_nested_ind; simpl; try reflexivity.
  - destruct IH as [|x l Hx _]; [reflexivity | exact Hx].
  - destruct IH as [|x l Hx _]; [reflexivity | exact Hx].
Qed.

Lemma get_interface_unwrap_model (d : list pyval) :
  get_interface_model (unwrap_model d) = "numpy".
Proof.
  destruct d as [|v d]; [reflexivity |]. simpl. apply interface_of_to_numpy.
Qed.

Section ConvertMore.
Context `{MI : Math}.

(** [numpy_op] and [numpy_meas], provided that unwrapped data is plain
    numpy. *)
Let unwrapped_op (s : list object) (r : nat) : Prop :=
  (∀ d, get_interface (unwrap d) = "numpy") → numpy_op s r.

Let unwrapped_meas (s : list object) (r : nat) : Prop :=
  (∀ d, get_interface (unwrap d) = "numpy") → numpy_meas s r.

Lemma _convert_op_to_numpy_data_post (s : list object) (r : nat) :
  is_op s r = true →
  ∃ y s', _convert_op_to_numpy_data r s = Ok (y, s')
          ∧ evolves s s'
          ∧ (numpy_op s r → y = r ∧ s' = s)
          ∧ unwrapped_op s' y.
Proof.
  intros H. destruct (is_op_lookup _ _ H) as [o Ho].
  rewrite (_convert_op_to_numpy_data_run _ _ _ Ho).
  destruct (String.eqb _ _) eqn:Hi.
  - exists r, s. split; [done |]. split; [apply evolves_refl |]. split; [done |].
    intros _. exists o. split; [exact Ho | by apply String.eqb_eq].
  - do 2 eexists. split; [done |]. split; [apply evolves_snoc |]. split.
    + intros (o' & Ho' & Hn). rewrite Ho in Ho'. injection Ho' as <-.
      apply String.eqb_neq in Hi. contradiction.
    + intros Hun. eexists. split; [apply lookup_snoc_new |]. simpl. apply Hun.
Qed.

Lemma _convert_measurement_to_numpy_data_post (s : list object) (r : nat) :
  is_meas s r = true →
  ∃ y s', _convert_measurement_to_numpy_data r s = Ok (y, s')
          ∧ evolves s s'
          ∧ (numpy_meas s r → y = r ∧ s' = s)
          ∧ unwrapped_meas s' y.
Proof.
  intros H. unfold is_meas in H.
  destruct (s !! r) as [[o|mp]|] eqn:Hr; try discriminate.
  destruct (obs mp) as [m_obs|] eqn:Hobs.
  - pose proof H as Hok. unfold obs_ok in H.
    destruct (s !! m_obs) as [[o|m']|] eqn:Ho; try discriminate.
    destruct (String.eqb (get_interface (data o)) "numpy") eqn:Hi.
    + exists r, s. split; [| split; [apply evolves_refl | split; [done |]]].
      * unfold _convert_measurement_to_numpy_data.
        rewrite (bind_ok _ _ _ _ _ (load_meas_ok _ _ _ Hr)). rewrite Hobs.
        rewrite (bind_ok _ _ _ _ _ (load_op_ok _ _ _ Ho)). rewrite Hi. reflexivity.
      * intros _. exists mp. split; [exact Hr |]. rewrite Hobs.
        exists o. split; [exact Ho | by apply String.eqb_eq].
    + rewrite (_convert_measurement_to_numpy_data_run _ _ _ _ _ Hr Hobs Ho Hok Hi).
      do 2 eexists. split; [reflexivity |]. split; [| split].
      * apply evolves_app.
      * intros (m & Hm & Hnum). rewrite Hr in Hm. injection Hm as <-.
        rewrite Hobs in Hnum. destruct Hnum as (o' & Ho' & Hn).
        rewrite Ho in Ho'. injection Ho' as <-.
        apply String.eqb_neq in Hi. contradiction.
      * intros Hun. eexists. split; [apply lookup_app_second |].
        simpl obs. cbv iota. eexists. split; [apply lookup_app_first |].
        simpl. apply Hun.
  - exists r, s. split; [| split; [apply evolves_refl | split; [done |]]].
    + unfold _convert_measurement_to_numpy_data.
      rewrite (bind_ok _ _ _ _ _ (load_meas_ok _ _ _ Hr)). rewrite Hobs. reflexivity.
    + intros _. exists mp. split; [exact Hr |]. by rewrite Hobs.
Qed.

Lemma mapM_evolves_post (f : nat → M nat) (P : list object → nat → bool)
    (K Q : list object → nat → Prop) :
  (∀ s x, P s x = true →
     ∃ y s', f x s = Ok (y, s') ∧ evolves s s' ∧ (K s x → y = x ∧ s' = s) ∧ Q s' y) →
  (∀ s s' x, evolves s s' → P s x = true → P s' x = true) →
  (∀ s s' x, evolves s s' → Q s x → Q s' x) →
  ∀ (l : list nat) (s : list object),
    forallb (P s) l = true →
    ∃ ys s', mapM f l s = Ok (ys, s')
             ∧ evolves s s'
             ∧ Forall (Q s') ys
             ∧ (Forall (K s) l → ys = l ∧ s' = s).
Proof.
  intros Hf HP HQ. induction l as [|x l IH]; intros s Hl; simpl.
  - exists [], s. split; [done |]. split; [apply evolves_refl |]. by split.
  - simpl in Hl. apply andb_prop in Hl as [Hx Hl].
    destruct (Hf _ _ Hx) as (y & s1 & Hrun & He1 & Hkeep & Hq).
    assert (Hl1 : forallb (P s1) l = true).
    { rewrite forallb_forall in Hl |- *. intros z Hz. eapply HP; eauto. }
    destruct (IH _ Hl1) as (ys & s2 & Hrun2 & He2 & Hqs & Hkeep2).
    exists (y :: ys), s2.
    split; [| split; [by eapply evolves_trans | split]].
    + rewrite (bind_ok _ _ _ _ _ Hrun). rewrite (bind_ok _ _ _ _ _ Hrun2). reflexivity.
    + constructor; [by eapply HQ | exact Hqs].
    + intros Hall. apply Forall_cons in Hall as [Hkx Hkl].
      destruct (Hkeep Hkx) as [-> ->]. destruct (Hkeep2 Hkl) as [-> ->]. done.
Qed.

(** The complete outcome of [convert_to_numpy_parameters] on a well-formed
    circuit, from which the properties below are read. *)
Lemma convert_to_numpy_parameters_outcome (circuit : QuantumScript) (s : list object) :
  well_formed s circuit = true →
  ∃ new_prep new_ops new_ms post s',
    convert_to_numpy_parameters circuit s
    = Ok ((mkQuantumScript new_ops new_ms new_prep (shots circuit)
                           (trainable_params circuit) (_qfunc_output circuit), post), s')
    ∧ evolves s s'
    ∧ ((∀ d, get_interface (unwrap d) = "numpy") →
       Forall (numpy_op s') (new_prep ++ new_ops) ∧ Forall (numpy_meas s') new_ms)
    ∧ (Forall (numpy_op s) (operations circuit) →
       Forall (numpy_meas s) (measurements circuit) →
       new_prep = _prep circuit ∧ new_ops = _ops circuit
       ∧ new_ms = measurements circuit ∧ s' = s).
Proof.
  intros Hwf. unfold well_formed in Hwf.
  apply andb_prop in Hwf as [Hwf Htr]. apply andb_prop in Hwf as [Hops Hms].
  destruct (get_parameters_trainable _ _ Hops Htr) as [ps Hps].
  unfold operations_ok, operations in Hops. rewrite forallb_app in Hops.
  apply andb_prop in Hops as [Hprep Hops].
  assert (HQop : ∀ a b x, evolves a b → unwrapped_op a x → unwrapped_op b x).
  { intros a b x He Hq Hun. eapply evolves_numpy_op; [exact He | by apply Hq]. }
  assert (HQms : ∀ a b x, evolves a b → unwrapped_meas a x → unwrapped_meas b x).
  { intros a b x He Hq Hun. eapply evolves_numpy_meas; [exact He | by apply Hq]. }
  destruct (mapM_evolves_post _convert_op_to_numpy_data is_op numpy_op unwrapped_op
              _convert_op_to_numpy_data_post
              (λ a b x He, evolves_is_op a b x He) HQop
              _ _ Hprep) as (new_prep & s1 & Hrun1 & He1 & Hq1 & Hid1).
  pose proof (evolves_forallb_is_op _ _ _ He1 Hops) as Hops1.
  destruct (mapM_evolves_post _convert_op_to_numpy_data is_op numpy_op unwrapped_op
              _convert_op_to_numpy_data_post
              (λ a b x He, evolves_is_op a b x He) HQop
              _ _ Hops1) as (new_ops & s2 & Hrun2 & He2 & Hq2 & Hid2).
  assert (Hms2 : forallb (is_meas s2) (measurements circuit) = true).
  { unfold measurements_ok in Hms. rewrite forallb_forall in Hms |- *.
    intros z Hz. eapply evolves_is_meas; [| by apply Hms].
    by eapply evolves_trans. }
  destruct (mapM_evolves_post _convert_measurement_to_numpy_data is_meas numpy_meas
              unwrapped_meas
              _convert_measurement_to_numpy_data_post
              (λ a b x He, evolves_is_meas a b x He) HQms
              _ _ Hms2) as (new_ms & s3 & Hrun3 & He3 & Hq3 & Hid3).
  exists new_prep, new_ops, new_ms. eexists _, s3. split.
  { unfold convert_to_numpy_parameters.
    rewrite (bind_ok _ _ _ _ _ Hps). rewrite (bind_ok _ _ _ _ _ Hrun1).
    rewrite (bind_ok _ _ _ _ _ Hrun2). rewrite (bind_ok _ _ _ _ _ Hrun3).
    reflexivity. }
  split; [eapply evolves_trans; [eapply evolves_trans |]; eassumption |].
  split.
  - intros Hun. split.
    + apply Forall_app. split.
      * eapply Forall_impl; [exact Hq1 |]. intros y Hy.
        eapply evolves_numpy_op; [| by apply Hy]. by eapply evolves_trans.
      * eapply Forall_impl; [exact Hq2 |]. intros y Hy.
        eapply evolves_numpy_op; [exact He3 | by apply Hy].
    + eapply Forall_impl; [exact Hq3 |]. intros y Hy. by apply Hy.
  - intros Hallops Hallms. unfold operations in Hallops.
    apply Forall_app in Hallops as [Hp Ho].
    destruct (Hid1 Hp) as [-> ->]. destruct (Hid2 Ho) as [-> ->].
    destruct (Hid3 Hallms) as [-> ->]. done.
Qed.

End ConvertMore.

(** X1: provided that unwrapped data is in the plain numpy interface, the
    circuit returned by [convert_to_numpy_parameters] has purely numpy
    parameters: in the store after the call, every state preparation and
    operation of the new circuit has numpy data, and every measurement of
    the new circuit has no observable or one with numpy data. *)
Theorem convert_output_is_numpy `{MI : Math} (circuit : QuantumScript) (s : list object) :
  (∀ d, get_interface (unwrap d) = "numpy") →
  well_formed s circuit = true →
  ∃ new_circuit post s',
    convert_to_numpy_parameters circuit s = Ok ((new_circuit, post), s')
    ∧ Forall (numpy_op s') (operations new_circuit)
    ∧ Forall (numpy_meas s') (measurements new_circuit).
Proof.
  intros Hun Hwf.
  destruct (convert_to_numpy_parameters_outcome circuit s Hwf)
    as (new_prep & new_ops & new_ms & post & s' & Hrun & _ & Hnum & _).
  destruct (Hnum Hun) as [Hops Hms].
  eexists _, post, s'. split; [exact Hrun |]. by split.
Qed.

(** The circuit of the unit test: all of the new circuit is numpy. *)
Lemma convert_output_is_numpy_witness :
  well_formed torch_store torch_circuit = true
  ∧ ∃ new_circuit post s',
      convert_to_numpy_parameters (MI := math_model) torch_circuit torch_store
      = Ok ((new_circuit, post), s')
      ∧ Forall (numpy_op (MI := math_model) s') (operations new_circuit)
      ∧ Forall (numpy_meas (MI := math_model) s') (measurements new_circuit).
Proof.
  split; [reflexivity |].
  apply (convert_output_is_numpy (MI := math_model) torch_circuit torch_store).
  - exact get_interface_unwrap_model.
  - reflexivity.
Defined.

(** X2: on a circuit whose operations and measurements are all in the
    plain numpy interface already, [convert_to_numpy_parameters] returns
    the very same operation and measurement references, with the same
    shots, trainable parameters and output tag, and leaves the store as it
    is. *)
Theorem convert_numpy_circuit_is_identity `{MI : Math}
    (circuit : QuantumScript) (s : list object) :
  well_formed s circuit = true →
  Forall (numpy_op s) (operations circuit) →
  Forall (numpy_meas s) (measurements circuit) →
  ∃ post, convert_to_numpy_parameters circuit s = Ok ((circuit, post), s).
Proof.
  intros Hwf Hops Hms.
  destruct (convert_to_numpy_parameters_outcome circuit s Hwf)
    as (new_prep & new_ops & new_ms & post & s' & Hrun & _ & _ & Hid).
  destruct (Hid Hops Hms) as (-> & -> & -> & ->).
  exists post. rewrite Hrun. by destruct circuit.
Qed.

(** A circuit in the numpy interface comes back as it is. *)
Lemma convert_numpy_circuit_is_identity_witness :
  well_formed numpy_store numpy_circuit = true
  ∧ Forall (numpy_op (MI := math_model) numpy_store) (operations numpy_circuit)
  ∧ Forall (numpy_meas (MI := math_model) numpy_store) (measurements numpy_circuit)
  ∧ ∃ post,
      convert_to_numpy_parameters (MI := math_model) numpy_circuit numpy_store
      = Ok ((numpy_circuit, post), numpy_store).
Proof.
  assert (Hops : Forall (numpy_op (MI := math_model) numpy_store) (operations numpy_circuit)).
  { repeat constructor; eexists; (split; [reflexivity |]); reflexivity. }
  assert (Hms : Forall (numpy_meas (MI := math_model) numpy_store) (measurements numpy_circuit)).
  { repeat constructor. eexists. split; [reflexivity |]. simpl.
    eexists. split; reflexivity. }
  split; [reflexivity |]. split; [exact Hops |]. split; [exact Hms |].
  exact (convert_numpy_circuit_is_identity (MI := math_model) numpy_circuit numpy_store
           eq_refl Hops Hms).
Defined.

(** X4: the post-processing function returned by
    [convert_to_numpy_parameters] raises [IndexError] on an empty batch
    of results. *)
Theorem postprocessing_empty_batch `{MI : Math}
    (circuit : QuantumScript) (s s' : list object) (new_circuit : QuantumScript)
    (post : list pyval → result pyval) :
  convert_to_numpy_parameters circuit s = Ok ((new_circuit, post), s') →
  post [] = Raise IndexError.
Proof.
  intros Hconv. destruct (convert_post _ _ _ _ _ Hconv) as [like ->]. reflexivity.
Qed.

Lemma postprocessing_empty_batch_witness :
  ∃ new_circuit post s',
    convert_to_numpy_parameters (MI := math_model) torch_circuit torch_store
    = Ok ((new_circuit, post), s')
    ∧ post [] = Raise IndexError.
Proof.
  eexists _, _, _. split; [vm_compute; reflexivity |].
  eapply (postprocessing_empty_batch (MI := math_model) torch_circuit torch_store).
  vm_compute. reflexivity.
Defined.

(* ===================================================================== *)
(** ** More on [batch_params] *)

Lemma bind_inv {A B} (c : M A) (k : A → M B) (s s' : list object) (b : B) :
  bind c k s = Ok (b, s') → ∃ a s1, c s = Ok (a, s1) ∧ k a s1 = Ok (b, s').
Proof. unfold bind. destruct (c s) as [[a s1]|e]; [eauto | discriminate]. Qed.

Lemma ret_inv {A} (a b : A) (s s' : list object) :
  ret a s = Ok (b, s') → b = a ∧ s' = s.
Proof. unfold ret. by intros [= -> ->]. Qed.

Lemma load_op_inv (r : nat) (s s' : list object) (o : Operator) :
  load_op r s = Ok (o, s') → s !! r = Some (ObjOperator o) ∧ s' = s.
Proof.
  unfold load_op. destruct (s !! r) as [[o'|m]|]; try discriminate.
  by intros [= -> ->].
Qed.

Lemma mapM_sliced_param_inv (params : list pyval) (indices : list nat) (b : nat)
    (rng : list nat) (s s' : list object) (xs : list pyval) :
  mapM (sliced_param params indices b) rng s = Ok (xs, s') →
  s' = s
  ∧ length xs = length rng
  ∧ ∀ k i, rng !! k = Some i →
      ∃ p, params !! i = Some p
           ∧ xs !! k = (if in_indices i indices then getitem p b else Some p).
Proof.
  revert xs. induction rng as [|i rng IH]; intros xs Hrun; simpl in Hrun.
  - apply ret_inv in Hrun as [-> ->]. split; [done |]. split; [done |].
    intros k i Hk. by rewrite lookup_nil in Hk.
  - apply bind_inv in Hrun as (x & s1 & Hx & Hrun).
    apply bind_inv in Hrun as (ys & s2 & Hys & Hrun).
    apply ret_inv in Hrun as [-> ->].
    assert (Hs1 : s1 = s ∧ ∃ p, params !! i = Some p
                   ∧ Some x = (if in_indices i indices then getitem p b else Some p)).
    { unfold sliced_param in Hx. destruct (params !! i) as [p|]; [| discriminate].
      destruct (in_indices i indices).
      - destruct (getitem p b) as [y|] eqn:Hg; [| discriminate].
        apply ret_inv in Hx as [-> ->]. split; [done |]. exists p. by rewrite Hg.
      - apply ret_inv in Hx as [-> ->]. split; [done |]. by exists p. }
    destruct Hs1 as (-> & p & Hp & Hxp).
    destruct (IH _ Hys) as (-> & Hlen & Hspec).
    split; [done |]. split; [simpl; by rewrite Hlen |].
    intros [|k] j Hk; simpl in Hk.
    + injection Hk as <-. exists p. by split.
    + by apply Hspec.
Qed.

Section BatchEntries.
Variables (params : list pyval) (indices : list nat) (batch_dim : nat).

Lemma batch_entry_mono (s0 s1 s1' s2' : list object) (b start r : nat) (o : Operator)
    (e : option nat) :
  s0 `prefix_of` s1 → s1' `prefix_of` s2' →
  batch_entry params indices s1 s1' b start r o e →
  batch_entry params indices s0 s2' b start r o e.
Proof.
  intros H0 H1. unfold batch_entry. destruct (existsb _ _); [| done].
  intros (r' & xs & He & Hge & Hl & Hrest). exists r', xs.
  split; [exact He |]. split; [apply prefix_length in H0; lia |].
  split; [by eapply prefix_lookup_Some | exact Hrest].
Qed.

Lemma created_inv (op : nat) (o : Operator) (start : nat) (bs : list nat)
    (s s' : list object) (created : list nat) :
  s !! op = Some (ObjOperator o) →
  mapM (λ b, new_params <- mapM (sliced_param params indices b)
                                 (seq start (length (data o))) ;;
             bind_new_parameters op new_params) bs s
  = Ok (created, s') →
  s `prefix_of` s'
  ∧ length created = length bs
  ∧ ∀ n b, bs !! n = Some b →
      ∃ r' xs,
        created !! n = Some r'
        ∧ length s ≤ r'
        ∧ s' !! r' = Some (ObjOperator (set_data o xs))
        ∧ length xs = length (data o)
        ∧ ∀ k, k < length (data o) →
            ∃ p, params !! (start + k) = Some p
                 ∧ xs !! k = (if in_indices (start + k) indices then getitem p b else Some p).
Proof.
  revert s created. induction bs as [|b bs IH]; intros s created Hop Hrun; simpl in Hrun.
  - apply ret_inv in Hrun as [-> ->]. split; [done |]. split; [done |].
    intros n b Hn. by rewrite lookup_nil in Hn.
  - apply bind_inv in Hrun as (r' & s1 & Hr' & Hrun).
    apply bind_inv in Hrun as (cs & s2 & Hcs & Hrun).
    apply ret_inv in Hrun as [-> Hs']. subst s2.
    apply bind_inv in Hr' as (xs & s0 & Hxs & Hbind).
    apply mapM_sliced_param_inv in Hxs as (-> & Hlen & Hspec).
    unfold bind_new_parameters in Hbind.
    rewrite (bind_ok _ _ _ _ _ (load_op_ok _ _ _ Hop)) in Hbind.
    unfold alloc in Hbind. injection Hbind as <- <-.
    destruct (IH _ _ (lookup_snoc_old _ _ _ _ Hop) Hcs) as (Hpre & Hlenc & Hrest).
    assert (Hpre0 : s `prefix_of` s') by (etrans; [by apply prefix_app_r | exact Hpre]).
    split; [exact Hpre0 |]. split; [simpl; by rewrite Hlenc |].
    intros [|n] b' Hn; simpl in Hn.
    + injection Hn as <-. exists (length s), xs. split; [done |]. split; [done |].
      split; [eapply prefix_lookup_Some; [apply lookup_snoc_new | exact Hpre] |].
      split; [by rewrite Hlen, length_seq |].
      intros k Hk. apply Hspec. by apply lookup_seq_lt.
    + destruct (Hrest _ _ Hn) as (r'' & ys & Hc & Hge & Hrest').
      exists r'', ys. split; [exact Hc |]. split; [| exact Hrest'].
      rewrite length_app in Hge. simpl in Hge. lia.
Qed.

Lemma batch_step_inv (idx idx' : nat) (rows rows' : list (list nat)) (op : nat)
    (o : Operator) (s s' : list object) :
  s !! op = Some (ObjOperator o) →
  length rows = batch_dim →
  batch_step params indices batch_dim (idx, rows) op s = Ok ((idx', rows'), s') →
  idx' = idx + length (data o)
  ∧ s `prefix_of` s'
  ∧ length rows' = batch_dim
  ∧ ∀ b row, rows !! b = Some row →
      ∃ e, rows' !! b = Some (row ++ [e])
           ∧ batch_entry params indices s s' b idx op o (Some e).
Proof.
  intros Hop Hrows Hrun. unfold batch_step in Hrun.
  rewrite (bind_ok _ _ _ _ _ (load_op_ok _ _ _ Hop)) in Hrun.
  destruct (existsb (λ i, in_indices i indices) (seq idx (length (data o)))) eqn:Hex.
  - apply bind_inv in Hrun as (created & s1 & Hc & Hrun).
    apply ret_inv in Hrun as [[= -> ->] ->].
    destruct (created_inv _ _ _ _ _ _ _ Hop Hc) as (Hpre & Hlen & Hspec).
    rewrite length_seq in Hlen.
    split; [done |]. split; [exact Hpre |].
    split; [rewrite length_zip_with, Hlen, Hrows; lia |].
    intros b row Hb.
    assert (Hlt : b < batch_dim) by (rewrite <- Hrows; by eapply lookup_lt_Some).
    destruct (Hspec b b (lookup_seq_lt 0 _ _ Hlt)) as (r' & xs & Hcb & Hrest).
    exists r'. split.
    + rewrite lookup_zip_with, Hb. simpl. by rewrite Hcb.
    + unfold batch_entry. rewrite Hex. exists r', xs. by split.
  - apply ret_inv in Hrun as [[= -> ->] ->].
    split; [done |]. split; [done |]. split; [by rewrite length_map |].
    intros b row Hb. exists op. split.
    + by rewrite list_lookup_fmap, Hb.
    + unfold batch_entry. by rewrite Hex.
Qed.

Lemma offset_in_cons (s : list object) (r : nat) (l : list nat) (j : nat) :
  offset_in s (r :: l) (S j) = length (data_at s r) + offset_in s l j.
Proof. unfold offset_in. simpl. by rewrite length_app. Qed.

Lemma foldM_batch_step_inv (l : list nat) :
  ∀ (idx idx' : nat) (rows rows' : list (list nat)) (s s' : list object),
    forallb (is_op s) l = true →
    length rows = batch_dim →
    foldM (batch_step params indices batch_dim) (idx, rows) l s = Ok ((idx', rows'), s') →
    idx' = idx + length (concat (map (data_at s) l))
    ∧ s `prefix_of` s'
    ∧ length rows' = batch_dim
    ∧ ∀ b row, rows !! b = Some row →
        ∃ added,
          rows' !! b = Some (row ++ added)
          ∧ length added = length l
          ∧ ∀ j r o, l !! j = Some r → s !! r = Some (ObjOperator o) →
              batch_entry params indices s s' b (idx + offset_in s l j) r o (added !! j).
Proof.
  induction l as [|r l IH]; intros idx idx' rows rows' s s' Hl Hrows Hrun; simpl in Hrun.
  - apply ret_inv in Hrun as [[= -> ->] ->]. simpl.
    split; [lia |]. split; [done |]. split; [done |].
    intros b row Hb. exists []. rewrite app_nil_r. split; [done |]. split; [done |].
    intros j r o Hj. by rewrite lookup_nil in Hj.
  - simpl in Hl. apply andb_prop in Hl as [Hr Hl].
    destruct (is_op_lookup _ _ Hr) as [o Ho].
    apply bind_inv in Hrun as ([idx1 rows1] & s1 & Hstep & Hrun).
    destruct (batch_step_inv _ _ _ _ _ _ _ _ Ho Hrows Hstep)
      as (-> & Hpre1 & Hrows1 & Hent1).
    destruct (prefix_params _ _ _ Hpre1 Hl) as [Hl1 Hdata].
    destruct (IH _ _ _ _ _ _ Hl1 Hrows1 Hrun) as (-> & Hpre2 & Hrows2 & Hent2).
    split.
    { simpl. rewrite length_app, Hdata, (data_at_lookup _ _ _ Ho). lia. }
    split; [by etrans |]. split; [exact Hrows2 |].
    intros b row Hb. destruct (Hent1 _ _ Hb) as (e & Hb1 & He).
    destruct (Hent2 _ _ Hb1) as (added & Hb2 & Hlen & Hadded).
    exists (e :: added). split; [by rewrite Hb2, <- app_assoc |].
    split; [simpl; by rewrite Hlen |].
    intros [|j] r' o' Hj Hr'; simpl in Hj.
    + injection Hj as <-. rewrite Ho in Hr'. injection Hr' as <-.
      unfold offset_in. simpl. rewrite Nat.add_0_r.
      eapply batch_entry_mono; [reflexivity | exact Hpre2 | exact He].
    + rewrite offset_in_cons, (data_at_lookup _ _ _ Ho), Nat.add_assoc.
      assert (Hoff : offset_in s l j = offset_in s1 l j).
      { unfold offset_in. by rewrite Hdata. }
      rewrite Hoff. simpl.
      eapply batch_entry_mono; [exact Hpre1 | reflexivity |].
      apply Hadded; [exact Hj |]. by eapply prefix_lookup_Some.
Qed.

End BatchEntries.

Lemma mapM_check_batch_dim_inv (params : list pyval) (B : nat) (l : list nat)
    (s s' : list object) (us : list unit) :
  mapM (check_batch_dim params B) l s = Ok (us, s') → s' = s.
Proof.
  revert us. induction l as [|i l IH]; intros us Hrun; simpl in Hrun.
  - by apply ret_inv in Hrun as [_ ->].
  - apply bind_inv in Hrun as (u & s1 & Hu & Hrun).
    apply bind_inv in Hrun as (us' & s2 & Hus & Hrun).
    apply ret_inv in Hrun as [_ ->].
    assert (s1 = s) as ->.
    { unfold check_batch_dim in Hu. destruct (params !! i) as [p|]; [| discriminate].
      destruct (shape p) as [|d sh]; [discriminate |].
      destruct (d =? B); [| discriminate]. by apply ret_inv in Hu as [_ ->]. }
    by apply IH in Hus.
Qed.

(** The two loops behind a successful call of [batch_params]. *)
Lemma batch_params_inv (tape : QuantumScript) (all_operations : bool)
    (s s' : list object) (tapes : list QuantumScript) :
  operations_ok s tape = true →
  batch_params tape all_operations s = Ok (tapes, s') →
  ∃ B idx1 idx2 new_preps new_ops s1,
    foldM (batch_step (all_params s tape) (selected_indices s tape all_operations) B)
          (0, replicate B []) (prep tape) s
    = Ok ((idx1, new_preps), s1)
    ∧ foldM (batch_step (all_params s tape) (selected_indices s tape all_operations) B)
            (idx1, replicate B [])
            (List.filter (λ op, negb (existsb (Nat.eqb op) (prep tape))) (operations tape))
            s1
      = Ok ((idx2, new_ops), s')
    ∧ tapes = zip_with (λ prep ops,
                          mkQuantumScript ops (measurements tape) prep (shots tape)
                                          (trainable_params tape) None)
                       new_preps new_ops.
Proof.
  intros Hops Hrun. unfold batch_params in Hrun.
  rewrite (bind_ok _ _ _ _ _ (get_parameters_all _ _ Hops)) in Hrun.
  change (if all_operations then seq 0 (length (all_params s tape)) else trainable_params tape)
    with (selected_indices s tape all_operations) in Hrun.
  destruct (selected_indices s tape all_operations) as [|i0 rest] eqn:Hind; [discriminate |].
  apply bind_inv in Hrun as (B & s0 & HB & Hrun).
  assert (s0 = s) as ->.
  { destruct (all_params s tape !! i0) as [p|].
    - destruct (shape p); [discriminate |]. by apply ret_inv in HB as [_ ->].
    - destruct (all_params s tape); discriminate. }
  apply bind_inv in Hrun as (us & s0 & Hus & Hrun).
  apply mapM_check_batch_dim_inv in Hus as ->.
  apply bind_inv in Hrun as ([idx1 new_preps] & s1 & Hf1 & Hrun).
  apply bind_inv in Hrun as ([idx2 new_ops] & s2 & Hf2 & Hrun).
  apply ret_inv in Hrun as [-> Hs2]. subst s2.
  by exists B, idx1, idx2, new_preps, new_ops, s1.
Qed.

Lemma offset_in_app_l (s : list object) (l k : list nat) (j : nat) :
  j ≤ length l → offset_in s (l ++ k) j = offset_in s l j.
Proof.
  intros Hj. unfold offset_in. rewrite map_app, take_app_le; [done |].
  by rewrite length_map.
Qed.

Lemma offset_in_app_r (s : list object) (l k : list nat) (j : nat) :
  offset_in s (l ++ k) (length l + j)
  = length (concat (map (data_at s) l)) + offset_in s k j.
Proof.
  unfold offset_in. rewrite map_app.
  rewrite take_app_ge by (rewrite length_map; lia).
  rewrite concat_app, length_app, length_map.
  by replace (length l + j - length l) with j by lia.
Qed.

(** Every entry of every output tape, described against the operation of
    the input tape at the same position of the walk. *)
Lemma batch_params_entries (tape : QuantumScript) (all_operations : bool)
    (s s' : list object) (tapes : list QuantumScript) :
  operations_ok s tape = true →
  batch_params tape all_operations s = Ok (tapes, s') →
  ∀ b t, tapes !! b = Some t →
    length (_prep t) = length (prep tape)
    ∧ length (operations t) = length (batch_walk tape)
    ∧ ∀ j r o, batch_walk tape !! j = Some r → s !! r = Some (ObjOperator o) →
        batch_entry (all_params s tape) (selected_indices s tape all_operations) s s' b
                    (offset_in s (batch_walk tape) j) r o (operations t !! j).
Proof.
  intros Hops Hrun b t Hb.
  destruct (batch_params_inv _ _ _ _ _ Hops Hrun)
    as (B & idx1 & idx2 & new_preps & new_ops & s1 & Hf1 & Hf2 & ->).
  pose proof Hops as Hops0.
  unfold operations_ok, operations in Hops. rewrite forallb_app in Hops.
  apply andb_prop in Hops as [Hprep Hgate].
  set (walk2 := List.filter (λ op, negb (existsb (Nat.eqb op) (prep tape))) (operations tape))
    in *.
  assert (Hw2 : forallb (is_op s) walk2 = true) by by apply forallb_filter.
  destruct (foldM_batch_step_inv _ _ _ _ _ _ _ _ _ _ Hprep (length_replicate B []) Hf1)
    as (Hidx1 & Hpre1 & Hlen1 & Hent1).
  destruct (prefix_params _ _ _ Hpre1 Hw2) as [Hw2' Hdata2].
  destruct (foldM_batch_step_inv _ _ _ _ _ _ _ _ _ _ Hw2' (length_replicate B []) Hf2)
    as (Hidx2 & Hpre2 & Hlen2 & Hent2).
  apply lookup_zip_with_Some in Hb as (row1 & row2 & -> & Hr1 & Hr2).
  assert (Hlt : b < B) by (rewrite <- Hlen1; by eapply lookup_lt_Some).
  destruct (Hent1 b [] (lookup_replicate_2 _ _ _ Hlt)) as (added1 & Ha1 & Hl1 & He1).
  destruct (Hent2 b [] (lookup_replicate_2 _ _ _ Hlt)) as (added2 & Ha2 & Hl2 & He2).
  rewrite Hr1 in Ha1. rewrite Hr2 in Ha2. simpl in Ha1, Ha2.
  injection Ha1 as ->. injection Ha2 as ->.
  unfold operations at 1 2. simpl. unfold batch_walk. fold walk2.
  split; [exact Hl1 |]. split; [by rewrite !length_app, Hl1, Hl2 |].
  intros j r o Hj Hr. unfold prep in *.
  destruct (decide (j < length (_prep tape))) as [Hjl | Hjl].
  - rewrite lookup_app_l in Hj by exact Hjl.
    rewrite lookup_app_l by (rewrite Hl1; exact Hjl).
    rewrite offset_in_app_l by lia.
    eapply batch_entry_mono; [reflexivity | exact Hpre2 |].
    specialize (He1 j r o Hj Hr). simpl in He1. exact He1.
  - rewrite lookup_app_r in Hj by lia.
    rewrite lookup_app_r by (rewrite Hl1; lia). rewrite Hl1.
    replace j with (length (_prep tape) + (j - length (_prep tape))) at 1 by lia.
    rewrite offset_in_app_r.
    eapply batch_entry_mono; [exact Hpre1 | reflexivity |].
    assert (Hoff : offset_in s walk2 (j - length (_prep tape))
                   = offset_in s1 walk2 (j - length (_prep tape))).
    { unfold offset_in. by rewrite Hdata2. }
    rewrite Hoff. rewrite Hidx1 in He2. simpl in He2.
    apply He2; [exact Hj |]. by eapply prefix_lookup_Some.
Qed.

Lemma grows_ret {A} (a : A) : grows (ret a).
Proof. intros s b s' H. by apply ret_inv in H as [_ ->]. Qed.

Lemma grows_raise {A} (e : exn) : grows (@raise A e).
Proof. intros s b s' H. discriminate. Qed.

Lemma grows_bind {A B} (c : M A) (k : A → M B) :
  grows c → (∀ a, grows (k a)) → grows (bind c k).
Proof.
  intros Hc Hk s b s' H. apply bind_inv in H as (a & s1 & Ha & Hb).
  etrans; [by eapply Hc | by eapply Hk].
Qed.

Lemma grows_mapM {A B} (f : A → M B) (l : list A) :
  (∀ x, grows (f x)) → grows (mapM f l).
Proof.
  intros Hf. induction l as [|x l IH]; simpl; [apply grows_ret |].
  apply grows_bind; [apply Hf |]. intros y.
  apply grows_bind; [exact IH |]. intros ys. apply grows_ret.
Qed.

Lemma grows_foldM {A S} (f : S → A → M S) (l : list A) :
  (∀ acc x, grows (f acc x)) → ∀ acc, grows (foldM f acc l).
Proof.
  intros Hf. induction l as [|x l IH]; intros acc; simpl; [apply grows_ret |].
  apply grows_bind; [apply Hf | exact IH].
Qed.

Lemma grows_load_op (r : nat) : grows (load_op r).
Proof. intros s o s' H. by apply load_op_inv in H as [_ ->]. Qed.

Lemma grows_alloc (x : object) : grows (alloc x).
Proof. intros s r s' [= _ <-]. by apply prefix_app_r. Qed.

Lemma grows_get_parameters (tape : QuantumScript) (trainable_only : bool) :
  grows (get_parameters tape trainable_only).
Proof.
  unfold get_parameters. apply grows_bind.
  - apply grows_mapM. intros r. apply grows_bind; [apply grows_load_op |].
    intros o. apply grows_ret.
  - intros ds. destruct trainable_only; [| apply grows_ret].
    apply grows_mapM. intros i. destruct (concat ds !! i); [apply grows_ret | apply grows_raise].
Qed.

Lemma grows_batch_step (params : list pyval) (indices : list nat) (B : nat)
    (acc : nat * list (list nat)) (op : nat) :
  grows (batch_step params indices B acc op).
Proof.
  destruct acc as [idx rows]. unfold batch_step.
  apply grows_bind; [apply grows_load_op |]. intros o.
  destruct (existsb _ _); [| apply grows_ret].
  apply grows_bind; [| intros c; apply grows_ret].
  apply grows_mapM. intros b. apply grows_bind.
  - apply grows_mapM. intros i. unfold sliced_param.
    destruct (params !! i); [| apply grows_raise].
    destruct (in_indices i indices); [| apply grows_ret].
    destruct (getitem _ _); [apply grows_ret | apply grows_raise].
  - intros xs. unfold bind_new_parameters.
    apply grows_bind; [apply grows_load_op |]. intros o'. apply grows_alloc.
Qed.

Lemma grows_batch_params (tape : QuantumScript) (all_operations : bool) :
  grows (batch_params tape all_operations).
Proof.
  unfold batch_params. apply grows_bind; [apply grows_get_parameters |].
  intros params. destruct (if all_operations then _ else _) as [|i0 rest];
    [apply grows_raise |].
  apply grows_bind.
  { destruct (params !! i0) as [p|].
    - destruct (shape p); [apply grows_raise | apply grows_ret].
    - destruct params; apply grows_raise. }
  intros B. apply grows_bind.
  { apply grows_mapM. intros i. unfold check_batch_dim.
    destruct (params !! i) as [p|]; [| apply grows_raise].
    destruct (shape p) as [|d sh]; [apply grows_raise |].
    destruct (d =? B); [apply grows_ret | apply grows_raise]. }
  intros _. apply grows_bind; [apply grows_foldM; intros; apply grows_batch_step |].
  intros [idx new_preps]. apply grows_bind;
    [apply grows_foldM; intros; apply grows_batch_step |].
  intros [idx' new_ops]. apply grows_ret.
Qed.

(** X5: [batch_params] only adds objects to the store: when it returns
    tapes, the store after the call is the store before the call followed
    by the new objects, so no operation or measurement of the input tape
    is modified. *)
Theorem batch_params_only_adds_objects
    (tape : QuantumScript) (all_operations : bool) (s s' : list object)
    (tapes : list QuantumScript) :
  batch_params tape all_operations s = Ok (tapes, s') →
  ∃ added, s' = s ++ added.
Proof. intros H. exact (grows_batch_params _ _ _ _ _ H). Qed.

(** The scenario tape: the three copies of [RY] follow the old store. *)
Lemma batch_params_only_adds_objects_witness :
  ∃ tapes s',
    batch_params (scenario_tape ShotsNone [1]) false rx_ry_store = Ok (tapes, s')
    ∧ ∃ added, s' = rx_ry_store ++ added.
Proof.
  eexists _, _. split; [vm_compute; reflexivity |].
  eapply (batch_params_only_adds_objects (scenario_tape ShotsNone [1]) false rx_ry_store).
  vm_compute. reflexivity.
Defined.

Lemma walk_is_op (tape : QuantumScript) (s : list object) (j r : nat) :
  operations_ok s tape = true →
  batch_walk tape !! j = Some r →
  ∃ o, s !! r = Some (ObjOperator o).
Proof.
  intros Hops Hj. apply is_op_lookup.
  unfold operations_ok, operations in Hops. rewrite forallb_app in Hops.
  apply andb_prop in Hops as [Hprep Hgate].
  assert (Hall : forallb (is_op s) (batch_walk tape) = true).
  { unfold batch_walk, prep. rewrite forallb_app, Hprep. simpl.
    apply forallb_filter. unfold operations. by rewrite forallb_app, Hprep, Hgate. }
  rewrite forallb_forall in Hall. apply Hall.
  apply list_elem_of_In. by eapply list_elem_of_lookup_2.
Qed.

(** X6: an operation of the input tape none of whose parameters is
    selected is not copied: every output tape holds the same reference
    at the same position. *)
Theorem batch_params_reuses_unselected_operations
    (tape : QuantumScript) (all_operations : bool) (s s' : list object)
    (tapes : list QuantumScript) (b j r : nat) (t : QuantumScript) :
  operations_ok s tape = true →
  batch_params tape all_operations s = Ok (tapes, s') →
  tapes !! b = Some t →
  batch_walk tape !! j = Some r →
  (∀ k, k < length (data_at s r) →
        in_indices (offset_in s (batch_walk tape) j + k)
                   (selected_indices s tape all_operations) = false) →
  operations t !! j = Some r.
Proof.
  intros Hops Hrun Hb Hj Hsel.
  destruct (walk_is_op _ _ _ _ Hops Hj) as [o Ho].
  destruct (batch_params_entries _ _ _ _ _ Hops Hrun _ _ Hb) as (_ & _ & Hent).
  specialize (Hent _ _ _ Hj Ho). unfold batch_entry in Hent.
  rewrite (data_at_lookup _ _ _ Ho) in Hsel.
  assert (Hex : existsb (λ i, in_indices i (selected_indices s tape all_operations))
                        (seq (offset_in s (batch_walk tape) j) (length (data o))) = false).
  { apply not_true_is_false. intros Hex. apply existsb_exists in Hex as (i & Hi & Hin).
    apply in_seq in Hi. specialize (Hsel (i - offset_in s (batch_walk tape) j)).
    replace (offset_in s (batch_walk tape) j + (i - offset_in s (batch_walk tape) j))
      with i in Hsel by lia.
    rewrite Hsel in Hin; [discriminate | lia]. }
  by rewrite Hex in Hent.
Qed.

(** The scenario tape: [RX] is reference 0 in the third output tape. *)
Lemma batch_params_reuses_unselected_operations_witness :
  ∃ tapes s' t,
    batch_params (scenario_tape ShotsNone [1]) false rx_ry_store = Ok (tapes, s')
    ∧ tapes !! 2 = Some t
    ∧ operations t !! 0 = Some 0.
Proof.
  eexists _, _, _. split; [vm_compute; reflexivity |]. split; [reflexivity |].
  eapply (batch_params_reuses_unselected_operations (scenario_tape ShotsNone [1]) false
            rx_ry_store _ _ 2 0 0).
  - reflexivity.
  - vm_compute. reflexivity.
  - reflexivity.
  - reflexivity.
  - intros k Hk. simpl in Hk. assert (k = 0) as -> by lia. reflexivity.
Defined.

(** X7: an operation of the input tape with a selected parameter is
    replaced, in the output tape for the batch index [b], by a new object
    that has the attributes of the original but for its data; each
    selected parameter of the new data is the [b]-th slice of the
    parameter at that position of the flattened list, each other
    parameter is that parameter itself. *)
Theorem batch_params_slices_selected_operations
    (tape : QuantumScript) (all_operations : bool) (s s' : list object)
    (tapes : list QuantumScript) (b j r k0 : nat) (t : QuantumScript) :
  operations_ok s tape = true →
  batch_params tape all_operations s = Ok (tapes, s') →
  tapes !! b = Some t →
  batch_walk tape !! j = Some r →
  k0 < length (data_at s r) →
  in_indices (offset_in s (batch_walk tape) j + k0)
             (selected_indices s tape all_operations) = true →
  ∃ r' o xs,
    s !! r = Some (ObjOperator o)
    ∧ operations t !! j = Some r'
    ∧ length s ≤ r'
    ∧ s' !! r' = Some (ObjOperator (set_data o xs))
    ∧ length xs = length (data o)
    ∧ ∀ k, k < length (data o) →
        ∃ p, all_params s tape !! (offset_in s (batch_walk tape) j + k) = Some p
             ∧ xs !! k
               = (if in_indices (offset_in s (batch_walk tape) j + k)
                                (selected_indices s tape all_operations)
                  then getitem p b else Some p).
Proof.
  intros Hops Hrun Hb Hj Hk0 Hsel.
  destruct (walk_is_op _ _ _ _ Hops Hj) as [o Ho].
  destruct (batch_params_entries _ _ _ _ _ Hops Hrun _ _ Hb) as (_ & _ & Hent).
  specialize (Hent _ _ _ Hj Ho). unfold batch_entry in Hent.
  rewrite (data_at_lookup _ _ _ Ho) in Hk0.
  assert (Hex : existsb (λ i, in_indices i (selected_indices s tape all_operations))
                        (seq (offset_in s (batch_walk tape) j) (length (data o))) = true).
  { apply existsb_exists. exists (offset_in s (batch_walk tape) j + k0).
    split; [apply in_seq; lia | exact Hsel]. }
  rewrite Hex in Hent. destruct Hent as (r' & xs & He & Hrest).
  exists r', o, xs. split; [exact Ho |]. split; [exact He | exact Hrest].
Qed.

(** The scenario tape: in the second output tape [RY] is the new object 5
    with data [y[1]]. *)
Lemma batch_params_slices_selected_operations_witness :
  ∃ tapes s' t,
    batch_params (scenario_tape ShotsNone [1]) false rx_ry_store = Ok (tapes, s')
    ∧ tapes !! 1 = Some t
    ∧ ∃ r' o xs,
        rx_ry_store !! 1 = Some (ObjOperator o)
        ∧ operations t !! 1 = Some r'
        ∧ length rx_ry_store ≤ r'
        ∧ s' !! r' = Some (ObjOperator (set_data o xs))
        ∧ length xs = length (data o).
Proof.
  eexists _, _, _. split; [vm_compute; reflexivity |]. split; [reflexivity |].
  assert (Hrun : batch_params (scenario_tape ShotsNone [1]) false rx_ry_store
                 = Ok ([ mkQuantumScript [0; 4] [3] [] ShotsNone [1] None;
                         mkQuantumScript [0; 5] [3] [] ShotsNone [1] None;
                         mkQuantumScript [0; 6] [3] [] ShotsNone [1] None ],
                       rx_ry_store
                       ++ [ ObjOperator (leaf_op "RY" [scalar_param "numpy" false (1 # 5)] [1]);
                            ObjOperator (leaf_op "RY" [scalar_param "numpy" false (3 # 10)] [1]);
                            ObjOperator (leaf_op "RY" [scalar_param "numpy" false (2 # 5)] [1]) ]))
    by reflexivity.
  destruct (batch_params_slices_selected_operations (scenario_tape ShotsNone [1]) false
              rx_ry_store _ _ 1 1 1 0 _ eq_refl Hrun eq_refl eq_refl)
    as (r' & o & xs & H1 & H2 & H3 & H4 & H5 & _).
  - simpl. lia.
  - reflexivity.
  - exists r', o, xs. by repeat split.
Defined.

(* ===================================================================== *)
(** ** More on [equal] *)

Section EqualMore.
Context `{MI : Math} `{HI : Hierarchy}.




End EqualMore.



(** X9: when the first argument is a measurement, the keyword arguments of
    [equal] have no effect: the observables are compared with the default
    tolerances and with both checks on, whatever the caller passes. *)
Theorem equal_measurements_ignore_keywords `{MI : Math} `{HI : Hierarchy}
    (m1 : MeasurementProcess Operator) (b : qobject)
    (check_interface check_trainability check_interface' check_trainability' : bool)
    (rtol atol rtol' atol' : Q) :
  equal (QMeasurement m1) b check_interface check_trainability rtol atol
  = equal (QMeasurement m1) b check_interface' check_trainability' rtol' atol'.
Proof.
  unfold equal. destruct (isinstance b (type (QMeasurement m1))); [| reflexivity].
  simpl. destruct b; reflexivity.
Qed.

Section EqualRelation.
Context `{MI : Math} `{HI : Hierarchy}.

Lemma forallb_zip_diag {A} (f : A * A → bool) (l : list A) :
  forallb f (zip l l) = forallb (λ x, f (x, x)) l.
Proof. induction l as [| x l IH]; simpl; [done | by rewrite IH]. Qed.

Lemma existsb_zip_diag {A} (f : A * A → bool) (l : list A) :
  existsb f (zip l l) = existsb (λ x, f (x, x)) l.
Proof. induction l as [| x l IH]; simpl; [done | by rewrite IH]. Qed.

Lemma forallb_true_Forall {A} (f : A → bool) (l : list A) :
  forallb f l = true ↔ Forall (λ x, f x = true) l.
Proof.
  induction l as [| x l IH]; simpl; [done |].
  rewrite Forall_cons, andb_true_iff, IH. done.
Qed.

Lemma existsb_false_Forall {A} (f : A → bool) (l : list A) :
  existsb f l = false ↔ Forall (λ x, f x = false) l.
Proof.
  induction l as [| x l IH]; simpl; [done |].
  rewrite Forall_cons, orb_false_iff, IH. done.
Qed.

Lemma existsb_all_false {A} (f : A → bool) (l : list A) :
  (∀ x, f x = false) → existsb f l = false.
Proof. intros Hf. induction l as [| x l IH]; simpl; [done | by rewrite Hf, IH]. Qed.

Lemma _equal_operator_refl (o : Operator) ci ct rtol atol :
  arithmetic_depth o = 0%nat →
  Forall (λ d, allclose d d rtol atol = true) (data o) →
  _equal_operator o o ci ct rtol atol = Ok true.
Proof.
  intros Hd Hclose. unfold _equal_operator.
  rewrite Nat.eqb_refl, Hd. simpl.
  rewrite forallb_zip_diag. simpl.
  replace (forallb (λ x, allclose x x rtol atol) (data o)) with true; simpl.
  2: { symmetry. by apply forallb_true_Forall. }
  rewrite !bool_decide_eq_true_2 by done. simpl.
  rewrite !existsb_zip_diag. simpl.
  rewrite (existsb_all_false (λ x, negb (eqb (requires_grad x) (requires_grad x))))
    by (intros x; by rewrite eqb_reflx).
  rewrite (existsb_all_false (λ x, negb (String.eqb (get_interface [x]) (get_interface [x]))))
    by (intros x; by rewrite String.eqb_refl).
  rewrite !andb_false_r. by rewrite eqb_reflx.
Qed.

Lemma option_Q_eqb_refl (x : option Q) : option_Q_eqb x x = true.
Proof. destruct x as [q|]; simpl; [apply Qeq_bool_refl | done]. Qed.

Lemma issubclass_refl (c : pyclass) : issubclass c c = true.
Proof.
  destruct c as [c | c]; simpl.
  - apply operator_subclass_refl.
  - destruct c; reflexivity.
Qed.

Lemma _equal_operator_true (o1 o2 : Operator) ci ct rtol atol :
  _equal_operator o1 o2 ci ct rtol atol = Ok true →
  arithmetic_depth o1 = 0%nat ∧ arithmetic_depth o2 = 0%nat
  ∧ forallb (λ d, allclose d.1 d.2 rtol atol) (zip (data o1) (data o2)) = true
  ∧ wires o1 = wires o2
  ∧ hyperparameters o1 = hyperparameters o2
  ∧ (ct = true → Forall (λ p, requires_grad p.1 = requires_grad p.2) (zip (data o1) (data o2)))
  ∧ (ci = true → Forall (λ p, get_interface [p.1] = get_interface [p.2])
                         (zip (data o1) (data o2)))
  ∧ default false (inverse o1) = default false (inverse o2).
Proof.
  unfold _equal_operator.
  destruct (arithmetic_depth o1 =? arithmetic_depth o2)%nat eqn:Hd; simpl; [| discriminate].
  destruct (0 <? arithmetic_depth o1)%nat eqn:Hz; [discriminate |].
  destruct (forallb _ (zip (data o1) (data o2))) eqn:Hc; simpl; [| discriminate].
  destruct (bool_decide (wires o1 = wires o2)) eqn:Hw; simpl; [| discriminate].
  destruct (bool_decide (hyperparameters o1 = hyperparameters o2)) eqn:Hh; simpl;
    [| discriminate].
  destruct (ct && existsb _ _) eqn:Ht; [discriminate |].
  destruct (ci && existsb _ _) eqn:Hi; [discriminate |].
  intros Hinv. apply Nat.eqb_eq in Hd. apply Nat.ltb_ge in Hz.
  apply bool_decide_eq_true in Hw. apply bool_decide_eq_true in Hh.
  split; [lia |]. split; [lia |]. split; [done |]. split; [done |]. split; [done |].
  split; [| split].
  - intros ->. simpl in Ht. apply existsb_false_Forall in Ht.
    eapply Forall_impl; [exact Ht |]. intros p Hp. simpl in Hp.
    apply negb_false_iff in Hp. by apply eqb_prop in Hp.
  - intros ->. simpl in Hi. apply existsb_false_Forall in Hi.
    eapply Forall_impl; [exact Hi |]. intros p Hp. simpl in Hp.
    apply negb_false_iff in Hp. by apply String.eqb_eq in Hp.
  - inversion Hinv as [He]. by apply eqb_prop in He.
Qed.

Lemma _equal_operator_relax (o1 o2 : Operator) ci ct rtol atol :
  _equal_operator o1 o2 true true rtol atol = Ok true →
  _equal_operator o1 o2 ci ct rtol atol = Ok true.
Proof.
  unfold _equal_operator.
  destruct (negb (arithmetic_depth o1 =? arithmetic_depth o2)%nat); [done |].
  destruct (0 <? arithmetic_depth o1)%nat; [done |].
  destruct (negb (forallb _ (zip (data o1) (data o2)))); [done |].
  destruct (negb (bool_decide (wires o1 = wires o2))); [done |].
  destruct (negb (bool_decide (hyperparameters o1 = hyperparameters o2))); [done |].
  simpl.
  destruct (existsb (λ p, negb (eqb (requires_grad p.1) (requires_grad p.2))) _);
    [discriminate |].
  destruct (existsb (λ p, negb (String.eqb (get_interface [p.1]) (get_interface [p.2]))) _);
    [discriminate |].
  by rewrite !andb_false_r.
Qed.

Lemma equal_obs_true (o1 o2 : Operator) :
  equal_obs o1 o2 = Ok true →
  isinstance (QOperator o2) (type (QOperator o1)) = true
  ∧ _equal_operator o1 o2 true true default_rtol default_atol = Ok true.
Proof.
  unfold equal_obs.
  destruct (isinstance (QOperator o2) (type (QOperator o1))); simpl; [done | discriminate].
Qed.

Lemma _equal_measurements_true (m1 m2 : MeasurementProcess Operator) :
  _equal_measurements m1 m2 = Ok true →
  return_type m1 = return_type m2 ∧ m_wires m1 = m_wires m2
  ∧ allequal (eigvals m1) (eigvals m2) = true
  ∧ match obs m1, obs m2 with
    | Some o1, Some o2 => equal_obs o1 o2 = Ok true
    | None, None => True
    | _, _ => False
    end.
Proof.
  unfold _equal_measurements.
  destruct (obs m1) as [o1|], (obs m2) as [o2|]; simpl.
  - destruct (equal_obs o1 o2) as [[] | e]; simpl; intros H; inversion H as [Hb].
    + rewrite Hb. apply andb_prop in Hb as [Hb He]. apply andb_prop in Hb as [Hb Hw].
      apply andb_prop in Hb as [Hr _].
      apply bool_decide_eq_true in Hr. apply bool_decide_eq_true in Hw. done.
    + rewrite andb_false_r in Hb. discriminate.
  - intros H. inversion H as [Hb]. rewrite andb_false_r in Hb. discriminate.
  - intros H. inversion H as [Hb]. rewrite andb_false_r in Hb. discriminate.
  - intros H. inversion H as [Hb]. rewrite Hb.
    apply andb_prop in Hb as [Hb He]. apply andb_prop in Hb as [Hb Hw].
    apply andb_prop in Hb as [Hr _].
    apply bool_decide_eq_true in Hr. apply bool_decide_eq_true in Hw. done.
Qed.

Lemma _equal_measurements_refl (m : MeasurementProcess Operator) :
  match obs m with
  | Some o => arithmetic_depth o = 0%nat
              ∧ Forall (λ d, allclose d d default_rtol default_atol = true) (data o)
  | None => True
  end →
  allequal (eigvals m) (eigvals m) = true →
  _equal_measurements m m = Ok true.
Proof.
  intros Hobs Heig. unfold _equal_measurements.
  destruct (obs m) as [o|]; simpl.
  - destruct Hobs as [Hd Hc]. unfold equal_obs.
    rewrite isinstance_same_operator_class by done. simpl.
    rewrite _equal_operator_refl by done. simpl.
    rewrite !bool_decide_eq_true_2 by done. by rewrite Heig.
  - rewrite !bool_decide_eq_true_2 by done. by rewrite Heig.
Qed.

End EqualRelation.

(** X10: [equal] is reflexive on operators of arithmetic depth zero whose
    parameters are close to themselves: with any flags, an operator is
    equal to itself. *)
Theorem equal_operator_reflexive `{MI : Math} `{HI : Hierarchy} (o : Operator)
    (check_interface check_trainability : bool) (rtol atol : Q) :
  arithmetic_depth o = 0%nat →
  Forall (λ d, allclose d d rtol atol = true) (data o) →
  equal (QOperator o) (QOperator o) check_interface check_trainability rtol atol = Ok true.
Proof.
  intros Hd Hc. rewrite equal_same_operator_class by done.
  by apply _equal_operator_refl.
Qed.

Lemma equal_operator_reflexive_witness :
  arithmetic_depth (leaf_op "RX" [torch_scalar 1] [0%nat]) = 0%nat
  ∧ equal (MI := math_model) (HI := flat_hierarchy) (QOperator (leaf_op "RX" [torch_scalar 1] [0%nat]))
      (QOperator (leaf_op "RX" [torch_scalar 1] [0%nat])) true true default_rtol default_atol
    = Ok true.
Proof.
  split; [reflexivity |].
  apply (equal_operator_reflexive (MI := math_model) (HI := flat_hierarchy)); [reflexivity |].
  repeat constructor.
Defined.

(** X11: [equal] is reflexive on measurements of every class whose
    eigenvalues compare equal to themselves and whose observable, if any,
    has depth zero and parameters close to themselves under the default
    tolerances. *)
Theorem equal_measurement_reflexive `{MI : Math} `{HI : Hierarchy} (m : MeasurementProcess Operator)
    (check_interface check_trainability : bool) (rtol atol : Q) :
  match obs m with
  | Some o => arithmetic_depth o = 0%nat
              ∧ Forall (λ d, allclose d d default_rtol default_atol = true) (data o)
  | None => True
  end →
  allequal (eigvals m) (eigvals m) = true →
  equal (QMeasurement m) (QMeasurement m) check_interface check_trainability rtol atol
  = Ok true.
Proof.
  intros Hobs Heig. unfold equal, isinstance. rewrite issubclass_refl. simpl.
  destruct (m_class m);
    unfold _equal_VnEntropy, _equal_MutualInfo, _equal_shadow_measurements;
    rewrite ?_equal_measurements_refl by done; simpl;
    rewrite ?option_Q_eqb_refl, ?bool_decide_eq_true_2 by done; done.
Qed.

Lemma equal_measurement_reflexive_witness :
  equal (MI := math_model) (HI := flat_hierarchy)
    (QMeasurement (mkMeasurementProcess _VnEntropy_cls VnEntropy
                     (Some (leaf_op "PauliZ" [] [0%nat])) [0%nat] None (Some 2%Q) 0 0))
    (QMeasurement (mkMeasurementProcess _VnEntropy_cls VnEntropy
                     (Some (leaf_op "PauliZ" [] [0%nat])) [0%nat] None (Some 2%Q) 0 0))
    false false default_rtol default_atol
  = Ok true.
Proof.
  apply (equal_measurement_reflexive (MI := math_model) (HI := flat_hierarchy)); [| reflexivity].
  simpl. split; [reflexivity | constructor].
Defined.

(** X12: the two checks only restrict: a pair that [equal] accepts with
    the interface check and the trainability check on is accepted with
    any setting of the two flags. *)
Theorem equal_checks_only_restrict `{MI : Math} `{HI : Hierarchy} (a b : qobject)
    (check_interface check_trainability : bool) (rtol atol : Q) :
  equal a b true true rtol atol = Ok true →
  equal a b check_interface check_trainability rtol atol = Ok true.
Proof.
  unfold equal. destruct (negb (isinstance b (type a))); [done |].
  destruct a as [o1|m1], b as [o2|m2]; simpl; try done.
  apply _equal_operator_relax.
Qed.

Lemma equal_checks_only_restrict_witness :
  equal (MI := math_model) (HI := flat_hierarchy) (QOperator (leaf_op "RX" [np_scalar 1] [0%nat]))
    (QOperator (leaf_op "RX" [np_scalar 1] [0%nat])) true true default_rtol default_atol
  = Ok true
  ∧ equal (MI := math_model) (HI := flat_hierarchy) (QOperator (leaf_op "RX" [np_scalar 1] [0%nat]))
      (QOperator (leaf_op "RX" [np_scalar 1] [0%nat])) false true default_rtol default_atol
    = Ok true.
Proof.
  split; [reflexivity |].
  apply (equal_checks_only_restrict (MI := math_model) (HI := flat_hierarchy)). reflexivity.
Defined.

(** X13: what a positive answer of [equal] on two operators guarantees:
    the second is an instance of the class of the first (of that class or
    of one derived from it), both have arithmetic depth zero, the same
    wires and hyperparameters and the same inverse flag, and, over the
    pairs of parameters that [zip] forms, closeness within the
    tolerances and, for each check that is on, the same trainability and
    the same interface. *)
Theorem equal_operators_true_implies `{MI : Math} `{HI : Hierarchy} (o1 o2 : Operator)
    (check_interface check_trainability : bool) (rtol atol : Q) :
  equal (QOperator o1) (QOperator o2) check_interface check_trainability rtol atol
  = Ok true →
  isinstance (QOperator o2) (type (QOperator o1)) = true
  ∧ arithmetic_depth o1 = 0%nat ∧ arithmetic_depth o2 = 0%nat
  ∧ wires o1 = wires o2
  ∧ hyperparameters o1 = hyperparameters o2
  ∧ default false (inverse o1) = default false (inverse o2)
  ∧ Forall (λ p, allclose p.1 p.2 rtol atol = true) (zip (data o1) (data o2))
  ∧ (check_trainability = true →
     Forall (λ p, requires_grad p.1 = requires_grad p.2) (zip (data o1) (data o2)))
  ∧ (check_interface = true →
     Forall (λ p, get_interface [p.1] = get_interface [p.2]) (zip (data o1) (data o2))).
Proof.
  unfold equal.
  destruct (isinstance (QOperator o2) (type (QOperator o1))) eqn:Hc; simpl;
    [| discriminate].
  intros H.
  apply _equal_operator_true in H as (H1 & H2 & Hclose & Hw & Hh & Ht & Hi & Hinv).
  split; [done |]. split; [done |]. split; [done |]. split; [done |].
  split; [done |]. split; [done |]. split; [| done].
  by apply forallb_true_Forall in Hclose.
Qed.

(** In the hierarchy of the tests, a [Template] compares equal to a
    [StronglyEntanglingLayers] with the same parameter and wires: the two
    classes differ, the second argument is an instance of the class of
    the first. *)
Lemma equal_operators_true_implies_witness :
  equal (MI := math_model) (HI := tests_hierarchy)
    (QOperator (leaf_op "StronglyEntanglingLayers" [np_scalar (1 # 2)] [0%nat; 1%nat]))
    (QOperator (leaf_op "Template" [np_scalar (1 # 2)] [0%nat; 1%nat]))
    true true default_rtol default_atol
  = Ok true
  ∧ isinstance (HI := tests_hierarchy)
      (QOperator (leaf_op "Template" [np_scalar (1 # 2)] [0%nat; 1%nat]))
      (type (QOperator (leaf_op "StronglyEntanglingLayers" [np_scalar (1 # 2)]
                          [0%nat; 1%nat])))
    = true
  ∧ wires (leaf_op "StronglyEntanglingLayers" [np_scalar (1 # 2)] [0%nat; 1%nat])
    = wires (leaf_op "Template" [np_scalar (1 # 2)] [0%nat; 1%nat]).
Proof.
  assert (equal (MI := math_model) (HI := tests_hierarchy)
            (QOperator (leaf_op "StronglyEntanglingLayers" [np_scalar (1 # 2)]
                          [0%nat; 1%nat]))
            (QOperator (leaf_op "Template" [np_scalar (1 # 2)] [0%nat; 1%nat]))
            true true default_rtol default_atol
          = Ok true) as Hrun by (vm_compute; reflexivity).
  split; [exact Hrun |].
  destruct (equal_operators_true_implies (MI := math_model) (HI := tests_hierarchy)
              _ _ _ _ _ _ Hrun) as (Hinst & _ & _ & Hw & _).
  split; [exact Hinst | exact Hw].
Defined.

(** X14: what a positive answer of [equal] on two measurements
    guarantees: the same return type and the same wires; and, unless the
    first is a shadow expectation value (which compares [H] and [k]
    instead), equal eigenvalues and observables that are both absent or
    both present, the second an instance of the class of the first, both
    of depth zero and on the same wires. *)
Theorem equal_measurements_true_implies `{MI : Math} `{HI : Hierarchy}
    (m1 m2 : MeasurementProcess Operator)
    (check_interface check_trainability : bool) (rtol atol : Q) :
  equal (QMeasurement m1) (QMeasurement m2) check_interface check_trainability rtol atol
  = Ok true →
  return_type m1 = return_type m2 ∧ m_wires m1 = m_wires m2
  ∧ (m_class m1 = _ShadowExpval_cls →
     m_class m2 = _ShadowExpval_cls ∧ shadow_H m1 = shadow_H m2 ∧ shadow_k m1 = shadow_k m2)
  ∧ (m_class m1 ≠ _ShadowExpval_cls →
     allequal (eigvals m1) (eigvals m2) = true
     ∧ match obs m1, obs m2 with
       | Some o1, Some o2 =>
           isinstance (QOperator o2) (type (QOperator o1)) = true
           ∧ arithmetic_depth o1 = 0%nat ∧ arithmetic_depth o2 = 0%nat
           ∧ wires o1 = wires o2
       | None, None => True
       | _, _ => False
       end).
Proof.
  unfold equal.
  destruct (isinstance (QMeasurement m2) (type (QMeasurement m1))) eqn:Hinst; simpl;
    [| discriminate].
  assert (∀ r, _equal_measurements m1 m2 = r → r = Ok true →
            return_type m1 = return_type m2 ∧ m_wires m1 = m_wires m2
            ∧ allequal (eigvals m1) (eigvals m2) = true
            ∧ match obs m1, obs m2 with
              | Some o1, Some o2 =>
                  isinstance (QOperator o2) (type (QOperator o1)) = true
                  ∧ arithmetic_depth o1 = 0%nat ∧ arithmetic_depth o2 = 0%nat
                  ∧ wires o1 = wires o2
              | None, None => True
              | _, _ => False
              end) as Hplain.
  { intros r <- H. apply _equal_measurements_true in H as (Hr & Hw & He & Ho).
    split; [done |]. split; [done |]. split; [done |].
    destruct (obs m1) as [o1|], (obs m2) as [o2|]; try done.
    apply equal_obs_true in Ho as [Hc Ho].
    apply _equal_operator_true in Ho as (H1 & H2 & _ & Hwo & _). done. }
  unfold isinstance, type, issubclass in Hinst.
  destruct (m_class m1) eqn:Hc1; simpl.
  - intros H. destruct (Hplain _ eq_refl H) as (Hr & Hw & He & Ho).
    split; [done |]. split; [done |]. split; [discriminate | done].
  - unfold _equal_VnEntropy.
    destruct (_equal_measurements m1 m2) as [[] | e] eqn:Hm; simpl; try discriminate.
    intros _. destruct (Hplain _ eq_refl eq_refl) as (Hr & Hw & He & Ho).
    split; [done |]. split; [done |]. split; [discriminate | done].
  - unfold _equal_MutualInfo.
    destruct (_equal_measurements m1 m2) as [[] | e] eqn:Hm; simpl; try discriminate.
    intros _. destruct (Hplain _ eq_refl eq_refl) as (Hr & Hw & He & Ho).
    split; [done |]. split; [done |]. split; [discriminate | done].
  - unfold _equal_shadow_measurements. intros H. inversion H as [Hb].
    apply andb_prop in Hb as [Hb Hk]. apply andb_prop in Hb as [Hb HH].
    apply andb_prop in Hb as [Hr Hw].
    apply bool_decide_eq_true in Hr. apply bool_decide_eq_true in Hw.
    apply bool_decide_eq_true in HH. apply bool_decide_eq_true in Hk.
    split; [done |]. split; [done |]. split; [| done].
    intros _. split; [| done].
    destruct (m_class m2); simpl in Hinst; done.
Qed.

(** Two expectation values of [PauliZ] on wire 0 compare equal; their
    observables are of one class, of depth zero and on the same wire. *)
Lemma equal_measurements_true_implies_witness :
  equal (MI := math_model) (HI := flat_hierarchy)
    (QMeasurement (mkMeasurementProcess MeasurementProcess_cls Expectation
                     (Some (leaf_op "PauliZ" [] [0%nat])) [0%nat] None None 0 0))
    (QMeasurement (mkMeasurementProcess MeasurementProcess_cls Expectation
                     (Some (leaf_op "PauliZ" [] [0%nat])) [0%nat] None None 0 0))
    true true default_rtol default_atol
  = Ok true
  ∧ isinstance (HI := flat_hierarchy) (QOperator (leaf_op "PauliZ" [] [0%nat]))
      (type (QOperator (leaf_op "PauliZ" [] [0%nat]))) = true
  ∧ arithmetic_depth (leaf_op "PauliZ" [] [0%nat]) = 0%nat.
Proof.
  assert (equal (MI := math_model) (HI := flat_hierarchy)
            (QMeasurement (mkMeasurementProcess MeasurementProcess_cls Expectation
                             (Some (leaf_op "PauliZ" [] [0%nat])) [0%nat] None None 0 0))
            (QMeasurement (mkMeasurementProcess MeasurementProcess_cls Expectation
                             (Some (leaf_op "PauliZ" [] [0%nat])) [0%nat] None None 0 0))
            true true default_rtol default_atol
          = Ok true) as Hrun by (vm_compute; reflexivity).
  split; [exact Hrun |].
  destruct (equal_measurements_true_implies (MI := math_model) (HI := flat_hierarchy)
              _ _ _ _ _ _ Hrun) as (_ & _ & _ & Hobs).
  destruct Hobs as (_ & Hinst & Hd & _); [discriminate |].
  split; [exact Hinst | exact Hd].
Defined.

(* ===================================================================== *)
(** ** The post-processing of [batch_params] *)

Lemma outcome_map_Forall2 {A B} (f : A → outcome B) (l : list A) (ys : list B) :
  outcome_map f l = Returns ys ↔ Forall2 (λ x y, f x = Returns y) l ys.
Proof.
  revert ys. induction l as [| x l IH]; intros ys; simpl.
  - split.
    + intros H. inversion H. constructor.
    + intros H. inversion H. reflexivity.
  - split.
    + destruct (f x) as [y | e] eqn:Hx; simpl; [| discriminate].
      destruct (outcome_map f l) as [ys' | e] eqn:Hl; simpl; [| discriminate].
      intros H. inversion H. subst ys. constructor; [done |]. by apply IH.
    + intros H. inversion H as [| ? y ? ys' Hx Hl]; subst.
      rewrite Hx. simpl. apply IH in Hl. rewrite Hl. reflexivity.
Qed.

Lemma outcome_map_ext {A B} (f g : A → outcome B) (l : list A) :
  Forall (λ x, f x = g x) l → outcome_map f l = outcome_map g l.
Proof.
  induction 1 as [| x l Hx _ IH]; simpl; [done |]. by rewrite Hx, IH.
Qed.

Lemma outcome_map_total {A B} (f : A → outcome B) (l : list A) :
  Forall (λ x, ∃ y, f x = Returns y) l → ∃ ys, outcome_map f l = Returns ys.
Proof.
  induction 1 as [| x l [y Hx] _ [ys IH]]; simpl; [by eexists |].
  rewrite Hx, IH. simpl. by eexists.
Qed.

Lemma at_path_cons (r : pyval) (i : nat) (p : list nat) (c : pyval) :
  item r i = Returns c → at_path r (i :: p) = at_path c p.
Proof. intros H. simpl. by rewrite H. Qed.

Section NestedStackFacts.
Variable stack : list pyval → outcome pyval.

(** The number of items of a tuple, [0] for the values the recursion
    does not enter. *)
Let len (v : pyval) : nat :=
  match v with
  | VTuple items => length items
  | _ => 0
  end.

Lemma column_cons (r : pyval) (rest : list pyval) (i : nat) :
  column (r :: rest) i
  = outcome_bind (item r i) (λ x,
    outcome_bind (column rest i) (λ xs, Returns (x :: xs))).
Proof. reflexivity. Qed.

Lemma column_head (res col : list pyval) (first : pyval) (i : nat) :
  head res = Some first → column res i = Returns col →
  ∃ x, item first i = Returns x ∧ head col = Some x.
Proof.
  destruct res as [| r rest]; [discriminate |]. simpl. intros [= ->].
  rewrite column_cons.
  destruct (item first i) as [x | e]; simpl; [| discriminate].
  destruct (column rest i) as [xs | e]; simpl; [| discriminate].
  intros [= <-]. by exists x.
Qed.

(** The recursion of the source: one recursive call per item of
    [res[0]], on the column of the batch at that item. *)
Lemma _nested_stack_unfold (res : list pyval) :
  _nested_stack stack res
  = match res with
    | [] => Throws (PostExn IndexError)
    | first :: _ =>
        if is_tuple first then
          outcome_bind
            (outcome_map (λ i, outcome_bind (column res i) (_nested_stack stack))
               (seq 0 (len first)))
            (λ stacked_results, Returns (VTuple stacked_results))
        else stack res
    end.
Proof.
  destruct res as [| first rest]; [reflexivity |].
  destruct first as [t | d | l | items]; try reflexivity.
  unfold _nested_stack at 1. simpl _nested_stack_from. simpl is_tuple. cbv iota.
  f_equal. subst len. simpl.
  set (res := VTuple items :: rest).
  enough (∀ its k, drop k items = its →
            (fix loop (items0 : list pyval) (i : nat) {struct items0} :
                 outcome (list pyval) :=
               match items0 with
               | [] => Returns []
               | x :: rest0 =>
                   outcome_bind (column res i) (λ col,
                   outcome_bind (_nested_stack_from stack x col) (λ y,
                   outcome_bind (loop rest0 (S i)) (λ ys, Returns (y :: ys))))
               end) its k
            = outcome_map (λ i, outcome_bind (column res i) (_nested_stack stack))
                (seq k (length its))) as Hloop.
  { apply (Hloop items 0). apply drop_0. }
  intros its. induction its as [| x its IH]; intros k Hk; [reflexivity |].
  simpl length. simpl seq. simpl outcome_map.
  assert (items !! k = Some x) as Hx.
  { rewrite <- (Nat.add_0_r k), <- lookup_drop, Hk. reflexivity. }
  assert (drop (S k) items = its) as Hk'.
  { replace (S k) with (k + 1)%nat by lia. rewrite <- drop_drop, Hk. reflexivity. }
  rewrite (IH (S k) Hk').
  assert (item (VTuple items) k = Returns x) as Hitem.
  { unfold item. simpl. by rewrite Hx. }
  subst res. rewrite column_cons, Hitem. simpl.
  destruct (column rest k) as [xs | e]; reflexivity.
Qed.

Lemma _nested_stack_tuple_inv (res : list pyval) (items : list pyval) (out : pyval) :
  head res = Some (VTuple items) →
  _nested_stack stack res = Returns out →
  ∃ l, out = VTuple l ∧ length l = length items
       ∧ ∀ i x, items !! i = Some x →
           ∃ col y, column res i = Returns col ∧ head col = Some x
                    ∧ _nested_stack stack col = Returns y ∧ l !! i = Some y.
Proof.
  intros Hhead Hrun. rewrite _nested_stack_unfold in Hrun.
  destruct res as [| first rest]; [discriminate |]. simpl in Hhead.
  injection Hhead as ->. simpl in Hrun.
  destruct (outcome_map _ (seq 0 (length items))) as [l | e] eqn:Hmap; simpl in Hrun;
    [| discriminate].
  injection Hrun as <-. apply outcome_map_Forall2 in Hmap.
  exists l. split; [done |]. split.
  { apply Forall2_length in Hmap. rewrite length_seq in Hmap. done. }
  intros i x Hx.
  assert (i < length items) as Hi by (by eapply lookup_lt_Some).
  destruct (Forall2_lookup_l _ _ _ i i Hmap) as (y & Hy & Hf).
  { apply lookup_seq. split; [reflexivity | exact Hi]. }
  simpl in Hf.
  destruct (column (VTuple items :: rest) i) as [col | e] eqn:Hcol; simpl in Hf;
    [| discriminate].
  exists col, y. split; [done |]. split; [| done].
  destruct (column_head (VTuple items :: rest) col (VTuple items) i eq_refl Hcol)
    as (x' & Hx' & Hh).
  unfold item in Hx'. simpl in Hx'. rewrite Hx in Hx'. by injection Hx' as <-.
Qed.

Lemma column_Forall2 (res col : list pyval) (i : nat) :
  column res i = Returns col ↔ Forall2 (λ r c, item r i = Returns c) res col.
Proof. apply outcome_map_Forall2. Qed.

(** The outcome of a batch whose first result is at [first]: what sits in
    [out] at the position [p] of a node of [first]. *)
Lemma _nested_stack_at (p : list nat) :
  ∀ res first out node,
    head res = Some first →
    _nested_stack stack res = Returns out →
    tuple_path first p = Some node →
    ∃ col o,
      Forall2 (λ r x, at_path r p = Some x) res col
      ∧ _nested_stack stack col = Returns o
      ∧ tuple_path out p = Some o.
Proof.
  induction p as [| i p IH]; intros res first out node Hhead Hrun Hpath.
  - exists res, out. split; [| done].
    clear. induction res; constructor; done.
  - simpl in Hpath. destruct first as [| | | items]; try discriminate.
    destruct (items !! i) as [x |] eqn:Hx; simpl in Hpath; [| discriminate].
    destruct (_nested_stack_tuple_inv res items out Hhead Hrun)
      as (l & -> & Hlen & Hitems).
    destruct (Hitems i x Hx) as (col & y & Hcol & Hh & Hy & Hl).
    destruct (IH col x y node Hh Hy Hpath) as (colp & o & Hall & Ho & Hout).
    exists colp, o. split; [| split; [done |]].
    + apply column_Forall2 in Hcol. clear -Hcol Hall.
      revert colp Hall. induction Hcol as [| r c res col Hrc _ IHc]; intros colp Hall.
      * inversion Hall. constructor.
      * inversion Hall as [| ? z ? colp' Hz Hrest]; subst. constructor.
        -- by rewrite (at_path_cons _ _ _ _ Hrc).
        -- by apply IHc.
    + simpl. rewrite Hl. simpl. done.
Qed.

Lemma _nested_stack_leaf (res : list pyval) (first : pyval) :
  head res = Some first → is_tuple first = false →
  _nested_stack stack res = stack res.
Proof.
  intros Hhead Hleaf. rewrite _nested_stack_unfold.
  destruct res as [| r rest]; [discriminate |]. injection Hhead as ->.
  by rewrite Hleaf.
Qed.

Lemma Forall2_at_path_head (res col : list pyval) (first : pyval) (p : list nat) :
  head res = Some first →
  Forall2 (λ r x, at_path r p = Some x) res col →
  ∃ x, at_path first p = Some x ∧ head col = Some x.
Proof.
  intros Hhead Hall. destruct Hall as [| r x res col Hx _]; [discriminate |].
  injection Hhead as ->. by exists x.
Qed.

Lemma tuple_path_at_path (v : pyval) (p : list nat) (x : pyval) :
  tuple_path v p = Some x → at_path v p = Some x.
Proof.
  revert v. induction p as [| i p IH]; intros v; simpl; [done |].
  destruct v as [| | | items]; try discriminate.
  unfold item. simpl. destruct (items !! i) as [y |]; simpl; [| discriminate].
  apply IH.
Qed.

End NestedStackFacts.

(** X15: what [_nested_stack] returns.  At every position of the first
    result of the batch that holds something other than a tuple, the
    output holds the stack of the values the results of the batch have at
    that position, in the order of the batch. *)
Theorem _nested_stack_stacks_every_leaf (stack : list pyval → outcome pyval)
    (res : list pyval) (first out : pyval) (p : list nat) (leaf : pyval) :
  head res = Some first →
  _nested_stack stack res = Returns out →
  tuple_path first p = Some leaf →
  is_tuple leaf = false →
  ∃ col stacked,
    Forall2 (λ r x, at_path r p = Some x) res col
    ∧ stack col = Returns stacked
    ∧ tuple_path out p = Some stacked.
Proof.
  intros Hhead Hrun Hpath Hleaf.
  destruct (_nested_stack_at stack p res first out leaf Hhead Hrun Hpath)
    as (col & o & Hall & Ho & Hout).
  exists col, o. split; [done |]. split; [| done].
  destruct (Forall2_at_path_head res col first p Hhead Hall) as (x & Hx & Hh).
  rewrite (tuple_path_at_path _ _ _ Hpath) in Hx. injection Hx as <-.
  by rewrite <- (_nested_stack_leaf stack col leaf Hh Hleaf).
Qed.

Lemma _nested_stack_stacks_every_leaf_witness :
  ∃ col stacked,
    Forall2 (λ r x, at_path r [1] = Some x) expval_and_probs_batch col
    ∧ stack_model col = Returns stacked
    ∧ tuple_path
        (VTuple [np_array (Array [Scalar (1 # 2); Scalar (1 # 3)]);
                 np_array (Array [Array [Scalar (3 # 4); Scalar (1 # 4)];
                                  Array [Scalar (2 # 3); Scalar (1 # 3)]])])
        [1] = Some stacked.
Proof.
  apply (_nested_stack_stacks_every_leaf stack_model expval_and_probs_batch
           (VTuple [np_scalar (1 # 2);
                    np_array (Array [Scalar (3 # 4); Scalar (1 # 4)])])
           _ [1] (np_array (Array [Scalar (3 # 4); Scalar (1 # 4)])));
    reflexivity.
Defined.

(** X16: the output of [_nested_stack] has the tuple structure of the
    first result of the batch: where the first result holds a tuple, the
    output holds a tuple of the same length. *)
Theorem _nested_stack_keeps_structure_of_first (stack : list pyval → outcome pyval)
    (res : list pyval) (first out : pyval) (p : list nat) (items : list pyval) :
  head res = Some first →
  _nested_stack stack res = Returns out →
  tuple_path first p = Some (VTuple items) →
  ∃ l, tuple_path out p = Some (VTuple l) ∧ length l = length items.
Proof.
  intros Hhead Hrun Hpath.
  destruct (_nested_stack_at stack p res first out _ Hhead Hrun Hpath)
    as (col & o & Hall & Ho & Hout).
  destruct (Forall2_at_path_head res col first p Hhead Hall) as (x & Hx & Hh).
  rewrite (tuple_path_at_path _ _ _ Hpath) in Hx. injection Hx as <-.
  destruct (_nested_stack_tuple_inv stack col items o Hh Ho) as (l & -> & Hlen & _).
  by exists l.
Qed.

Lemma _nested_stack_keeps_structure_of_first_witness :
  ∃ l, tuple_path
         (VTuple [np_array (Array [Scalar (1 # 2); Scalar (1 # 3)]);
                  np_array (Array [Array [Scalar (3 # 4); Scalar (1 # 4)];
                                   Array [Scalar (2 # 3); Scalar (1 # 3)]])])
         [] = Some (VTuple l)
       ∧ length l = 2.
Proof.
  apply (_nested_stack_keeps_structure_of_first stack_model expval_and_probs_batch
           (VTuple [np_scalar (1 # 2);
                    np_array (Array [Scalar (3 # 4); Scalar (1 # 4)])])
           _ [] [np_scalar (1 # 2); np_array (Array [Scalar (3 # 4); Scalar (1 # 4)])]);
    reflexivity.
Defined.

Lemma Forall2_through {A B C} (R : A → B → Prop) (S : A → C → Prop) (T : B → C → Prop)
    (l : list A) (k : list B) (m : list C) :
  (∀ a b c, R a b → S a c → T b c) →
  Forall2 R l k → Forall2 S l m → Forall2 T k m.
Proof.
  intros HT HR. revert m. induction HR as [| a b l k Hab _ IH]; intros m HS.
  - inversion HS. constructor.
  - inversion HS as [| ? c ? m' Hac Hrest]; subst. constructor; [by eapply HT | by apply IH].
Qed.

Lemma at_path_singleton (r : pyval) (i : nat) (c : pyval) :
  at_path r [i] = Some c ↔ item r i = Returns c.
Proof.
  simpl. destruct (item r i) as [x | e]; split; intros H; try discriminate;
    by injection H as ->.
Qed.

Lemma _nested_stack_total (stack : list pyval → outcome pyval) (first : pyval) :
  ∀ res,
    head res = Some first →
    (∀ p node, tuple_path first p = Some node →
       ∃ col, Forall2 (λ r x, at_path r p = Some x) res col
              ∧ (is_tuple node = false → ∃ y, stack col = Returns y)) →
    ∃ out, _nested_stack stack res = Returns out.
Proof.
  assert (∀ v res, head res = Some v → is_tuple v = false →
            (∀ p node, tuple_path v p = Some node →
               ∃ col, Forall2 (λ r x, at_path r p = Some x) res col
                      ∧ (is_tuple node = false → ∃ y, stack col = Returns y)) →
            ∃ out, _nested_stack stack res = Returns out) as Hleaf.
  { intros v res Hhead Hv Hall.
    destruct (Hall [] v eq_refl) as (col & Hcol & Hstack).
    assert (col = res) as ->.
    { clear -Hcol. induction Hcol as [| r x res col Hrx _ IH]; [done |].
      simpl in Hrx. injection Hrx as ->. by rewrite IH. }
    rewrite (_nested_stack_leaf stack res v Hhead Hv). by apply Hstack. }
  induction first as [t | d | l _ | items IH] using pyval_nested_ind;
    intros res Hhead Hall; try (by eapply Hleaf).
  rewrite _nested_stack_unfold.
  destruct res as [| r rest]; [discriminate |]. injection Hhead as ->. simpl is_tuple.
  cbv iota.
  destruct (outcome_map_total
              (λ i, outcome_bind (column (VTuple items :: rest) i) (_nested_stack stack))
              (seq 0 (length items))) as [ys Hys]; [| rewrite Hys; simpl; by eexists].
  apply Forall_forall. intros i Hi. apply elem_of_seq in Hi as [_ Hi]. simpl in Hi.
  destruct (lookup_lt_is_Some_2 items i Hi) as [x Hx].
  destruct (Hall [i] x) as (col & Hcol & _).
  { simpl. by rewrite Hx. }
  assert (column (VTuple items :: rest) i = Returns col) as Hcolumn.
  { apply column_Forall2. eapply Forall2_impl; [exact Hcol |].
    intros r c Hrc. by apply at_path_singleton. }
  rewrite Hcolumn. simpl.
  destruct (column_head (VTuple items :: rest) col (VTuple items) i eq_refl Hcolumn)
    as (x' & Hx' & Hh).
  unfold item in Hx'. simpl in Hx'. rewrite Hx in Hx'. injection Hx' as <-.
  rewrite Forall_forall in IH. apply (IH x); [by eapply list_elem_of_lookup_2 | done |].
  intros p node Hnode.
  destruct (Hall (i :: p) node) as (colp & Hcolp & Hstack).
  { simpl. by rewrite Hx. }
  exists colp. split; [| done].
  apply column_Forall2 in Hcolumn.
  eapply Forall2_through; [| exact Hcolumn | exact Hcolp].
  intros r c z Hrc Hrz. simpl in Hrc, Hrz. by rewrite Hrc in Hrz.
Qed.

(** X17: [_nested_stack] returns on a batch of one structure: if every
    result of the batch can be indexed along every position the first
    result reaches through tuples, and stacking succeeds on the values
    found at the positions that hold no tuple, then [_nested_stack]
    returns a value. *)
Theorem _nested_stack_returns_on_uniform_batch (stack : list pyval → outcome pyval)
    (res : list pyval) (first : pyval) :
  head res = Some first →
  (∀ p node, tuple_path first p = Some node →
     ∃ col, Forall2 (λ r x, at_path r p = Some x) res col
            ∧ (is_tuple node = false → ∃ y, stack col = Returns y)) →
  ∃ out, _nested_stack stack res = Returns out.
Proof. intros Hhead Hall. by eapply _nested_stack_total. Qed.

Lemma _nested_stack_returns_on_uniform_batch_witness :
  ∃ out, _nested_stack stack_model [VTuple [np_scalar 1]; VTuple [np_scalar 2]]
         = Returns out.
Proof.
  apply (_nested_stack_returns_on_uniform_batch stack_model
           [VTuple [np_scalar 1]; VTuple [np_scalar 2]] (VTuple [np_scalar 1]) eq_refl).
  intros [| [| i] [| j p]] node Hnode; simpl in Hnode; try discriminate.
  - exists [VTuple [np_scalar 1]; VTuple [np_scalar 2]].
    split; [repeat constructor |]. injection Hnode as <-. discriminate.
  - exists [np_scalar 1; np_scalar 2].
    split; [repeat constructor | intros _; by eexists].
Defined.

Lemma item_truncate (n i : nat) (r : pyval) :
  i < n → item (truncate n r) i = item r i.
Proof.
  intros Hi. destruct r as [t | d | l | l]; try reflexivity.
  unfold item. simpl. by rewrite lookup_take_lt.
Qed.

Lemma column_truncate (n i : nat) (rest : list pyval) :
  i < n → column (map (truncate n) rest) i = column rest i.
Proof.
  intros Hi. unfold column. induction rest as [| r rest IH]; simpl; [done |].
  by rewrite item_truncate, IH.
Qed.

(** X18: [_nested_stack] reads from the later results of a batch only as
    many items as the first result has: cutting every later result to
    the length of the first changes nothing, so that items beyond that
    length never reach the output. *)
Theorem _nested_stack_ignores_extra_items (stack : list pyval → outcome pyval)
    (items : list pyval) (rest : list pyval) :
  _nested_stack stack (VTuple items :: map (truncate (length items)) rest)
  = _nested_stack stack (VTuple items :: rest).
Proof.
  rewrite !_nested_stack_unfold. simpl is_tuple. cbv iota. f_equal.
  apply outcome_map_ext. apply Forall_forall. intros i Hi.
  apply elem_of_seq in Hi as [_ Hi]. simpl in Hi.
  rewrite !column_cons. by rewrite column_truncate.
Qed.

(** X19: a batch whose first result is a tuple and which holds a tuple
    with fewer items never yields a value: [_nested_stack] raises. *)
Theorem _nested_stack_rejects_shorter_result (stack : list pyval → outcome pyval)
    (res : list pyval) (items short : list pyval) (out : pyval) :
  head res = Some (VTuple items) →
  VTuple short ∈ res →
  length short < length items →
  _nested_stack stack res ≠ Returns out.
Proof.
  intros Hhead Hin Hlen Hrun.
  destruct (_nested_stack_tuple_inv stack res items out Hhead Hrun)
    as (l & _ & _ & Hitems).
  destruct (lookup_lt_is_Some_2 items (length short) Hlen) as [x Hx].
  destruct (Hitems _ x Hx) as (col & y & Hcol & _).
  apply column_Forall2 in Hcol.
  apply list_elem_of_lookup in Hin as [j Hj].
  destruct (Forall2_lookup_l _ _ _ j _ Hcol Hj) as (c & _ & Hc).
  unfold item in Hc. simpl in Hc.
  rewrite lookup_ge_None_2 in Hc by lia. discriminate.
Qed.

Lemma _nested_stack_rejects_shorter_result_witness :
  _nested_stack stack_model [VTuple [np_scalar 1; np_scalar 2]; VTuple [np_scalar 3]]
  ≠ Returns (VTuple []).
Proof.
  apply (_nested_stack_rejects_shorter_result stack_model _
           [np_scalar 1; np_scalar 2] [np_scalar 3]).
  - reflexivity.
  - apply list_elem_of_lookup. exists 1. reflexivity.
  - simpl. lia.
Defined.

(** X22: on a batch whose first result is not a tuple, the two modes of
    the post-processing function of [batch_params] differ by the final
    squeeze only: with the new return types the results are stacked as
    they are, without them the same stack is squeezed. *)
Theorem processing_fn_modes_on_flat_batch (stack : list pyval → outcome pyval)
    (squeeze : pyval → outcome pyval) (res : list pyval) (first : pyval) :
  head res = Some first →
  is_tuple first = false →
  processing_fn stack squeeze true res = stack res
  ∧ processing_fn stack squeeze false res
    = outcome_bind (processing_fn stack squeeze true res) squeeze.
Proof.
  intros Hhead Hleaf. unfold processing_fn.
  by rewrite (_nested_stack_leaf stack res first Hhead Hleaf).
Qed.

Lemma processing_fn_modes_on_flat_batch_witness :
  processing_fn stack_model Returns true [np_scalar 1; np_scalar 2]
  = stack_model [np_scalar 1; np_scalar 2]
  ∧ processing_fn stack_model Returns false [np_scalar 1; np_scalar 2]
    = outcome_bind (processing_fn stack_model Returns true [np_scalar 1; np_scalar 2])
        Returns.
Proof.
  apply (processing_fn_modes_on_flat_batch stack_model Returns
           [np_scalar 1; np_scalar 2] (np_scalar 1)); reflexivity.
Defined.

(* ===================================================================== *)
(** ** The transform program *)

Section TransformProgramFacts.
Context {Fn Args Kwargs ExpandFn Processing : Type}.
Implicit Types program : TransformProgram Fn Args Kwargs ExpandFn Processing.
Implicit Types t : Transform Fn Args Kwargs ExpandFn Processing.

Lemma fold_left_push program ts :
  fold_left push ts program = program ++ ts.
Proof.
  revert program. induction ts as [| t ts IH]; intros program; simpl.
  - by rewrite app_nil_r.
  - rewrite IH. unfold push. by rewrite <- app_assoc.
Qed.

Lemma pop_many_all program rest :
  pop_many (length program) (program ++ rest) = Ok (map as_tuple program, rest).
Proof.
  induction program as [| t program IH]; simpl; [done |].
  rewrite IH. reflexivity.
Qed.

End TransformProgramFacts.

(** X20: the transform program is a queue: transforms pushed one after
    the other onto a new program are popped in the order they were
    pushed, each as the tuple of its five attributes; after as many calls
    of [pop] as there were calls of [push] the program is empty, and one
    more [pop] raises [IndexError]. *)
Theorem transform_program_is_fifo {Fn Args Kwargs ExpandFn Processing : Type}
    (ts : list (Transform Fn Args Kwargs ExpandFn Processing)) :
  pop_many (length ts) (fold_left push ts TransformProgram_init)
  = Ok (map as_tuple ts, [])
  ∧ pop_many (S (length ts)) (fold_left push ts TransformProgram_init)
    = Raise IndexError.
Proof.
  rewrite fold_left_push. unfold TransformProgram_init. simpl app.
  pose proof (pop_many_all ts []) as Hall. rewrite app_nil_r in Hall.
  split; [exact Hall |].
  destruct ts as [| t ts]; [reflexivity |].
  change (pop_many (S (length (t :: ts))) (t :: ts))
    with (result_bind (pop (t :: ts)) (λ '(x, program'),
          result_bind (pop_many (length (t :: ts)) program') (λ '(xs, program''),
          Ok (x :: xs, program'')))).
  simpl pop. simpl result_bind at 1.
  pose proof (pop_many_all ts []) as Hts. rewrite app_nil_r in Hts.
  simpl length.
  change (pop_many (S (length ts)) ts)
    with (result_bind (pop ts) (λ '(x, program'),
          result_bind (pop_many (length ts) program') (λ '(xs, program''),
          Ok (x :: xs, program'')))).
  clear Hall Hts. revert t. induction ts as [| t' ts IH]; intros t; [reflexivity |].
  simpl pop. simpl result_bind at 1. simpl length.
  change (pop_many (S (length ts)) ts)
    with (result_bind (pop ts) (λ '(x, program'),
          result_bind (pop_many (length ts) program') (λ '(xs, program''),
          Ok (x :: xs, program'')))).
  specialize (IH t').
  destruct (result_bind (pop ts) _) as [[xs p] | e] eqn:Hrec; [discriminate |].
  injection IH as ->. reflexivity.
Qed.

(** X21: [push] and [pop] commute on a program that is not empty: a
    transform pushed onto it waits behind the ones registered before it, so
    that [pop] returns the same tuple as without the [push]. *)
Theorem push_then_pop {Fn Args Kwargs ExpandFn Processing : Type}
    (program program' : TransformProgram Fn Args Kwargs ExpandFn Processing)
    (t : Transform Fn Args Kwargs ExpandFn Processing)
    (x : Fn * Args * Kwargs * ExpandFn * Processing) :
  pop program = Ok (x, program') →
  pop (push program t) = Ok (x, push program' t).
Proof.
  destruct program as [| t0 rest]; simpl; [discriminate |].
  intros [= <- <-]. reflexivity.
Qed.

Lemma push_then_pop_witness :
  pop (push [mkTransform "merge_rotations" 1 2 3 4] (mkTransform "cancel_inverses" 5 6 7 8))
  = Ok (("merge_rotations", 1, 2, 3, 4),
        push [] (mkTransform "cancel_inverses" 5 6 7 8)).
Proof.
  apply (push_then_pop [mkTransform "merge_rotations" 1 2 3 4] []). reflexivity.
Defined.

(* ===================================================================== *)
(** ** The decomposition of [QSVT] *)

Section QSVTFacts.
Context {Op : Type} (adjoint : Op → Op).

Lemma enumerate_loop_snoc (U_A : Op) (idx : nat) (l : list Op) (x : Op) :
  QSVT.enumerate_loop Op adjoint U_A idx (l ++ [x])
  = QSVT.enumerate_loop Op adjoint U_A idx l
    ++ [if ((idx + length l) mod 2 =? 0) then U_A else adjoint U_A; x].
Proof.
  revert idx. induction l as [| y l IH]; intros idx; simpl.
  - by rewrite Nat.add_0_r.
  - rewrite IH. by replace (S idx + length l) with (idx + S (length l)) by lia.
Qed.

Lemma last_snoc_take (l : list Op) (final : Op) :
  last l = Some final → l = take (length l - 1) l ++ [final].
Proof.
  intros Hlast. destruct (last_Some l final) as [[l' ->] _]; [done |].
  rewrite length_app. simpl.
  replace (length l' + 1 - 1) with (length l') by lia.
  by rewrite take_app_length.
Qed.

Lemma compute_decomposition_uniform (U_A : Op) (l : list Op) :
  QSVT.compute_decomposition Op adjoint U_A l
  = Ok (QSVT.enumerate_loop Op adjoint U_A 0 l).
Proof.
  unfold QSVT.compute_decomposition.
  destruct (length l mod 2 =? 0) eqn:Hpar; [reflexivity |].
  destruct (last l) as [final |] eqn:Hlast.
  - f_equal. rewrite (last_snoc_take l final Hlast) at 3.
    rewrite enumerate_loop_snoc. simpl Nat.add.
    assert (length (take (length l - 1) l) = length l - 1) as ->.
    { rewrite length_take. lia. }
    assert (((length l - 1) mod 2 =? 0) = true) as ->; [| reflexivity].
    apply Nat.eqb_neq in Hpar. apply Nat.eqb_eq.
    assert (length l ≠ 0) by (intros H0; rewrite H0 in Hpar; by apply Hpar).
    pose proof (Nat.mod_upper_bound (length l) 2).
    pose proof (Nat.div_mod_eq (length l) 2).
    assert (length l - 1 = 2 * (length l / 2)) as -> by lia.
    rewrite Nat.mul_comm. apply Nat.Div0.mod_mul.
  - apply last_None in Hlast. subst l. discriminate.
Qed.

Lemma enumerate_loop_spec (U_A : Op) (l : list Op) :
  ∀ idx,
    length (QSVT.enumerate_loop Op adjoint U_A idx l) = 2 * length l
    ∧ ∀ k op, l !! k = Some op →
        QSVT.enumerate_loop Op adjoint U_A idx l !! (2 * k)
        = Some (if ((idx + k) mod 2 =? 0) then U_A else adjoint U_A)
        ∧ QSVT.enumerate_loop Op adjoint U_A idx l !! (2 * k + 1) = Some op.
Proof.
  induction l as [| y l IH]; intros idx.
  - split; [done |]. intros k op Hk. discriminate.
  - destruct (IH (S idx)) as [Hlen Hat]. cbn [QSVT.enumerate_loop length].
    split; [lia |].
    intros [| k] op Hk; cbn [lookup list_lookup] in Hk.
    + injection Hk as ->. rewrite Nat.add_0_r. split; reflexivity.
    + destruct (Hat k op Hk) as [He Ho].
      replace (2 * S k) with (S (S (2 * k))) by lia.
      replace (S (S (2 * k)) + 1) with (S (S (2 * k + 1))) by lia.
      cbn [lookup list_lookup].
      replace (idx + S k) with (S idx + k) by lia.
      split; [exact He | exact Ho].
Qed.

End QSVTFacts.

(** X23: the decomposition of [QSVT] is one alternation, whatever the
    parity of the number of projectors: it never raises, it has two
    operators per projector, at the even positions the block encoding
    (for the projectors of even index) or its adjoint (for those of odd
    index), and at the odd positions the projectors in their order. *)
Theorem qsvt_decomposition_alternates {Op : Type} (adjoint : Op → Op) (U_A : Op)
    (lst_projectors : list Op) :
  ∃ op_list,
    QSVT.compute_decomposition Op adjoint U_A lst_projectors = Ok op_list
    ∧ length op_list = 2 * length lst_projectors
    ∧ ∀ k op, lst_projectors !! k = Some op →
        op_list !! (2 * k) = Some (if Nat.even k then U_A else adjoint U_A)
        ∧ op_list !! (2 * k + 1) = Some op.
Proof.
  exists (QSVT.enumerate_loop Op adjoint U_A 0 lst_projectors).
  split; [apply compute_decomposition_uniform |].
  destruct (enumerate_loop_spec adjoint U_A lst_projectors 0) as [Hlen Hat].
  split; [exact Hlen |]. intros k op Hk. destruct (Hat k op Hk) as [He Ho].
  split; [| exact Ho]. rewrite He. simpl Nat.add.
  replace (k mod 2 =? 0) with (Nat.even k); [done |].
  destruct (Nat.even k) eqn:Hev.
  - apply Nat.even_spec in Hev as [m ->]. symmetry. apply Nat.eqb_eq.
    rewrite Nat.mul_comm. apply Nat.Div0.mod_mul.
  - symmetry. apply Nat.eqb_neq. intros Hmod.
    apply Nat.Div0.mod_divides in Hmod as [m ->].
    rewrite Nat.even_mul in Hev. discriminate.
Qed.

(* ===================================================================== *)
(** ** [BasisStatePreparation] *)

Section BasisFacts.
Import BasisStatePreparation.

Lemma compute_decomposition_cons (b : Q) (bits : list Q) (w : nat) (wires : list nat) :
  compute_decomposition false (b :: bits) (w :: wires)
  = (if Qeq_bool b 1 then [PauliX w] else []) ++ compute_decomposition false bits wires.
Proof. reflexivity. Qed.

Lemma count_PauliX_app (w : nat) (g1 g2 : list gate) :
  count_PauliX w (g1 ++ g2) = count_PauliX w g1 + count_PauliX w g2.
Proof. unfold count_PauliX. by rewrite List.filter_app, length_app. Qed.

Lemma count_PauliX_absent (w : nat) (bits : list Q) (wires : list nat) :
  w ∉ wires → count_PauliX w (compute_decomposition false bits wires) = 0.
Proof.
  revert bits. induction wires as [| w0 wires IH]; intros bits Hnot; [reflexivity |].
  destruct bits as [| b bits]; [reflexivity |].
  rewrite compute_decomposition_cons, count_PauliX_app.
  apply not_elem_of_cons in Hnot as [Hne Hnot]. rewrite (IH bits Hnot).
  destruct (Qeq_bool b 1); [| reflexivity].
  unfold count_PauliX. simpl.
  destruct (w0 =? w) eqn:Heq; [| reflexivity].
  apply Nat.eqb_eq in Heq. congruence.
Qed.

Lemma count_PauliX_at (wires : list nat) :
  ∀ bits i w b,
    NoDup wires → wires !! i = Some w → bits !! i = Some b →
    count_PauliX w (compute_decomposition false bits wires)
    = if Qeq_bool b 1 then 1 else 0.
Proof.
  induction wires as [| w0 wires IH]; intros bits i w b Hnd Hw Hb; [discriminate |].
  destruct bits as [| b0 bits]; [discriminate |].
  apply NoDup_cons in Hnd as [Hnot Hnd].
  rewrite compute_decomposition_cons, count_PauliX_app.
  destruct i as [| i]; simpl in Hw, Hb.
  - injection Hw as ->. injection Hb as ->.
    rewrite (count_PauliX_absent w bits wires Hnot).
    destruct (Qeq_bool b 1); [| reflexivity].
    unfold count_PauliX. simpl. by rewrite Nat.eqb_refl.
  - rewrite (IH bits i w b Hnd Hw Hb).
    assert (w0 ≠ w) as Hne.
    { intros ->. apply Hnot. by eapply list_elem_of_lookup_2. }
    destruct (Qeq_bool b0 1); [| reflexivity].
    unfold count_PauliX at 1. simpl.
    apply Nat.eqb_neq in Hne. by rewrite Hne.
Qed.

Lemma __init___one_dimensional (bits : list Q) (wires : list nat) :
  __init__ false (Array (map Scalar bits)) wires = Ok tt →
  length bits = length wires
  ∧ Forall (λ b, Qeq_bool b 0 = true ∨ Qeq_bool b 1 = true) bits.
Proof.
  unfold __init__.
  assert (array_shape (Array (map Scalar bits)) = [length bits]) as ->.
  { simpl. rewrite length_map. by destruct bits. }
  simpl. unfold check_state.
  assert (array_shape (Array (map Scalar bits)) = [length bits]) as ->.
  { simpl. rewrite length_map. by destruct bits. }
  simpl.
  destruct (length bits =? length wires) eqn:Hlen; simpl; [| discriminate].
  destruct (existsb not_a_bit (map Scalar bits)) eqn:Hbits; [discriminate |].
  intros _. split; [by apply Nat.eqb_eq |].
  clear Hlen. induction bits as [| b bits IH]; [constructor |].
  simpl in Hbits. apply orb_false_iff in Hbits as [Hb Hrest].
  constructor; [| by apply IH].
  apply negb_false_iff, orb_true_iff in Hb. exact Hb.
Qed.

End BasisFacts.

(** X24: the decomposition of a concrete basis state holds nothing but
    [PauliX] gates, and it holds [PauliX] on a wire exactly when that wire
    is paired with an entry equal to [1]. *)
Theorem basis_state_decomposition_gates (basis_state : list Q) (wires : list nat)
    (g : BasisStatePreparation.gate) :
  g ∈ BasisStatePreparation.compute_decomposition false basis_state wires
  ↔ ∃ i w b, wires !! i = Some w ∧ basis_state !! i = Some b
             ∧ Qeq_bool b 1 = true ∧ g = BasisStatePreparation.PauliX w.
Proof.
  revert basis_state. induction wires as [| w0 wires IH]; intros bits.
  - simpl. split; [by intros H%elem_of_nil |]. by intros (i & w & b & H & _).
  - destruct bits as [| b0 bits].
    + simpl. split; [by intros H%elem_of_nil |].
      intros (i & w & b & _ & H & _). discriminate.
    + rewrite compute_decomposition_cons, elem_of_app, IH. split.
      * intros [Hhead | (i & w & b & Hw & Hb & Hone & ->)].
        -- destruct (Qeq_bool b0 1) eqn:Hone; [| by apply elem_of_nil in Hhead].
           apply list_elem_of_singleton in Hhead as ->. by exists 0, w0, b0.
        -- by exists (S i), w, b.
      * intros ([| i] & w & b & Hw & Hb & Hone & ->); simpl in Hw, Hb.
        -- injection Hw as ->. injection Hb as ->. left. rewrite Hone.
           by apply list_elem_of_singleton.
        -- right. by exists i, w, b.
Qed.

(** X25: a concrete one-dimensional basis state that [__init__] accepts
    for wires without repetition has one entry per wire, each [0] or
    [1], and its decomposition has exactly one [PauliX] on every wire
    whose entry is [1] and none on every wire whose entry is [0]. *)
Theorem basis_state_decomposition_flips_the_ones (basis_state : list Q)
    (wires : list nat) (i w : nat) :
  BasisStatePreparation.__init__ false (Array (map Scalar basis_state)) wires = Ok tt →
  NoDup wires →
  wires !! i = Some w →
  ∃ b, basis_state !! i = Some b
       ∧ (Qeq_bool b 0 = true ∨ Qeq_bool b 1 = true)
       ∧ BasisStatePreparation.count_PauliX w
           (BasisStatePreparation.compute_decomposition false basis_state wires)
         = if Qeq_bool b 1 then 1 else 0.
Proof.
  intros Hinit Hnd Hw.
  destruct (__init___one_dimensional basis_state wires Hinit) as [Hlen Hbits].
  destruct (lookup_lt_is_Some_2 basis_state i) as [b Hb].
  { rewrite Hlen. by eapply lookup_lt_Some. }
  exists b. split; [done |]. split.
  - rewrite Forall_forall in Hbits. apply Hbits. by eapply list_elem_of_lookup_2.
  - by eapply count_PauliX_at.
Qed.

Lemma basis_state_decomposition_flips_the_ones_witness :
  ∃ b, [0%Q; 1%Q; 1%Q; 0%Q] !! 1 = Some b
       ∧ (Qeq_bool b 0 = true ∨ Qeq_bool b 1 = true)
       ∧ BasisStatePreparation.count_PauliX 7
           (BasisStatePreparation.compute_decomposition false [0%Q; 1%Q; 1%Q; 0%Q]
              [5; 7; 8; 9])
         = if Qeq_bool b 1 then 1 else 0.
Proof.
  apply (basis_state_decomposition_flips_the_ones [0%Q; 1%Q; 1%Q; 0%Q] [5; 7; 8; 9] 1 7).
  - reflexivity.
  - apply (bool_decide_unpack (NoDup [5; 7; 8; 9])). vm_compute. exact I.
  - reflexivity.
Defined.

(* ===================================================================== *)
(** ** The derivative methods of the device interface *)

(** X26: a device that does not override [compute_derivatives] reports no
    support for derivatives under any configuration, and on it
    [execute_and_compute_derivatives] never returns: it first executes the
    circuits, and raises [NotImplementedError] if the execution
    returns. *)
Theorem device_without_derivatives {Circuits Results Derivatives : Type}
    (dev : DeviceApi.Device Circuits Results Derivatives)
    (config : option DeviceApi.ExecutionConfig)
    (circuits : Circuits) (execution_config : DeviceApi.ExecutionConfig) :
  DeviceApi.supports_derivatives dev None = false →
  DeviceApi.supports_derivatives dev config = false
  ∧ DeviceApi.compute_derivatives dev circuits execution_config
    = Raise NotImplementedError
  ∧ DeviceApi.execute_and_compute_derivatives dev circuits execution_config
    = result_bind (DeviceApi.execute dev circuits execution_config)
        (λ _, Raise NotImplementedError).
Proof.
  unfold DeviceApi.supports_derivatives, DeviceApi.overrides_compute_derivatives,
    DeviceApi.execute_and_compute_derivatives, DeviceApi.compute_derivatives.
  destruct (DeviceApi.own_compute_derivatives dev) as [f |]; [discriminate |].
  intros _. split; [| split; [reflexivity |]].
  - destruct config as [c |]; [| reflexivity]. by destruct (_ || _).
  - by destruct (DeviceApi.execute dev circuits execution_config).
Qed.

Lemma device_without_derivatives_witness :
  DeviceApi.execute_and_compute_derivatives
    (DeviceApi.mkDevice (Derivatives := nat) (λ (c : nat) _, Ok c) None) 3
    (DeviceApi.mkExecutionConfig "device" 1)
  = Raise NotImplementedError.
Proof.
  apply (device_without_derivatives
           (DeviceApi.mkDevice (Derivatives := nat) (λ (c : nat) _, Ok c) None)
           None 3 (DeviceApi.mkExecutionConfig "device" 1) eq_refl).
Defined.
